(** * ChatLab AI agent: tool-calling loop and query-tool executors

    Shallow embedding of [electron/main/ai/agent.ts] (the [Agent] class) and
    of the four tool executors registered next to it (search_messages,
    get_recent_messages, get_member_stats, get_time_stats).

    Conventions.  JavaScript numbers are modelled by [Z]: every number the
    modelled code computes with is an integer (round counters, limits,
    years, months, epoch seconds); NaN, infinities and fractions are outside
    the model.  An optional property [p?: T] is an [option T]; a JavaScript
    truthiness test on an optional number is [truthy]. *)

From Stdlib Require Import ZArith QArith List String Ascii Bool Lia DecimalString.
Import ListNotations.

Set Warnings "-register-all".

Local Open Scope string_scope.
Local Open Scope list_scope.
Local Open Scope Z_scope.

(** ** JavaScript helpers *)

(** [if (x)] for [x : number | undefined]: [undefined] and [0] are falsy. *)
Definition truthy (x : option Z) : bool :=
  match x with
  | Some v => negb (v =? 0)
  | None => false
  end.

(** The number an optional number holds, where the code has tested it to be
    truthy. *)
Definition number (x : option Z) : Z :=
  match x with
  | Some v => v
  | None => 0
  end.

(** [x || d] for [x : number | undefined]. *)
Definition or_default (x : option Z) (d : Z) : Z :=
  match x with
  | Some v => if v =? 0 then d else v
  | None => d
  end.

(** ** The Date object, after ECMA-262 (section "Date Objects")

    Time values are milliseconds; [Z.div] and [Z.modulo] with a positive
    divisor are the floor division and modulo of the standard.  TimeClip,
    which turns a time value beyond 8.64e15 ms into NaN, is left out: the
    model is that of the years whose dates a Date object can hold. *)
Module JsDate.

Definition msPerSecond : Z := 1000.
Definition msPerMinute : Z := 60000.
Definition msPerHour : Z := 3600000.
Definition msPerDay : Z := 86400000.

Definition Day (t : Z) : Z := t / msPerDay.
Definition TimeWithinDay (t : Z) : Z := t mod msPerDay.

Definition isLeapYear (y : Z) : bool :=
  (y mod 4 =? 0) && (negb (y mod 100 =? 0) || (y mod 400 =? 0)).

Definition DaysInYear (y : Z) : Z := if isLeapYear y then 366 else 365.

Definition DayFromYear (y : Z) : Z :=
  365 * (y - 1970) + (y - 1969) / 4 - (y - 1901) / 100 + (y - 1601) / 400.

Definition TimeFromYear (y : Z) : Z := msPerDay * DayFromYear y.

(** "The largest integer y such that TimeFromYear(y) <= t": the mean year
    has 146097/400 days, so the year is within one of the estimate [c]. *)
Definition YearFromTime (t : Z) : Z :=
  let d := Day t in
  let c := 1970 + (400 * d) / 146097 in
  if DayFromYear (c + 1) <=? d then c + 1
  else if DayFromYear c <=? d then c
  else c - 1.

Definition InLeapYear (t : Z) : Z :=
  if isLeapYear (YearFromTime t) then 1 else 0.

Definition DayWithinYear (t : Z) : Z := Day t - DayFromYear (YearFromTime t).

(** Day number, within its year, of the first day of month [mn] (0-based). *)
Definition monthStart (mn : Z) (leap : Z) : Z :=
  match mn with
  | 0 => 0
  | 1 => 31
  | 2 => 59 + leap
  | 3 => 90 + leap
  | 4 => 120 + leap
  | 5 => 151 + leap
  | 6 => 181 + leap
  | 7 => 212 + leap
  | 8 => 243 + leap
  | 9 => 273 + leap
  | 10 => 304 + leap
  | 11 => 334 + leap
  | _ => 365 + leap
  end.

Definition MonthFromTime (t : Z) : Z :=
  let d := DayWithinYear t in
  let l := InLeapYear t in
  if d <? 31 then 0
  else if d <? 59 + l then 1
  else if d <? 90 + l then 2
  else if d <? 120 + l then 3
  else if d <? 151 + l then 4
  else if d <? 181 + l then 5
  else if d <? 212 + l then 6
  else if d <? 243 + l then 7
  else if d <? 273 + l then 8
  else if d <? 304 + l then 9
  else if d <? 334 + l then 10
  else 11.

Definition DateFromTime (t : Z) : Z :=
  DayWithinYear t + 1 - monthStart (MonthFromTime t) (InLeapYear t).

Definition HourFromTime (t : Z) : Z := (t / msPerHour) mod 24.
Definition MinFromTime (t : Z) : Z := (t / msPerMinute) mod 60.
Definition SecFromTime (t : Z) : Z := (t / msPerSecond) mod 60.
Definition msFromTime (t : Z) : Z := t mod msPerSecond.

Definition MakeTime (hour min sec ms : Z) : Z :=
  hour * msPerHour + min * msPerMinute + sec * msPerSecond + ms.

(** MakeDay: the month is normalised into the year first, then the day of
    the month is an offset from the first of that month, so that day 0 is
    the day before the first and months beyond 11 run into later years. *)
Definition MakeDay (year month date : Z) : Z :=
  let ym := year + month / 12 in
  let mn := month mod 12 in
  DayFromYear ym + monthStart mn (if isLeapYear ym then 1 else 0) + date - 1.

Definition MakeDate (day time : Z) : Z := day * msPerDay + time.

(** MakeFullYear: the constructor reads years 0..99 as 1900..1999. *)
Definition MakeFullYear (year : Z) : Z :=
  if (0 <=? year) && (year <=? 99) then 1900 + year else year.

(** The local time value denoted by the arguments of
    [new Date(year, month, date, hours, minutes, seconds)]. *)
Definition localTime (year month date hours minutes seconds : Z) : Z :=
  MakeDate (MakeDay (MakeFullYear year) month date)
           (MakeTime hours minutes seconds 0).

(** A local time value in civil notation. *)
Record Civil := {
  c_year : Z; c_month : Z (* 0 = January *); c_date : Z;
  c_hours : Z; c_minutes : Z; c_seconds : Z; c_ms : Z
}.

Definition civil (t : Z) : Civil :=
  {| c_year := YearFromTime t; c_month := MonthFromTime t;
     c_date := DateFromTime t; c_hours := HourFromTime t;
     c_minutes := MinFromTime t; c_seconds := SecFromTime t;
     c_ms := msFromTime t |}.

(** Civil notation with the months counted from 1 and no milliseconds. *)
Definition ymd_hms (y m d h mi s : Z) : Civil :=
  {| c_year := y; c_month := m - 1; c_date := d;
     c_hours := h; c_minutes := mi; c_seconds := s; c_ms := 0 |}.

(** Days of month [mn] (0-based) of year [y]. *)
Definition DaysInMonth (y mn : Z) : Z :=
  match mn with
  | 1 => if isLeapYear y then 29 else 28
  | 3 | 5 | 8 | 10 => 30
  | _ => 31
  end.

Section Host.
(** The host's offset of local time from UTC, in milliseconds, at a local
    time value (it varies with daylight saving). *)
Variable LocalTZA : Z -> Z.

Definition UTC (t : Z) : Z := t - LocalTZA t.

(** A Date object holds a UTC time value. *)
Record Date := { DateValue : Z }.

(** [new Date(year, month, date = 1, hours = 0, minutes = 0, seconds = 0)] *)
Definition new_Date (year month date hours minutes seconds : Z) : Date :=
  {| DateValue := UTC (localTime year month date hours minutes seconds) |}.

Definition getTime (d : Date) : Z := DateValue d.
End Host.

End JsDate.

(** ** Completions: a call returns or throws *)

Inductive JsError :=
| TypeError (msg : string)
| TransportError (msg : string).

Inductive Completion (A : Type) :=
| Return (a : A)
| Throw (e : JsError).
Arguments Return {A} a.
Arguments Throw {A} e.

(** [Array.prototype.reduce] without an initial value: the first element
    seeds the accumulator; on an empty array it throws a TypeError. *)
Definition reduce1 {A : Type} (f : A -> A -> A) (l : list A) : Completion A :=
  match l with
  | [] => Throw (TypeError "Reduce of empty array with no initial value")
  | x :: xs => Return (fold_left f xs x)
  end.

(** [a[i]] for a number [i]: [undefined] outside the array. *)
Definition index {A : Type} (a : list A) (i : Z) : option A :=
  if i <? 0 then None else nth_error a (Z.to_nat i).

(** [a.slice(-n)]: the last [n] elements. *)
Definition slice_last {A : Type} (n : nat) (a : list A) : list A :=
  skipn (List.length a - n)%nat a.

(** Number-to-string conversion of an integer. *)
Definition string_of_Z (z : Z) : string :=
  DecimalString.NilZero.string_of_int (Z.to_int z).

(** ** The query tools (tool registration file) *)
Module Tools.

Record TimeFilter := { startTs : Z; endTs : Z }.

Record ToolContext := {
  sessionId : string;
  timeFilter : option TimeFilter
}.

(** Rows and replies of the data store ([workerManager]). *)
Record StoredMessage := {
  senderName : string;
  m_content : string;
  timestamp : Z
}.

Record MessagesResult := {
  r_total : Z;
  r_messages : list StoredMessage
}.

Record HourlyActivity := { hour : Z; h_messageCount : Z }.
Record WeekdayActivity := { weekday : Z; w_messageCount : Z }.
Record DailyActivity := { date : string; d_messageCount : Z }.

(** Arguments of the tools, as the executors declare them. *)
Record SearchMessagesParams := {
  keywords : list string;
  s_limit : option Z;
  s_year : option Z;
  s_month : option Z
}.

Record RecentMessagesParams := {
  g_limit : option Z;
  g_year : option Z;
  g_month : option Z
}.

Inductive TimeStatsType := hourly | weekday_ | daily.

(** Replies of the executors. *)
Record FormattedMessage := { sender : string; content : string; time : string }.

Inductive TimeRange :=
| Range (start end_ : string)
| AllTime (* the string '全部时间' *).

Record MessagesReply := {
  total : Z;
  returned : Z;
  timeRange : TimeRange;
  messages : list FormattedMessage
}.

Inductive TimeStatsReply :=
| HourlyReply (distribution : list (string * Z)) (peakHour : string) (peakCount : Z)
| WeekdayReply (distribution : list (option string * Z)) (peakDay : option string)
               (peakCount : Z)
| DailyReply (recentDays : Z) (totalMessages : Z) (averagePerDay : option Z)
             (trend : list (string * Z)).

(** The calls the two message tools make on the data store. *)
Record SearchMessagesCall := {
  sc_sessionId : string;
  sc_keywords : list string;
  sc_filter : option TimeFilter;
  sc_limit : Z;
  sc_offset : Z
}.

Record RecentMessagesCall := {
  rc_sessionId : string;
  rc_filter : option TimeFilter;
  rc_limit : Z
}.

Definition weekdayNames : list string :=
  [""; "周一"; "周二"; "周三"; "周四"; "周五"; "周六"; "周日"].

(** [Math.round (total / n)]: [NaN] ([None]) for [n = 0], else the nearest
    integer, halves going up. *)
Definition round_div (total n : Z) : option Z :=
  if n =? 0 then None else Some ((2 * total + n) / (2 * n)).

Section Executors.

(** The host: time zone and locale formatting of a time value. *)
Variable LocalTZA : Z -> Z.
Variable toLocaleDateString : Z -> string.
Variable toLocaleString : Z -> string.

(** The data store. *)
Variable searchMessages :
  string -> list string -> option TimeFilter -> Z -> Z -> MessagesResult.
Variable getRecentMessages : string -> option TimeFilter -> Z -> MessagesResult.
Variable getHourlyActivity : string -> option TimeFilter -> list HourlyActivity.
Variable getWeekdayActivity : string -> option TimeFilter -> list WeekdayActivity.
Variable getDailyActivity : string -> option TimeFilter -> list DailyActivity.

(** The time-filter block, the same statements in [searchMessagesExecutor]
    and in [getRecentMessagesExecutor]: the year and month of the call take
    precedence over the filter of the context. *)
Definition effectiveTimeFilter (year month : option Z)
    (contextTimeFilter : option TimeFilter) : option TimeFilter :=
  if truthy year then
    let year := number year in
    let '(startDate, endDate) :=
      if truthy month then
        let month := number month in
        (JsDate.new_Date LocalTZA year (month - 1) 1 0 0 0,
         JsDate.new_Date LocalTZA year month 0 23 59 59)
      else
        (JsDate.new_Date LocalTZA year 0 1 0 0 0,
         JsDate.new_Date LocalTZA year 11 31 23 59 59) in
    Some {| startTs := JsDate.getTime startDate / 1000;
            endTs := JsDate.getTime endDate / 1000 |}
  else contextTimeFilter.

Definition formatTimeRange (f : option TimeFilter) : TimeRange :=
  match f with
  | Some f => Range (toLocaleDateString (startTs f * 1000))
                    (toLocaleDateString (endTs f * 1000))
  | None => AllTime
  end.

Definition formatMessage (m : StoredMessage) : FormattedMessage :=
  {| sender := senderName m; content := m_content m;
     time := toLocaleString (timestamp m * 1000) |}.

(** The call of [workerManager.searchMessages] in [searchMessagesExecutor]. *)
Definition searchMessagesExecutor_call (params : SearchMessagesParams)
    (context : ToolContext) : SearchMessagesCall :=
  let limit := Z.min (or_default (s_limit params) 200) 5000 in
  let effective :=
    effectiveTimeFilter (s_year params) (s_month params) (timeFilter context) in
  {| sc_sessionId := sessionId context; sc_keywords := keywords params;
     sc_filter := effective; sc_limit := limit; sc_offset := 0 |}.

Definition searchMessagesExecutor (params : SearchMessagesParams)
    (context : ToolContext) : MessagesReply :=
  let c := searchMessagesExecutor_call params context in
  let result :=
    searchMessages (sc_sessionId c) (sc_keywords c) (sc_filter c) (sc_limit c)
                   (sc_offset c) in
  {| total := r_total result;
     returned := Z.of_nat (List.length (r_messages result));
     timeRange := formatTimeRange (sc_filter c);
     messages := map formatMessage (r_messages result) |}.

(** The call of [workerManager.getRecentMessages] in
    [getRecentMessagesExecutor]. *)
Definition getRecentMessagesExecutor_call (params : RecentMessagesParams)
    (context : ToolContext) : RecentMessagesCall :=
  let limit := or_default (g_limit params) 100 in
  let effective :=
    effectiveTimeFilter (g_year params) (g_month params) (timeFilter context) in
  {| rc_sessionId := sessionId context; rc_filter := effective;
     rc_limit := limit |}.

Definition getRecentMessagesExecutor (params : RecentMessagesParams)
    (context : ToolContext) : MessagesReply :=
  let c := getRecentMessagesExecutor_call params context in
  let result := getRecentMessages (rc_sessionId c) (rc_filter c) (rc_limit c) in
  {| total := r_total result;
     returned := Z.of_nat (List.length (r_messages result));
     timeRange := formatTimeRange (rc_filter c);
     messages := map formatMessage (r_messages result) |}.

Definition getTimeStatsExecutor (type : TimeStatsType) (context : ToolContext)
    : Completion TimeStatsReply :=
  match type with
  | hourly =>
      let result := getHourlyActivity (sessionId context) (timeFilter context) in
      match reduce1 (fun max curr =>
                       if h_messageCount curr >? h_messageCount max
                       then curr else max) result with
      | Throw e => Throw e
      | Return peak =>
          Return (HourlyReply
            (map (fun h => (string_of_Z (hour h) ++ ":00", h_messageCount h))%string
                 result)
            (string_of_Z (hour peak) ++ ":00")%string
            (h_messageCount peak))
      end
  | weekday_ =>
      let result := getWeekdayActivity (sessionId context) (timeFilter context) in
      match reduce1 (fun max curr =>
                       if w_messageCount curr >? w_messageCount max
                       then curr else max) result with
      | Throw e => Throw e
      | Return peak =>
          Return (WeekdayReply
            (map (fun w => (index weekdayNames (weekday w), w_messageCount w))
                 result)
            (index weekdayNames (weekday peak))
            (w_messageCount peak))
      end
  | daily =>
      let result := getDailyActivity (sessionId context) (timeFilter context) in
      let recent := slice_last 30 result in
      let total := fold_left (fun sum d => sum + d_messageCount d) recent 0 in
      let avg := round_div total (Z.of_nat (List.length recent)) in
      Return (DailyReply (Z.of_nat (List.length recent)) total avg
                (map (fun d => (date d, d_messageCount d)) recent))
  end.

End Executors.

(** The filter, in epoch seconds of the host, that runs from the local time
    value [from] to the local time value [to]. *)
Definition window (LocalTZA : Z -> Z) (from to : Z) : option TimeFilter :=
  Some {| startTs := JsDate.UTC LocalTZA from / 1000;
          endTs := JsDate.UTC LocalTZA to / 1000 |}.

(** The filter each message tool passes to the data store, as a function of
    the year and month of the call. *)
Definition searchFilter (LocalTZA : Z -> Z) (kws : list string) (lim : option Z)
    (ctx : ToolContext) (year month : option Z) : option TimeFilter :=
  sc_filter (searchMessagesExecutor_call LocalTZA
               {| keywords := kws; s_limit := lim;
                  s_year := year; s_month := month |} ctx).

Definition recentFilter (LocalTZA : Z -> Z) (lim : option Z)
    (ctx : ToolContext) (year month : option Z) : option TimeFilter :=
  rc_filter (getRecentMessagesExecutor_call LocalTZA
               {| g_limit := lim; g_year := year; g_month := month |} ctx).

End Tools.

(** ** The agent ([Agent] class) *)
Module Agent.

Import Tools.

(** Values of [JSON.parse]; the properties of an object are kept in their
    enumeration order. *)
Inductive Json :=
| JNull
| JBool (b : bool)
| JNumber (n : Z)
| JString (s : string)
| JArray (items : list Json)
| JObject (props : list (string * Json)).

(** The types of [./llm/types], as the agent uses them. *)
Record FunctionCall := { name : string; arguments : string }.
Record ToolCall := { id : string; function : FunctionCall }.

Inductive Role := system | user | assistant | tool.

Record ChatMessage := {
  role : Role;
  content : string;
  tool_calls : option (list ToolCall);
  tool_call_id : option string
}.

Record ToolDefinition := {
  td_name : string;
  td_description : string;
  td_parameters : Json
}.

Record ChatOptions := {
  temperature : option Q;
  maxTokens : option Z;
  tools : option (list ToolDefinition)
}.

Record ChatResponse := {
  resp_content : string;
  resp_finishReason : string;
  resp_tool_calls : option (list ToolCall)
}.

Record ChatStreamChunk := {
  chunk_content : option string;
  chunk_tool_calls : option (list ToolCall);
  chunk_isFinished : bool;
  chunk_finishReason : option string
}.

(** An asynchronous chunk sequence: the chunks it yields and, when the
    transport fails after them, the error it then throws. *)
Record ChatStream := {
  chunks : list ChatStreamChunk;
  failure : option JsError
}.

(** Modelled from the spec: the type [ToolExecutionResult] of
    [./tools/types], "either a success payload (arbitrary structured value)
    or a failure reason (text)", read through [success], [result], [error]. *)
Inductive ToolExecutionResult :=
| ToolSuccess (result : Json)
| ToolFailure (error : string).

Definition success (r : ToolExecutionResult) : bool :=
  match r with ToolSuccess _ => true | ToolFailure _ => false end.

Record AgentConfig := {
  maxToolRounds : option Z;
  llmOptions : option ChatOptions
}.

(** [AgentStreamChunk], a union tagged by [type]. *)
Inductive AgentStreamChunk :=
| content_chunk (content : string)
| tool_start (toolName : string) (toolParams : option Json)
| tool_result (toolName : string) (toolResult : Json + string)
| done_chunk
| error_chunk (error : string).

Record AgentResult := {
  res_content : string;
  res_toolsUsed : list string;
  res_toolRounds : Z
}.

(** What a run does to its surroundings, in order: calls of the chat model
    (with the history and options passed), calls of [executeToolCalls], and
    chunks handed to [onChunk]. *)
Inductive Action :=
| ModelCall (history : list ChatMessage) (options : ChatOptions)
| Dispatch (toolCalls : list ToolCall)
| Emit (chunk : AgentStreamChunk).

Definition isModelCall (a : Action) : bool :=
  match a with ModelCall _ _ => true | _ => false end.

Definition modelCalls (log : list Action) : nat :=
  List.length (filter isModelCall log).

(** The fields of an [Agent] instance; [config] holds the two settings as
    the constructor resolves them.  [log] is not a field of the class: it
    records the actions of the current run. *)
Record Agent := {
  context : ToolContext;
  cfg_maxToolRounds : Z;
  cfg_llmOptions : ChatOptions;
  messages : list ChatMessage;
  toolsUsed : list string;
  toolRounds : Z;
  log : list Action
}.

Definition defaultLlmOptions : ChatOptions :=
  {| temperature := Some (7 # 10)%Q; maxTokens := Some 2048; tools := None |}.

(** [constructor(context, config = {})] *)
Definition new_Agent (context : ToolContext) (config : AgentConfig) : Agent :=
  {| context := context;
     cfg_maxToolRounds :=
       match maxToolRounds config with Some m => m | None => 5 end;
     cfg_llmOptions :=
       match llmOptions config with Some o => o | None => defaultLlmOptions end;
     messages := []; toolsUsed := []; toolRounds := 0; log := [] |}.

Definition emptyConfig : AgentConfig :=
  {| maxToolRounds := None; llmOptions := None |}.

(** Field updates. *)
Definition push_message (m : ChatMessage) (a : Agent) : Agent :=
  {| context := context a; cfg_maxToolRounds := cfg_maxToolRounds a;
     cfg_llmOptions := cfg_llmOptions a; messages := messages a ++ [m];
     toolsUsed := toolsUsed a; toolRounds := toolRounds a; log := log a |}.

Definition push_toolUsed (n : string) (a : Agent) : Agent :=
  {| context := context a; cfg_maxToolRounds := cfg_maxToolRounds a;
     cfg_llmOptions := cfg_llmOptions a; messages := messages a;
     toolsUsed := toolsUsed a ++ [n]; toolRounds := toolRounds a;
     log := log a |}.

Definition incr_toolRounds (a : Agent) : Agent :=
  {| context := context a; cfg_maxToolRounds := cfg_maxToolRounds a;
     cfg_llmOptions := cfg_llmOptions a; messages := messages a;
     toolsUsed := toolsUsed a; toolRounds := toolRounds a + 1; log := log a |}.

Definition record (act : Action) (a : Agent) : Agent :=
  {| context := context a; cfg_maxToolRounds := cfg_maxToolRounds a;
     cfg_llmOptions := cfg_llmOptions a; messages := messages a;
     toolsUsed := toolsUsed a; toolRounds := toolRounds a;
     log := log a ++ [act] |}.

(** [onChunk(chunk)] *)
Definition onChunk (c : AgentStreamChunk) (a : Agent) : Agent := record (Emit c) a.

(** The history a run starts from. *)
Definition seedMessages (systemPrompt userMessage : string) : list ChatMessage :=
  [ {| role := system; content := systemPrompt;
       tool_calls := None; tool_call_id := None |};
    {| role := user; content := userMessage;
       tool_calls := None; tool_call_id := None |} ].

(** The first statements of [execute] and [executeStream]. *)
Definition start (systemPrompt userMessage : string) (a : Agent) : Agent :=
  {| context := context a; cfg_maxToolRounds := cfg_maxToolRounds a;
     cfg_llmOptions := cfg_llmOptions a;
     messages := seedMessages systemPrompt userMessage;
     toolsUsed := []; toolRounds := 0; log := [] |}.

(** The combined effect of field updates: messages, tool names and actions
    appended, rounds added. *)
Definition extend (ms : list ChatMessage) (names : list string)
    (acts : list Action) (k : Z) (a : Agent) : Agent :=
  {| context := context a; cfg_maxToolRounds := cfg_maxToolRounds a;
     cfg_llmOptions := cfg_llmOptions a; messages := messages a ++ ms;
     toolsUsed := toolsUsed a ++ names; toolRounds := toolRounds a + k;
     log := log a ++ acts |}.

(** [{ ...options, tools }] *)
Definition with_tools (o : ChatOptions) (ts : list ToolDefinition) : ChatOptions :=
  {| temperature := temperature o; maxTokens := maxTokens o; tools := Some ts |}.

Definition result_of (content : string) (a : Agent) : AgentResult :=
  {| res_content := content; res_toolsUsed := toolsUsed a;
     res_toolRounds := toolRounds a |}.

Definition forcedFinishMessage : ChatMessage :=
  {| role := user;
     content := "请根据已获取的信息给出回答，不要再调用工具。";
     tool_calls := None; tool_call_id := None |}.

(** Object spread [{...v}]: the own enumerable properties of [v].  An array
    and a string spread into index-keyed properties (the characters of a
    string are its [ascii] elements here), other primitives into none. *)
Fixpoint indexed {A : Type} (i : nat) (xs : list A) : list (string * A) :=
  match xs with
  | [] => []
  | x :: xs' => (string_of_Z (Z.of_nat i), x) :: indexed (S i) xs'
  end.

Definition ownProps (v : Json) : list (string * Json) :=
  match v with
  | JObject props => props
  | JArray items => indexed 0 items
  | JString s =>
      indexed 0 (map (fun c => JString (String c EmptyString)) (list_ascii_of_string s))
  | _ => []
  end.

(** [{ ...props, k: v }]: an existing key keeps its place, a new one goes
    last. *)
Fixpoint set_prop (k : string) (v : Json) (props : list (string * Json))
    : list (string * Json) :=
  match props with
  | [] => [(k, v)]
  | (k', v') :: rest =>
      if String.eqb k' k then (k, v) :: rest else (k', v') :: set_prop k v rest
  end.

(** [props[k]] *)
Fixpoint get_prop (k : string) (props : list (string * Json)) : option Json :=
  match props with
  | [] => None
  | (k', v') :: rest => if String.eqb k' k then Some v' else get_prop k rest
  end.

Definition json_of_timeFilter (f : TimeFilter) : Json :=
  JObject [("startTs", JNumber (startTs f)); ("endTs", JNumber (endTs f))].

Definition truthy_string (s : option string) : bool :=
  match s with
  | Some s => negb (String.eqb s "")
  | None => false
  end.

Inductive RoundResult :=
| Continue
| Finish (r : AgentResult)
| Raise (e : JsError).

(** A run observed after a bounded number of passes through its loop: it
    has completed (returned or thrown), or it is still in the loop. *)
Inductive RunState :=
| Completed (a : Agent) (c : Completion AgentResult)
| Running (a : Agent).

Definition agentOf (r : RunState) : Agent :=
  match r with
  | Completed a _ => a
  | Running a => a
  end.

(** How the [for await] of a round in [executeStream] ends: by the [return]
    inside it, by the end of the chunks, or by a failure of the transport. *)
Inductive StreamEnd :=
| Returned (finalContent : string)
| Exhausted (accumulatedContent : string) (toolCalls : option (list ToolCall))
| Failed (e : JsError).

Section Run.

(** The collaborators.  The first argument of [chat] and [chatStream] is the
    number of model calls made before in the run, so that the model is free
    to answer the same request differently each time. *)
Variable chat : nat -> list ChatMessage -> ChatOptions -> Completion ChatResponse.
Variable chatStream : nat -> list ChatMessage -> ChatOptions -> ChatStream.
Variable getAllToolDefinitions : list ToolDefinition.
Variable executeToolCalls : list ToolCall -> ToolContext -> list ToolExecutionResult.
Variable JSON_parse : string -> option Json.
Variable JSON_stringify : Json -> string.
Variable getSystemPrompt : string.

(** The message pushed for [toolCalls[i]] and [results[i]]. *)
Definition toolMessage (tc : ToolCall) (result : ToolExecutionResult) : ChatMessage :=
  {| role := tool;
     content := match result with
                | ToolSuccess r => JSON_stringify r
                | ToolFailure e => "错误: " ++ e
                end;
     tool_calls := None;
     tool_call_id := Some (id tc) |}.

(** The chunk handed to [onChunk] for them. *)
Definition toolResultChunk (tc : ToolCall) (result : ToolExecutionResult)
    : AgentStreamChunk :=
  tool_result (name (function tc))
    match result with
    | ToolSuccess r => inl r
    | ToolFailure e => inr e
    end.

(** The message pushed ahead of the tool messages. *)
Definition assistantMessage (toolCalls : list ToolCall) : ChatMessage :=
  {| role := assistant; content := "";
     tool_calls := Some toolCalls; tool_call_id := None |}.

(** The error of reading [success] of [undefined]. *)
Definition missingResult : JsError :=
  TypeError "Cannot read properties of undefined (reading 'success')".

(** The loop of [handleToolCalls] over [toolCalls[i]] and [results[i]];
    reading [success] of a missing result throws. *)
Fixpoint appendToolResults (streaming : bool) (toolCalls : list ToolCall)
    (results : list ToolExecutionResult) (a : Agent) : Agent * Completion unit :=
  match toolCalls with
  | [] => (a, Return tt)
  | tc :: toolCalls' =>
      let a := push_toolUsed (name (function tc)) a in
      match results with
      | [] => (a, Throw missingResult)
      | result :: results' =>
          let a := if streaming then onChunk (toolResultChunk tc result) a else a in
          let a := push_message (toolMessage tc result) a in
          appendToolResults streaming toolCalls' results' a
      end
  end.

Definition handleToolCalls (streaming : bool) (toolCalls : list ToolCall)
    (a : Agent) : Agent * Completion unit :=
  let a := push_message (assistantMessage toolCalls) a in
  let a := record (Dispatch toolCalls) a in
  let results := executeToolCalls toolCalls (context a) in
  appendToolResults streaming toolCalls results a.

(** *** [execute] *)

(** One pass through the body of the [while] loop. *)
Definition executeRound (a : Agent) : Agent * RoundResult :=
  let options := with_tools (cfg_llmOptions a) getAllToolDefinitions in
  let n := modelCalls (log a) in
  let a := record (ModelCall (messages a) options) a in
  match chat n (messages a) options with
  | Throw e => (a, Raise e)
  | Return response =>
      match resp_tool_calls response with
      | Some toolCalls =>
          if String.eqb (resp_finishReason response) "tool_calls" then
            match handleToolCalls false toolCalls a with
            | (a, Throw e) => (a, Raise e)
            | (a, Return _) => (incr_toolRounds a, Continue)
            end
          else (a, Finish (result_of (resp_content response) a))
      | None => (a, Finish (result_of (resp_content response) a))
      end
  end.

(** After the loop: the extra user message and the last call. *)
Definition executeFinish (a : Agent) : Agent * Completion AgentResult :=
  let a := push_message forcedFinishMessage a in
  let n := modelCalls (log a) in
  let a := record (ModelCall (messages a) (cfg_llmOptions a)) a in
  match chat n (messages a) (cfg_llmOptions a) with
  | Throw e => (a, Throw e)
  | Return finalResponse => (a, Return (result_of (resp_content finalResponse) a))
  end.

(** The [while] loop; [fuel] bounds the passes through its body. *)
Fixpoint executeLoop (fuel : nat) (a : Agent) : RunState :=
  if toolRounds a <? cfg_maxToolRounds a then
    match fuel with
    | O => Running a
    | S fuel' =>
        match executeRound a with
        | (a', Continue) => executeLoop fuel' a'
        | (a', Finish r) => Completed a' (Return r)
        | (a', Raise e) => Completed a' (Throw e)
        end
    end
  else let (a', c) := executeFinish a in Completed a' c.

Definition execute (fuel : nat) (userMessage : string) (a : Agent) : RunState :=
  executeLoop fuel (start getSystemPrompt userMessage a).

(** *** [executeStream] *)

(** The [for await] over the chunks of a round of the loop. *)
Fixpoint consumeRound (chunks : list ChatStreamChunk) (failure : option JsError)
    (accumulatedContent : string) (toolCalls : option (list ToolCall))
    (a : Agent) : Agent * StreamEnd :=
  match chunks with
  | [] =>
      match failure with
      | Some e => (a, Failed e)
      | None => (a, Exhausted accumulatedContent toolCalls)
      end
  | chunk :: chunks' =>
      let '(accumulatedContent, a) :=
        if truthy_string (chunk_content chunk) then
          let c := match chunk_content chunk with Some c => c | None => "" end in
          ((accumulatedContent ++ c)%string, onChunk (content_chunk c) a)
        else (accumulatedContent, a) in
      let toolCalls :=
        match chunk_tool_calls chunk with
        | Some tcs => Some tcs
        | None => toolCalls
        end in
      if chunk_isFinished chunk then
        match chunk_finishReason chunk, toolCalls with
        | Some reason, Some _ =>
            if String.eqb reason "tool_calls"
            then consumeRound chunks' failure accumulatedContent toolCalls a
            else (onChunk done_chunk a, Returned accumulatedContent)
        | _, _ => (onChunk done_chunk a, Returned accumulatedContent)
        end
      else consumeRound chunks' failure accumulatedContent toolCalls a
  end.

(** The [toolParams] of a [tool_start] chunk. *)
Definition toolStartParams (context : ToolContext) (tc : ToolCall) : option Json :=
  let text := arguments (function tc) in
  match JSON_parse (if String.eqb text "" then "{}" else text) with
  | None => None
  | Some toolParams =>
      match timeFilter context with
      | Some f =>
          if String.eqb (name (function tc)) "search_messages"
             || String.eqb (name (function tc)) "get_recent_messages"
          then Some (JObject (set_prop "_timeFilter" (json_of_timeFilter f)
                                       (ownProps toolParams)))
          else Some toolParams
      | None => Some toolParams
      end
  end.

Definition toolStartChunk (context : ToolContext) (tc : ToolCall)
    : AgentStreamChunk :=
  tool_start (name (function tc)) (toolStartParams context tc).

(** The [for] loop over the tool calls ahead of [handleToolCalls]. *)
Definition announceToolCalls (toolCalls : list ToolCall) (a : Agent) : Agent :=
  fold_left
    (fun a tc => onChunk (toolStartChunk (context a) tc) a)
    toolCalls a.

(** One pass through the body of the [while] loop. *)
Definition streamRound (a : Agent) : Agent * RoundResult :=
  let options := with_tools (cfg_llmOptions a) getAllToolDefinitions in
  let n := modelCalls (log a) in
  let a := record (ModelCall (messages a) options) a in
  let s := chatStream n (messages a) options in
  match consumeRound (chunks s) (failure s) "" None a with
  | (a, Failed e) => (a, Raise e)
  | (a, Returned finalContent) => (a, Finish (result_of finalContent a))
  | (a, Exhausted _ toolCalls) =>
      match toolCalls with
      | Some (tc :: rest) =>
          let a := announceToolCalls (tc :: rest) a in
          match handleToolCalls true (tc :: rest) a with
          | (a, Throw e) => (a, Raise e)
          | (a, Return _) => (incr_toolRounds a, Continue)
          end
      | _ => (a, Continue)
      end
  end.

(** The [for await] of the last call, made without tools. *)
Fixpoint consumeFinal (chunks : list ChatStreamChunk) (failure : option JsError)
    (finalContent : string) (a : Agent) : Agent * Completion string :=
  match chunks with
  | [] =>
      match failure with
      | Some e => (a, Throw e)
      | None => (a, Return finalContent)
      end
  | chunk :: chunks' =>
      let '(finalContent, a) :=
        if truthy_string (chunk_content chunk) then
          let c := match chunk_content chunk with Some c => c | None => "" end in
          ((finalContent ++ c)%string, onChunk (content_chunk c) a)
        else (finalContent, a) in
      let a := if chunk_isFinished chunk then onChunk done_chunk a else a in
      consumeFinal chunks' failure finalContent a
  end.

Definition streamFinish (a : Agent) : Agent * Completion AgentResult :=
  let a := push_message forcedFinishMessage a in
  let n := modelCalls (log a) in
  let a := record (ModelCall (messages a) (cfg_llmOptions a)) a in
  let s := chatStream n (messages a) (cfg_llmOptions a) in
  match consumeFinal (chunks s) (failure s) "" a with
  | (a, Throw e) => (a, Throw e)
  | (a, Return finalContent) => (a, Return (result_of finalContent a))
  end.

Fixpoint streamLoop (fuel : nat) (a : Agent) : RunState :=
  if toolRounds a <? cfg_maxToolRounds a then
    match fuel with
    | O => Running a
    | S fuel' =>
        match streamRound a with
        | (a', Continue) => streamLoop fuel' a'
        | (a', Finish r) => Completed a' (Return r)
        | (a', Raise e) => Completed a' (Throw e)
        end
    end
  else let (a', c) := streamFinish a in Completed a' c.

Definition executeStream (fuel : nat) (userMessage : string) (a : Agent) : RunState :=
  streamLoop fuel (start getSystemPrompt userMessage a).

(** The messages and the chunks of one call of [handleToolCalls]. *)
Definition toolMessages (toolCalls : list ToolCall)
    (results : list ToolExecutionResult) : list ChatMessage :=
  map (fun p => toolMessage (fst p) (snd p)) (combine toolCalls results).

Definition toolResultChunks (toolCalls : list ToolCall)
    (results : list ToolExecutionResult) : list Action :=
  map (fun p => Emit (toolResultChunk (fst p) (snd p))) (combine toolCalls results).

Definition roundMessages (context : ToolContext) (toolCalls : list ToolCall)
    : list ChatMessage :=
  assistantMessage toolCalls
    :: toolMessages toolCalls (executeToolCalls toolCalls context).

(** What one pass through a loop may append to the history: nothing, or an
    assistant message with the tool messages that answer it. *)
Definition roundShape (ms : list ChatMessage) : Prop :=
  ms = [] \/ exists tcs rs, ms = assistantMessage tcs :: toolMessages tcs rs.

End Run.

(** *** Notions the properties are stated with *)

Definition toolName (tc : ToolCall) : string := name (function tc).

Definition isDispatch (a : Action) : bool :=
  match a with Dispatch _ => true | _ => false end.

Definition isEmit (a : Action) : bool :=
  match a with Emit _ => true | _ => false end.

(** The calls of a log (model and dispatcher), without the chunks. *)
Definition callsOf (log : list Action) : list Action :=
  filter (fun a => negb (isEmit a)) log.

(** The chunks of a log, as [onChunk] received them. *)
Fixpoint chunksOf (log : list Action) : list AgentStreamChunk :=
  match log with
  | [] => []
  | Emit c :: log' => c :: chunksOf log'
  | _ :: log' => chunksOf log'
  end.

(** The text a chunk sequence carries. *)
Fixpoint streamedText (cs : list ChatStreamChunk) : string :=
  match cs with
  | [] => ""
  | c :: cs' =>
      match chunk_content c with
      | Some t => (t ++ streamedText cs')%string
      | None => streamedText cs'
      end
  end.

(** A stream that carries a tool-call decision: unfinished chunks, then a
    final chunk with the requests and the finish reason 'tool_calls'. *)
Definition toolDecision (s : ChatStream) (toolCalls : list ToolCall) : Prop :=
  failure s = None /\
  exists pre last,
    chunks s = (pre ++ [last])%list /\
    Forall (fun c => chunk_isFinished c = false) pre /\
    chunk_isFinished last = true /\
    chunk_finishReason last = Some "tool_calls" /\
    chunk_tool_calls last = Some toolCalls /\
    toolCalls <> [].

(** A stream that carries a final answer: unfinished chunks, then a
    finished chunk whose finish reason is not 'tool_calls'; what follows it
    is not read. *)
Definition finalAnswer (s : ChatStream) : Prop :=
  exists pre last rest,
    chunks s = pre ++ last :: rest /\
    Forall (fun c => chunk_isFinished c = false) pre /\
    chunk_isFinished last = true /\
    chunk_finishReason last <> Some "tool_calls".

(** Every tool message answers the nearest assistant message before it:
    only tool messages lie between the two, the assistant message has empty
    text, and its requests include the id the tool message carries. *)
Definition answered (h : list ChatMessage) : Prop :=
  forall i m,
    nth_error h i = Some m -> role m = tool ->
    exists j a tcs tc,
      (j < i)%nat /\ nth_error h j = Some a /\
      role a = assistant /\ content a = "" /\ tool_calls a = Some tcs /\
      (forall k mk, (j < k < i)%nat -> nth_error h k = Some mk -> role mk = tool) /\
      In tc tcs /\ tool_call_id m = Some (id tc).

(** One list extends another at its end. *)
Definition extends {A : Type} (l l' : list A) : Prop :=
  exists more, l' = (l ++ more)%list.

End Agent.

(** ** Collaborators and inputs the properties are exercised on *)
Module Scenarios.

Import Tools Agent.

(** A host eight hours ahead of UTC all year. *)
Definition utc8 : Z -> Z := fun _ => 28800000.

Definition plainContext : ToolContext :=
  {| sessionId := "session-1"; timeFilter := None |}.

Definition january2024 : TimeFilter :=
  {| startTs := 1704038400; endTs := 1706716799 |}.

Definition filteredContext : ToolContext :=
  {| sessionId := "session-1"; timeFilter := Some january2024 |}.

Definition searchCall : ToolCall :=
  {| id := "call_1";
     function := {| name := "search_messages"; arguments := "{}" |} |}.

(** A model that asks for a tool in every response, with no text. *)
Definition alwaysTools (n : nat) (h : list ChatMessage) (o : ChatOptions)
    : Completion ChatResponse :=
  Return {| resp_content := ""; resp_finishReason := "tool_calls";
            resp_tool_calls := Some [searchCall] |}.

(** A model that asks for a tool while tools are advertised and answers in
    text otherwise. *)
Definition toolsThenText (n : nat) (h : list ChatMessage) (o : ChatOptions)
    : Completion ChatResponse :=
  match tools o with
  | Some _ => Return {| resp_content := ""; resp_finishReason := "tool_calls";
                        resp_tool_calls := Some [searchCall] |}
  | None => Return {| resp_content := "summary"; resp_finishReason := "stop";
                      resp_tool_calls := None |}
  end.

Definition decisionChunk (tcs : list ToolCall) : ChatStreamChunk :=
  {| chunk_content := None; chunk_tool_calls := Some tcs;
     chunk_isFinished := true; chunk_finishReason := Some "tool_calls" |}.

Definition textChunk (t : string) : ChatStreamChunk :=
  {| chunk_content := Some t; chunk_tool_calls := None;
     chunk_isFinished := false; chunk_finishReason := None |}.

Definition stopChunk : ChatStreamChunk :=
  {| chunk_content := None; chunk_tool_calls := None;
     chunk_isFinished := true; chunk_finishReason := Some "stop" |}.

(** Streams: a final chunk with an empty list of tool calls; text with no
    final chunk; a tool call while tools are advertised, text otherwise. *)
Definition emptyDecisionStream (n : nat) (h : list ChatMessage) (o : ChatOptions)
    : ChatStream :=
  {| chunks := [decisionChunk []]; failure := None |}.

Definition unmarkedStream (n : nat) (h : list ChatMessage) (o : ChatOptions)
    : ChatStream :=
  {| chunks := [textChunk "thinking"]; failure := None |}.

Definition toolsThenTextStream (n : nat) (h : list ChatMessage) (o : ChatOptions)
    : ChatStream :=
  match tools o with
  | Some _ => {| chunks := [decisionChunk [searchCall]]; failure := None |}
  | None => {| chunks := [textChunk "summary"; stopChunk]; failure := None |}
  end.

(** The two streaming scenarios of the design (section 8): the text "Hi" in
    one final chunk; a tool call in the first round and text in the second. *)
Definition hiStream (n : nat) (h : list ChatMessage) (o : ChatOptions)
    : ChatStream :=
  {| chunks := [ {| chunk_content := Some "Hi"; chunk_tool_calls := None;
                    chunk_isFinished := true;
                    chunk_finishReason := Some "stop" |} ];
     failure := None |}.

Definition oneToolStream (n : nat) (h : list ChatMessage) (o : ChatOptions)
    : ChatStream :=
  match n with
  | O => {| chunks := [decisionChunk [searchCall]]; failure := None |}
  | S _ => {| chunks := [ {| chunk_content := Some "Done"; chunk_tool_calls := None;
                             chunk_isFinished := true;
                             chunk_finishReason := Some "stop" |} ];
              failure := None |}
  end.

Definition silentStream (n : nat) (h : list ChatMessage) (o : ChatOptions)
    : ChatStream :=
  {| chunks := []; failure := None |}.

(** A dispatcher whose every call fails. *)
Definition failingDispatcher (tcs : list ToolCall) (c : ToolContext)
    : list ToolExecutionResult :=
  map (fun tc => ToolFailure ("unknown tool " ++ name (function tc))) tcs.

Definition parseObjects (text : string) : option Json :=
  if String.eqb text "{}" then Some (JObject []) else None.

Definition stringifyNull (v : Json) : string := "null".

Definition twoRounds : AgentConfig :=
  {| maxToolRounds := Some 2; llmOptions := None |}.

Definition noHours (s : string) (f : option TimeFilter) : list HourlyActivity := [].
Definition noWeekdays (s : string) (f : option TimeFilter) : list WeekdayActivity := [].
Definition noDays (s : string) (f : option TimeFilter) : list DailyActivity := [].

End Scenarios.

(** ** The member-statistics tool, the entry points, further notions *)
Module More.

Import Tools Agent.

(** Rows of [workerManager.getMemberActivity] and the reply of the tool. *)
Record MemberActivity := {
  ma_name : string;
  ma_messageCount : Z;
  ma_percentage : Q
}.

Record RankedMember := {
  rank : Z;
  rm_name : string;
  rm_messageCount : Z;
  rm_percentage : string
}.

Record MemberStatsReply := {
  totalMembers : Z;
  topMembers : list RankedMember
}.

(** [a.slice(0, e)]: a negative [e] counts from the end, an [e] beyond the
    length stops at the length. *)
Definition slice_to {A : Type} (e : Z) (a : list A) : list A :=
  if e <? 0 then firstn (Z.to_nat (Z.of_nat (List.length a) + e)) a
  else firstn (Z.to_nat e) a.

(** [a.map((x, index) => f x index)], counting from [index]. *)
Fixpoint map_indexed {A B : Type} (f : A -> Z -> B) (index : Z) (a : list A)
    : list B :=
  match a with
  | [] => []
  | x :: a' => f x index :: map_indexed f (index + 1) a'
  end.

Section MemberStats.

Variable getMemberActivity : string -> option TimeFilter -> list MemberActivity.

(** Number-to-string conversion of a percentage, which may be a fraction. *)
Variable numberToString : Q -> string.

Definition getMemberStatsExecutor (top_n : option Z) (context : ToolContext)
    : MemberStatsReply :=
  let topN := or_default top_n 10 in
  let result := getMemberActivity (sessionId context) (timeFilter context) in
  let topMembers := slice_to topN result in
  {| totalMembers := Z.of_nat (List.length result);
     topMembers :=
       map_indexed
         (fun m index =>
            {| rank := index + 1; rm_name := ma_name m;
               rm_messageCount := ma_messageCount m;
               rm_percentage := (numberToString (ma_percentage m) ++ "%")%string |})
         0 topMembers |}.

End MemberStats.

Section EntryPoints.

Variable chat : nat -> list ChatMessage -> ChatOptions -> Completion ChatResponse.
Variable chatStream : nat -> list ChatMessage -> ChatOptions -> ChatStream.
Variable getAllToolDefinitions : list ToolDefinition.
Variable executeToolCalls : list ToolCall -> ToolContext -> list ToolExecutionResult.
Variable JSON_parse : string -> option Json.
Variable JSON_stringify : Json -> string.
Variable getSystemPrompt : string.

(** [runAgent(userMessage, context, config)] *)
Definition runAgent (fuel : nat) (userMessage : string) (context : ToolContext)
    (config : AgentConfig) : RunState :=
  execute chat getAllToolDefinitions executeToolCalls JSON_stringify
    getSystemPrompt fuel userMessage (new_Agent context config).

(** [runAgentStream(userMessage, context, onChunk, config)] *)
Definition runAgentStream (fuel : nat) (userMessage : string)
    (context : ToolContext) (config : AgentConfig) : RunState :=
  executeStream chatStream getAllToolDefinitions executeToolCalls JSON_parse
    JSON_stringify getSystemPrompt fuel userMessage (new_Agent context config).

(** The calls of a well-formed log, read from its start with the batches of
    tool calls [seen] so far: every model call passes the seed followed by
    the messages of the batches dispatched before it, with the tools
    advertised, or the same followed by the message of the forced finish,
    with the configured options. *)
Fixpoint wellFormedCalls (seed : list ChatMessage) (context : ToolContext)
    (advertised final : ChatOptions) (seen : list (list ToolCall))
    (log : list Action) : Prop :=
  match log with
  | [] => True
  | ModelCall h o :: log' =>
      let sofar :=
        seed ++ flat_map (roundMessages executeToolCalls JSON_stringify context) seen in
      ((h = sofar /\ o = advertised) \/
       (h = sofar ++ [forcedFinishMessage] /\ o = final)) /\
      wellFormedCalls seed context advertised final seen log'
  | Dispatch tcs :: log' =>
      wellFormedCalls seed context advertised final (seen ++ [tcs]) log'
  | Emit _ :: log' => wellFormedCalls seed context advertised final seen log'
  end.

End EntryPoints.

(** The batches of tool calls a log dispatched, in order. *)
Fixpoint dispatched (log : list Action) : list (list ToolCall) :=
  match log with
  | [] => []
  | Dispatch tcs :: log' => tcs :: dispatched log'
  | _ :: log' => dispatched log'
  end.

(** The text of the content chunks among chunks. *)
Fixpoint textOf (cs : list AgentStreamChunk) : string :=
  match cs with
  | [] => ""
  | content_chunk t :: cs' => (t ++ textOf cs')%string
  | _ :: cs' => textOf cs'
  end.

Definition isDone (c : AgentStreamChunk) : bool :=
  match c with done_chunk => true | _ => false end.

(** A chunk the agent may hand to [onChunk]: no error chunk, no content
    chunk with empty text. *)
Definition regularChunk (c : AgentStreamChunk) : Prop :=
  match c with
  | content_chunk t => t <> ""
  | error_chunk _ => False
  | _ => True
  end.

(** Chunks that are all content chunks with text. *)
Definition textChunks (cks : list AgentStreamChunk) : Prop :=
  Forall (fun c => exists t, c = content_chunk t /\ t <> "") cks.

(** The tool names of batches of tool calls, in order. *)
Definition namesOf (batches : list (list ToolCall)) : list string :=
  flat_map (map toolName) batches.

(** The outcome [x] of a pass that did not throw counts, in the rounds [k]
    it adds and the tool names it adds, the batches of tool calls among the
    actions of the pass. *)
Definition accounted (x : RoundResult) (k : Z) (names : list string)
    (rest : list Action) : Prop :=
  (exists e, x = Raise e) \/
  (k = Z.of_nat (List.length (dispatched rest)) /\ names = namesOf (dispatched rest)).

(** The decision retained from a chunk sequence: that of the last chunk
    which carries one. *)
Definition lastDecision (cs : list ChatStreamChunk)
    (before : option (list ToolCall)) : option (list ToolCall) :=
  fold_left
    (fun d c => match chunk_tool_calls c with Some t => Some t | None => d end)
    cs before.

(** Reading the stream of a round, the [for await] goes on after the chunk
    [c] that follows the chunks [pre]: when [c] is finished, its finish
    reason is 'tool_calls' and a list of tool calls has been retained by
    then. *)
Definition goesOn (pre : list ChatStreamChunk) (c : ChatStreamChunk) : Prop :=
  chunk_isFinished c = true ->
  chunk_finishReason c = Some "tool_calls" /\
  lastDecision (pre ++ [c]) None <> None.

(** A stream that leaves a round with the tool calls [toolCalls]: the
    transport does not fail, the [for await] goes on after every chunk, and
    the list retained at the end is [toolCalls], which is not empty. *)
Definition streamDecides (s : ChatStream) (toolCalls : list ToolCall) : Prop :=
  failure s = None /\
  (forall pre c post, chunks s = pre ++ c :: post -> goesOn pre c) /\
  lastDecision (chunks s) None = Some toolCalls /\
  toolCalls <> [].

(** A stream in which a round finds its answer: the [for await] goes on
    after the chunks [pre] and returns at the finished chunk [c], whose
    finish reason is not 'tool_calls' or which comes before any list of tool
    calls; what follows [c] is not read. *)
Definition streamAnswers (s : ChatStream) : Prop :=
  exists pre c post,
    chunks s = pre ++ c :: post /\
    (forall pre' c' post', pre = pre' ++ c' :: post' -> goesOn pre' c') /\
    chunk_isFinished c = true /\
    (chunk_finishReason c <> Some "tool_calls" \/
     lastDecision (pre ++ [c]) None = None).

(** Sum of a list of numbers. *)
Definition sumZ (l : list Z) : Z := fold_right Z.add 0 l.

(** The actions of a log that follow its last model call. *)
Definition sinceLastCall (log : list Action) : list Action :=
  fold_left (fun acc act => if isModelCall act then [] else acc ++ [act]) log [].

(** The number of done chunks among chunks. *)
Definition doneChunks (cks : list AgentStreamChunk) : nat :=
  List.length (filter isDone cks).

End More.

(** ** Further inputs the properties are exercised on *)
Module MoreScenarios.

Import Tools Agent More Scenarios.

Definition sampleHours (s : string) (f : option TimeFilter) : list HourlyActivity :=
  [ {| hour := 9; h_messageCount := 12 |};
    {| hour := 13; h_messageCount := 40 |};
    {| hour := 21; h_messageCount := 40 |} ].

Definition sampleWeekdays (s : string) (f : option TimeFilter)
    : list WeekdayActivity :=
  [ {| weekday := 1; w_messageCount := 5 |};
    {| weekday := 6; w_messageCount := 30 |} ].

Definition sampleDays (s : string) (f : option TimeFilter) : list DailyActivity :=
  [ {| date := "2024-02-01"; d_messageCount := 3 |};
    {| date := "2024-02-02"; d_messageCount := 4 |} ].

Definition sampleMembers (s : string) (f : option TimeFilter)
    : list MemberActivity :=
  [ {| ma_name := "Ann"; ma_messageCount := 60; ma_percentage := (60 # 1)%Q |};
    {| ma_name := "Bo"; ma_messageCount := 30; ma_percentage := (30 # 1)%Q |};
    {| ma_name := "Cy"; ma_messageCount := 10; ma_percentage := (10 # 1)%Q |} ].

Definition showPercentage (q : Q) : string := string_of_Z (Qnum q / Z.pos (Qden q)).

(** A model that answers in text at once. *)
Definition answersAtOnce (n : nat) (h : list ChatMessage) (o : ChatOptions)
    : Completion ChatResponse :=
  Return {| resp_content := "Hi"; resp_finishReason := "stop";
            resp_tool_calls := None |}.

(** A transport that fails on every call. *)
Definition offline (n : nat) (h : list ChatMessage) (o : ChatOptions)
    : Completion ChatResponse :=
  Throw (TransportError "network unreachable").

(** A stream that fails after one text chunk. *)
Definition brokenStream (n : nat) (h : list ChatMessage) (o : ChatOptions)
    : ChatStream :=
  {| chunks := [textChunk "Hel"]; failure := Some (TransportError "reset") |}.

(** A dispatcher that answers only the first request. *)
Definition lazyDispatcher (tcs : list ToolCall) (c : ToolContext)
    : list ToolExecutionResult :=
  match tcs with
  | [] => []
  | _ :: _ => [ToolSuccess JNull]
  end.

Definition memberCall : ToolCall :=
  {| id := "call_2";
     function := {| name := "get_member_stats"; arguments := "{}" |} |}.

Definition noRounds : AgentConfig :=
  {| maxToolRounds := Some 0; llmOptions := None |}.

(** A stream that comments on its first tool call and answers in the
    second round. *)
Definition thinkingAloudStream (n : nat) (h : list ChatMessage) (o : ChatOptions)
    : ChatStream :=
  match n with
  | O => {| chunks := [textChunk "Let me look. "; decisionChunk [searchCall]];
            failure := None |}
  | S _ => {| chunks := [ {| chunk_content := Some "Done"; chunk_tool_calls := None;
                             chunk_isFinished := true;
                             chunk_finishReason := Some "stop" |} ];
              failure := None |}
  end.

(** A stream whose chunks carry two lists of tool calls, one after the
    other. *)
Definition revisedDecisionStream (n : nat) (h : list ChatMessage)
    (o : ChatOptions) : ChatStream :=
  {| chunks := [ {| chunk_content := None; chunk_tool_calls := Some [searchCall];
                    chunk_isFinished := false; chunk_finishReason := None |};
                 decisionChunk [memberCall] ];
     failure := None |}.

(** A last stream with two finished chunks and a list of tool calls. *)
Definition twiceFinishedStream (n : nat) (h : list ChatMessage) (o : ChatOptions)
    : ChatStream :=
  {| chunks := [ {| chunk_content := Some "All "; chunk_tool_calls := None;
                    chunk_isFinished := true;
                    chunk_finishReason := Some "stop" |};
                 {| chunk_content := Some "told"; chunk_tool_calls := Some [searchCall];
                    chunk_isFinished := true;
                    chunk_finishReason := Some "tool_calls" |} ];
     failure := None |}.

(** A maximum of tool rounds below zero. *)
Definition negativeRounds : AgentConfig :=
  {| maxToolRounds := Some (-1); llmOptions := None |}.

(** Options of a configuration that themselves list a tool. *)
Definition searchOnly : ToolDefinition :=
  {| td_name := "search_messages"; td_description := "search the messages";
     td_parameters := JObject [] |}.

Definition tooledOptions : ChatOptions :=
  {| temperature := Some (2 # 10)%Q; maxTokens := Some 512;
     tools := Some [searchOnly] |}.

Definition twoRoundsTooled : AgentConfig :=
  {| maxToolRounds := Some 2; llmOptions := Some tooledOptions |}.

Definition noRoundsTooled : AgentConfig :=
  {| maxToolRounds := Some 0; llmOptions := Some tooledOptions |}.

(** The quotation mark, and the text of the arguments
    [{'keywords':['lunch'],'limit':5}] with quotation marks for the
    apostrophes. *)
Definition quote : string := String (Ascii.ascii_of_nat 34) EmptyString.

Definition lunchArguments : string :=
  ("{" ++ quote ++ "keywords" ++ quote ++ ":[" ++ quote ++ "lunch" ++ quote
   ++ "]," ++ quote ++ "limit" ++ quote ++ ":5}")%string.

Definition lunchCall : ToolCall :=
  {| id := "call_3";
     function := {| name := "search_messages"; arguments := lunchArguments |} |}.

Definition recentCall : ToolCall :=
  {| id := "call_4";
     function := {| name := "get_recent_messages"; arguments := "" |} |}.

Definition garbledCall : ToolCall :=
  {| id := "call_5";
     function := {| name := "get_time_stats"; arguments := "{type:" |} |}.

(** [JSON.parse] on the texts above. *)
Definition parseArguments (text : string) : option Json :=
  if String.eqb text "{}" then Some (JObject [])
  else if String.eqb text lunchArguments
  then Some (JObject [("keywords", JArray [JString "lunch"]);
                      ("limit", JNumber 5)])
  else None.

(** A stream that asks for four tools at once. *)
Definition fourToolsStream (n : nat) (h : list ChatMessage) (o : ChatOptions)
    : ChatStream :=
  {| chunks := [decisionChunk [lunchCall; recentCall; memberCall; garbledCall]];
     failure := None |}.

(** A model that asks for a tool in its first two responses and answers in
    text from then on, whatever options it is called with. *)
Definition toolsTwiceThenText (n : nat) (h : list ChatMessage) (o : ChatOptions)
    : Completion ChatResponse :=
  match n with
  | O | S O => Return {| resp_content := ""; resp_finishReason := "tool_calls";
                         resp_tool_calls := Some [searchCall] |}
  | _ => Return {| resp_content := "summary"; resp_finishReason := "stop";
                   resp_tool_calls := None |}
  end.

(** The same as a stream, the tool calls arriving before the final chunk,
    which carries the finish reason alone. *)
Definition earlyDecisionStream (n : nat) (h : list ChatMessage) (o : ChatOptions)
    : ChatStream :=
  match n with
  | O | S O =>
      {| chunks := [ {| chunk_content := None; chunk_tool_calls := Some [searchCall];
                        chunk_isFinished := false; chunk_finishReason := None |};
                     {| chunk_content := None; chunk_tool_calls := None;
                        chunk_isFinished := true;
                        chunk_finishReason := Some "tool_calls" |} ];
         failure := None |}
  | _ => {| chunks := [textChunk "summary"; stopChunk]; failure := None |}
  end.

(** A model that asks for a tool once and whose transport then fails. *)
Definition failsAfterTool (n : nat) (h : list ChatMessage) (o : ChatOptions)
    : Completion ChatResponse :=
  match n with
  | O => Return {| resp_content := ""; resp_finishReason := "tool_calls";
                   resp_tool_calls := Some [searchCall] |}
  | S _ => Throw (TransportError "network unreachable")
  end.

(** A stream that asks for a tool once and from then on ends each round on
    a final chunk with an empty list of tool calls. *)
Definition emptyAfterToolStream (n : nat) (h : list ChatMessage) (o : ChatOptions)
    : ChatStream :=
  match n with
  | O => {| chunks := [decisionChunk [searchCall]]; failure := None |}
  | S _ => {| chunks := [decisionChunk []]; failure := None |}
  end.

End MoreScenarios.

(* ================================================================== *)
(** * Properties *)

(** ** Calendar arithmetic of the Date object *)
Module DateProofs.

Import JsDate.

Lemma isLeapYear_spec y :
  isLeapYear y = true <-> (y mod 4 = 0 /\ (y mod 100 <> 0 \/ y mod 400 = 0)).
Proof.
  unfold isLeapYear.
  rewrite andb_true_iff, orb_true_iff, negb_true_iff, !Z.eqb_eq, Z.eqb_neq.
  tauto.
Qed.

Lemma DayFromYear_step y : DayFromYear (y + 1) = DayFromYear y + DaysInYear y.
Proof.
  unfold DayFromYear, DaysInYear.
  destruct (isLeapYear y) eqn:E.
  - apply isLeapYear_spec in E. Z.div_mod_to_equations. lia.
  - assert (H : ~ (y mod 4 = 0 /\ (y mod 100 <> 0 \/ y mod 400 = 0))).
    { rewrite <- isLeapYear_spec. congruence. }
    Z.div_mod_to_equations. lia.
Qed.

Lemma YearFromTime_unique t y :
  DayFromYear y <= Day t < DayFromYear (y + 1) -> YearFromTime t = y.
Proof.
  unfold YearFromTime. set (d := Day t). clearbody d.
  set (c := 1970 + 400 * d / 146097).
  intros H.
  assert (Hc : y - 1 <= c <= y + 1).
  { subst c. unfold DayFromYear in H. Z.div_mod_to_equations. lia. }
  assert (Hm : forall a b, a <= b -> DayFromYear a <= DayFromYear b).
  { intros a b Hab. unfold DayFromYear. Z.div_mod_to_equations. lia. }
  assert (Hs : forall a b, DayFromYear a < DayFromYear b -> a < b).
  { intros a b Hab. destruct (Z.lt_ge_cases a b) as [|Hge]; [assumption|].
    apply Hm in Hge. lia. }
  clearbody c.
  assert (c = y - 1 \/ c = y \/ c = y + 1) as [-> | [-> | ->]] by lia.
  - replace (y - 1 + 1) with y by lia.
    destruct (DayFromYear y <=? d) eqn:E1; [reflexivity|]. apply Z.leb_gt in E1. lia.
  - destruct (DayFromYear (y + 1) <=? d) eqn:E1; [apply Z.leb_le in E1; lia|].
    destruct (DayFromYear y <=? d) eqn:E2; [reflexivity|]. apply Z.leb_gt in E2. lia.
  - destruct (DayFromYear (y + 1 + 1) <=? d) eqn:E1.
    { apply Z.leb_le in E1. pose proof (Hm (y+1) (y+1+1) ltac:(lia)). lia. }
    destruct (DayFromYear (y + 1) <=? d) eqn:E2; [apply Z.leb_le in E2; lia|]. lia.
Qed.

Lemma Day_MakeDate d tod : 0 <= tod < msPerDay -> Day (MakeDate d tod) = d.
Proof.
  unfold Day, MakeDate, msPerDay. intros H. Z.div_mod_to_equations. lia.
Qed.

Lemma month_cases mn : 0 <= mn <= 11 ->
  mn = 0 \/ mn = 1 \/ mn = 2 \/ mn = 3 \/ mn = 4 \/ mn = 5 \/ mn = 6 \/
  mn = 7 \/ mn = 8 \/ mn = 9 \/ mn = 10 \/ mn = 11.
Proof. lia. Qed.

Ltac each_month H mn :=
  apply month_cases in H;
  repeat (destruct H as [H | H]); subst mn.

Lemma MakeDay_in_year Y mn dt :
  0 <= mn <= 11 -> 1 <= dt <= DaysInMonth Y mn ->
  DayFromYear Y <= MakeDay Y mn dt < DayFromYear (Y + 1).
Proof.
  intros Hm Hd. rewrite DayFromYear_step. unfold MakeDay, DaysInYear.
  replace (mn / 12) with 0 by (Z.div_mod_to_equations; lia).
  replace (mn mod 12) with mn by (Z.div_mod_to_equations; lia).
  rewrite Z.add_0_r.
  each_month Hm mn; unfold DaysInMonth in Hd; cbn [monthStart];
    destruct (isLeapYear Y); lia.
Qed.

Lemma civil_MakeDate Y mn dt h mi s :
  0 <= mn <= 11 -> 1 <= dt <= DaysInMonth Y mn ->
  0 <= h <= 23 -> 0 <= mi <= 59 -> 0 <= s <= 59 ->
  civil (MakeDate (MakeDay Y mn dt) (MakeTime h mi s 0)) =
  {| c_year := Y; c_month := mn; c_date := dt;
     c_hours := h; c_minutes := mi; c_seconds := s; c_ms := 0 |}.
Proof.
  intros Hm Hd Hh Hmi Hs.
  set (t := MakeDate (MakeDay Y mn dt) (MakeTime h mi s 0)).
  assert (Htod : 0 <= MakeTime h mi s 0 < msPerDay).
  { unfold MakeTime, msPerHour, msPerMinute, msPerSecond, msPerDay. lia. }
  assert (HD : Day t = MakeDay Y mn dt) by (apply Day_MakeDate; exact Htod).
  assert (HY : YearFromTime t = Y).
  { apply YearFromTime_unique. rewrite HD. apply MakeDay_in_year; assumption. }
  assert (HW : DayWithinYear t =
               monthStart mn (if isLeapYear Y then 1 else 0) + dt - 1).
  { unfold DayWithinYear. rewrite HD, HY. unfold MakeDay.
    replace (mn / 12) with 0 by (Z.div_mod_to_equations; lia).
    replace (mn mod 12) with mn by (Z.div_mod_to_equations; lia).
    rewrite (Z.add_0_r Y). lia. }
  assert (HM : MonthFromTime t = mn).
  { unfold MonthFromTime, InLeapYear. rewrite HW, HY.
    each_month Hm mn; unfold DaysInMonth in Hd; cbn [monthStart];
      destruct (isLeapYear Y);
      repeat match goal with
             | |- context [?a <? ?b] =>
                 destruct (Z.ltb_spec a b); try lia
             end; reflexivity. }
  assert (HDt : DateFromTime t = dt).
  { unfold DateFromTime, InLeapYear. rewrite HM, HW, HY. lia. }
  unfold civil. rewrite HY, HM, HDt. clear HD HY HW HM HDt. subst t. f_equal.
  - unfold HourFromTime, MakeDate, MakeTime, msPerHour, msPerMinute,
      msPerSecond, msPerDay. Z.div_mod_to_equations. lia.
  - unfold MinFromTime, MakeDate, MakeTime, msPerHour, msPerMinute,
      msPerSecond, msPerDay. Z.div_mod_to_equations. lia.
  - unfold SecFromTime, MakeDate, MakeTime, msPerHour, msPerMinute,
      msPerSecond, msPerDay. Z.div_mod_to_equations. lia.
  - unfold msFromTime, MakeDate, MakeTime, msPerHour, msPerMinute,
      msPerSecond, msPerDay. Z.div_mod_to_equations. lia.
Qed.

Ltac pred_consts :=
  repeat match goal with
         | |- context [Z.pos ?p - 1] =>
             let v := eval compute in (Z.pos p - 1) in
             change (Z.pos p - 1) with v
         end.

(** Day 0 of the following month is the last day of the month. *)
Lemma MakeDay_day_zero Y m :
  1 <= m <= 12 -> MakeDay Y m 0 = MakeDay Y (m - 1) (DaysInMonth Y (m - 1)).
Proof.
  intros Hm.
  assert (Hc : m = 12 \/ 0 <= m <= 11) by lia.
  destruct Hc as [-> | Hc].
  - unfold MakeDay. pred_consts.
    change (12 / 12) with 1. change (12 mod 12) with 0.
    change (11 / 12) with 0. change (11 mod 12) with 11.
    rewrite DayFromYear_step. rewrite (Z.add_0_r Y). unfold DaysInYear.
    cbn [monthStart DaysInMonth].
    destruct (isLeapYear Y); destruct (isLeapYear (Y + 1)); lia.
  - unfold MakeDay.
    replace (m / 12) with 0 by (Z.div_mod_to_equations; lia).
    replace (m mod 12) with m by (Z.div_mod_to_equations; lia).
    replace ((m - 1) / 12) with 0 by (Z.div_mod_to_equations; lia).
    replace ((m - 1) mod 12) with (m - 1) by (Z.div_mod_to_equations; lia).
    rewrite (Z.add_0_r Y).
    each_month Hc m; try lia; pred_consts; cbn [monthStart DaysInMonth];
      destruct (isLeapYear Y); lia.
Qed.

End DateProofs.

(** ** The query tools *)
Module ToolProofs.

Import JsDate Tools DateProofs.

Section Filters.

Variable LocalTZA : Z -> Z.

Lemma searchFilter_eq kws lim ctx year month :
  searchFilter LocalTZA kws lim ctx year month =
  effectiveTimeFilter LocalTZA year month (timeFilter ctx).
Proof. reflexivity. Qed.

Lemma recentFilter_eq lim ctx year month :
  recentFilter LocalTZA lim ctx year month =
  effectiveTimeFilter LocalTZA year month (timeFilter ctx).
Proof. reflexivity. Qed.

Lemma effective_year_only y f :
  y <> 0 ->
  effectiveTimeFilter LocalTZA (Some y) None f =
  window LocalTZA (localTime y 0 1 0 0 0) (localTime y 11 31 23 59 59).
Proof.
  intros Hy. unfold effectiveTimeFilter, truthy.
  destruct (Z.eqb_spec y 0) as [|_]; [contradiction|].
  reflexivity.
Qed.

Lemma effective_month_zero y f :
  effectiveTimeFilter LocalTZA (Some y) (Some 0) f =
  effectiveTimeFilter LocalTZA (Some y) None f.
Proof. reflexivity. Qed.

Lemma effective_year_month y m f :
  y <> 0 -> m <> 0 ->
  effectiveTimeFilter LocalTZA (Some y) (Some m) f =
  window LocalTZA (localTime y (m - 1) 1 0 0 0) (localTime y m 0 23 59 59).
Proof.
  intros Hy Hm. unfold effectiveTimeFilter, truthy.
  destruct (Z.eqb_spec y 0) as [|_]; [contradiction|].
  destruct (Z.eqb_spec m 0) as [|_]; [contradiction|].
  reflexivity.
Qed.

Lemma effective_falsy_year year month f :
  year = None \/ year = Some 0 ->
  effectiveTimeFilter LocalTZA year month f = f.
Proof. intros [-> | ->]; reflexivity. Qed.

(** The year window reads as 1 January 00:00:00 to 31 December 23:59:59. *)
Lemma year_window_civil y :
  civil (localTime y 0 1 0 0 0) = ymd_hms (MakeFullYear y) 1 1 0 0 0 /\
  civil (localTime y 11 31 23 59 59) = ymd_hms (MakeFullYear y) 12 31 23 59 59.
Proof.
  unfold localTime, ymd_hms. split.
  - apply (civil_MakeDate (MakeFullYear y) 0 1 0 0 0); cbn; lia.
  - apply (civil_MakeDate (MakeFullYear y) 11 31 23 59 59); cbn; lia.
Qed.

Lemma DaysInMonth_pos Y mn : 28 <= DaysInMonth Y mn <= 31.
Proof.
  unfold DaysInMonth.
  destruct mn as [|p|p]; try lia.
  destruct (isLeapYear Y);
    repeat (destruct p as [p|p|]; try lia).
Qed.

(** The month window reads as the first of the month 00:00:00 to its last
    day 23:59:59. *)
Lemma month_window_civil y m :
  1 <= m <= 12 ->
  civil (localTime y (m - 1) 1 0 0 0) = ymd_hms (MakeFullYear y) m 1 0 0 0 /\
  civil (localTime y m 0 23 59 59) =
    ymd_hms (MakeFullYear y) m (DaysInMonth (MakeFullYear y) (m - 1)) 23 59 59.
Proof.
  intros Hm. unfold localTime, ymd_hms.
  pose proof (DaysInMonth_pos (MakeFullYear y) (m - 1)) as Hd.
  split.
  - apply civil_MakeDate; lia.
  - rewrite MakeDay_day_zero by exact Hm. apply civil_MakeDate; lia.
Qed.

(** C3.  For both message tools, [{year: 2024}] alone gives the window from
    2024-01-01T00:00:00 to 2024-12-31T23:59:59 of the host's local time, in
    epoch seconds; [{year: 2024, month: 2}] ends at 2024-02-29T23:59:59 and
    [{year: 2023, month: 2}] at 2023-02-28T23:59:59.  In general the window
    of a year and a month 1..12 runs from the first of the month to its last
    day, which day 0 of the following month denotes. *)
Theorem year_month_windows kws lim glim ctx :
  let search := searchFilter LocalTZA kws lim ctx in
  let recent := recentFilter LocalTZA glim ctx in
  (exists from to,
     civil from = ymd_hms 2024 1 1 0 0 0 /\
     civil to = ymd_hms 2024 12 31 23 59 59 /\
     search (Some 2024) None = window LocalTZA from to /\
     recent (Some 2024) None = window LocalTZA from to) /\
  (exists from to,
     civil from = ymd_hms 2024 2 1 0 0 0 /\
     civil to = ymd_hms 2024 2 29 23 59 59 /\
     search (Some 2024) (Some 2) = window LocalTZA from to /\
     recent (Some 2024) (Some 2) = window LocalTZA from to) /\
  (exists from to,
     civil from = ymd_hms 2023 2 1 0 0 0 /\
     civil to = ymd_hms 2023 2 28 23 59 59 /\
     search (Some 2023) (Some 2) = window LocalTZA from to /\
     recent (Some 2023) (Some 2) = window LocalTZA from to) /\
  (forall y m, y <> 0 -> 1 <= m <= 12 ->
     let Y := MakeFullYear y in
     exists from to,
       civil from = ymd_hms Y m 1 0 0 0 /\
       civil to = ymd_hms Y m (DaysInMonth Y (m - 1)) 23 59 59 /\
       to = MakeDate (MakeDay Y m 0) (MakeTime 23 59 59 0) /\
       search (Some y) (Some m) = window LocalTZA from to /\
       recent (Some y) (Some m) = window LocalTZA from to).
Proof.
  intros search recent. subst search recent.
  repeat split.
  - exists 1704067200000, 1735689599000. repeat split; reflexivity.
  - exists 1706745600000, 1709251199000. repeat split; reflexivity.
  - exists 1675209600000, 1677628799000. repeat split; reflexivity.
  - intros y m Hy Hm Y.
    exists (localTime y (m - 1) 1 0 0 0), (localTime y m 0 23 59 59).
    destruct (month_window_civil y m Hm) as [Hfrom Hto].
    rewrite searchFilter_eq, recentFilter_eq.
    rewrite !effective_year_month by lia.
    repeat split; assumption || reflexivity.
Qed.

(** C8.  For both message tools: with [year] absent or 0 the month is
    ignored and the filter passed on is that of the context (none when the
    context has none); with a year and [month] 0 the window of the whole
    calendar year is used. *)
Theorem falsy_year_or_month kws lim glim ctx year month :
  let search := searchFilter LocalTZA kws lim ctx in
  let recent := recentFilter LocalTZA glim ctx in
  (year = None \/ year = Some 0 ->
     search year month = timeFilter ctx /\
     recent year month = timeFilter ctx) /\
  (forall y, year = Some y -> y <> 0 -> month = Some 0 ->
     let Y := MakeFullYear y in
     exists from to,
       civil from = ymd_hms Y 1 1 0 0 0 /\
       civil to = ymd_hms Y 12 31 23 59 59 /\
       search year month = window LocalTZA from to /\
       recent year month = window LocalTZA from to /\
       search year month = search year None /\
       recent year month = recent year None).
Proof.
  intros search recent. subst search recent. split.
  - intros H. rewrite searchFilter_eq, recentFilter_eq.
    rewrite !effective_falsy_year by exact H. split; reflexivity.
  - intros y -> Hy -> Y.
    exists (localTime y 0 1 0 0 0), (localTime y 11 31 23 59 59).
    destruct (year_window_civil y) as [Hfrom Hto].
    rewrite !searchFilter_eq, !recentFilter_eq, !effective_month_zero.
    rewrite !effective_year_only by exact Hy.
    repeat split; assumption.
Qed.


End Filters.

Section Stats.

Variable getHourlyActivity : string -> option TimeFilter -> list HourlyActivity.
Variable getWeekdayActivity : string -> option TimeFilter -> list WeekdayActivity.
Variable getDailyActivity : string -> option TimeFilter -> list DailyActivity.

(** C9.  With type 'hourly' or 'weekday', [getTimeStatsExecutor] throws the
    TypeError of [reduce] when the data store returns an empty list, and
    returns a reply when the list has an entry. *)
Theorem time_stats_empty_throws ctx :
  let run := getTimeStatsExecutor getHourlyActivity getWeekdayActivity
               getDailyActivity in
  let empty := TypeError "Reduce of empty array with no initial value" in
  (getHourlyActivity (sessionId ctx) (timeFilter ctx) = [] ->
     run hourly ctx = Throw empty) /\
  (getWeekdayActivity (sessionId ctx) (timeFilter ctx) = [] ->
     run weekday_ ctx = Throw empty) /\
  (getHourlyActivity (sessionId ctx) (timeFilter ctx) <> [] ->
     exists reply, run hourly ctx = Return reply) /\
  (getWeekdayActivity (sessionId ctx) (timeFilter ctx) <> [] ->
     exists reply, run weekday_ ctx = Return reply).
Proof.
  cbn. unfold getTimeStatsExecutor. repeat split.
  - intros ->. reflexivity.
  - intros ->. reflexivity.
  - destruct (getHourlyActivity _ _); [congruence|]. intros _. eexists. reflexivity.
  - destruct (getWeekdayActivity _ _); [congruence|]. intros _. eexists. reflexivity.
Qed.

End Stats.

Import Scenarios.

(** The general case of C3 at February 2024, on a host at UTC+8. *)
Lemma year_month_windows_witness :
  exists from to,
    civil from = ymd_hms 2024 2 1 0 0 0 /\
    civil to = ymd_hms 2024 2 29 23 59 59 /\
    to = MakeDate (MakeDay 2024 2 0) (MakeTime 23 59 59 0) /\
    searchFilter utc8 ["lunch"] None plainContext (Some 2024) (Some 2) =
      window utc8 from to /\
    recentFilter utc8 None plainContext (Some 2024) (Some 2) =
      window utc8 from to.
Proof.
  exact (proj2 (proj2 (proj2
           (year_month_windows utc8 ["lunch"] None None plainContext)))
           2024 2 ltac:(lia) ltac:(lia)).
Defined.

(** C8 with no year and month 5, and with year 2024 and month 0. *)
Lemma falsy_year_or_month_witness :
  (searchFilter utc8 ["lunch"] None filteredContext None (Some 5) =
     Some january2024 /\
   recentFilter utc8 None filteredContext None (Some 5) = Some january2024) /\
  (exists from to,
     civil from = ymd_hms 2024 1 1 0 0 0 /\
     civil to = ymd_hms 2024 12 31 23 59 59 /\
     searchFilter utc8 ["lunch"] None filteredContext (Some 2024) (Some 0) =
       window utc8 from to /\
     recentFilter utc8 None filteredContext (Some 2024) (Some 0) =
       window utc8 from to /\
     searchFilter utc8 ["lunch"] None filteredContext (Some 2024) (Some 0) =
       searchFilter utc8 ["lunch"] None filteredContext (Some 2024) None /\
     recentFilter utc8 None filteredContext (Some 2024) (Some 0) =
       recentFilter utc8 None filteredContext (Some 2024) None).
Proof.
  split.
  - exact (proj1 (falsy_year_or_month utc8 ["lunch"] None None filteredContext
                    None (Some 5)) (or_introl eq_refl)).
  - exact (proj2 (falsy_year_or_month utc8 ["lunch"] None None filteredContext
                    (Some 2024) (Some 0)) 2024 eq_refl ltac:(lia) eq_refl).
Defined.


(** C9 on a data store without activity. *)
Lemma time_stats_empty_throws_witness :
  getTimeStatsExecutor noHours noWeekdays noDays hourly plainContext =
    Throw (TypeError "Reduce of empty array with no initial value") /\
  getTimeStatsExecutor noHours noWeekdays noDays weekday_ plainContext =
    Throw (TypeError "Reduce of empty array with no initial value").
Proof.
  split.
  - exact (proj1 (time_stats_empty_throws noHours noWeekdays noDays plainContext)
             eq_refl).
  - exact (proj1 (proj2 (time_stats_empty_throws noHours noWeekdays noDays
                           plainContext)) eq_refl).
Defined.

End ToolProofs.

(** ** The agent loop *)
Module AgentProofs.

Import Tools Agent.

(** *** Field updates as extensions *)

Lemma extend_extend ms1 ns1 as1 k1 ms2 ns2 as2 k2 a :
  extend ms2 ns2 as2 k2 (extend ms1 ns1 as1 k1 a) =
  extend (ms1 ++ ms2) (ns1 ++ ns2) (as1 ++ as2) (k1 + k2) a.
Proof.
  unfold extend; cbn. rewrite !app_assoc, Z.add_assoc. reflexivity.
Qed.

Lemma extend_nothing a : extend [] [] [] 0 a = a.
Proof.
  destruct a; unfold extend; cbn. rewrite !app_nil_r, Z.add_0_r. reflexivity.
Qed.

Lemma push_message_extend m a : push_message m a = extend [m] [] [] 0 a.
Proof.
  unfold push_message, extend. rewrite !app_nil_r, Z.add_0_r. reflexivity.
Qed.

Lemma push_toolUsed_extend n a : push_toolUsed n a = extend [] [n] [] 0 a.
Proof.
  unfold push_toolUsed, extend. rewrite !app_nil_r, Z.add_0_r. reflexivity.
Qed.

Lemma record_extend act a : record act a = extend [] [] [act] 0 a.
Proof.
  unfold record, extend. rewrite !app_nil_r, Z.add_0_r. reflexivity.
Qed.

Lemma onChunk_extend c a : onChunk c a = extend [] [] [Emit c] 0 a.
Proof. apply record_extend. Qed.

Lemma incr_toolRounds_extend a : incr_toolRounds a = extend [] [] [] 1 a.
Proof.
  unfold incr_toolRounds, extend. rewrite !app_nil_r. reflexivity.
Qed.

Ltac to_extend :=
  rewrite ?push_message_extend, ?push_toolUsed_extend, ?onChunk_extend,
    ?record_extend, ?incr_toolRounds_extend, ?extend_extend;
  cbn [app]; rewrite ?app_nil_r.

(** *** String append *)

Lemma append_empty_r (s : string) : (s ++ "")%string = s.
Proof. induction s as [|c s IH]; cbn; [|rewrite IH]; reflexivity. Qed.

Lemma append_assoc (s1 s2 s3 : string) :
  (s1 ++ (s2 ++ s3))%string = ((s1 ++ s2) ++ s3)%string.
Proof. induction s1 as [|c s1 IH]; cbn; [|rewrite IH]; reflexivity. Qed.

(** *** Counting the calls of a log *)

Lemma modelCalls_app l1 l2 :
  modelCalls (l1 ++ l2) = (modelCalls l1 + modelCalls l2)%nat.
Proof. unfold modelCalls. rewrite filter_app, length_app. reflexivity. Qed.

Lemma modelCalls_emits l :
  Forall (fun a => isEmit a = true) l -> modelCalls l = 0%nat.
Proof.
  induction 1 as [|a l Ha _ IH]; [reflexivity|].
  unfold modelCalls in *. cbn. destruct a; try discriminate; exact IH.
Qed.

Lemma modelCalls_cons act l :
  modelCalls (act :: l) =
  ((if isModelCall act then 1 else 0) + modelCalls l)%nat.
Proof. unfold modelCalls. cbn. destruct (isModelCall act); reflexivity. Qed.

Lemma callsOf_app l1 l2 : callsOf (l1 ++ l2) = callsOf l1 ++ callsOf l2.
Proof. apply filter_app. Qed.

Lemma callsOf_cons act l :
  callsOf (act :: l) = if isEmit act then callsOf l else act :: callsOf l.
Proof. unfold callsOf. cbn. destruct (isEmit act); reflexivity. Qed.

Lemma filter_length_callsOf l : modelCalls (callsOf l) = modelCalls l.
Proof.
  unfold modelCalls, callsOf.
  induction l as [|a l IH]; [reflexivity|].
  destruct a; cbn; rewrite ?IH; reflexivity.
Qed.

Lemma callsOf_emits l :
  Forall (fun a => isEmit a = true) l -> callsOf l = [].
Proof.
  induction 1 as [|a l Ha _ IH]; [reflexivity|].
  unfold callsOf in *. cbn. rewrite Ha. exact IH.
Qed.

Lemma Forall_emit_map {A : Type} (f : A -> AgentStreamChunk) (l : list A) :
  Forall (fun a => isEmit a = true) (map (fun x => Emit (f x)) l).
Proof. induction l; constructor; [reflexivity | assumption]. Qed.

Section Run.

Variable chat : nat -> list ChatMessage -> ChatOptions -> Completion ChatResponse.
Variable chatStream : nat -> list ChatMessage -> ChatOptions -> ChatStream.
Variable getAllToolDefinitions : list ToolDefinition.
Variable executeToolCalls : list ToolCall -> ToolContext -> list ToolExecutionResult.
Variable JSON_parse : string -> option Json.
Variable JSON_stringify : Json -> string.
Variable getSystemPrompt : string.

Local Abbreviation toolMessages := (toolMessages JSON_stringify).
Local Abbreviation roundShape := (roundShape JSON_stringify).
Local Abbreviation roundMessages := (roundMessages executeToolCalls JSON_stringify).
Local Abbreviation appendToolResults := (appendToolResults JSON_stringify).
Local Abbreviation handleToolCalls := (handleToolCalls executeToolCalls JSON_stringify).
Local Abbreviation executeRound :=
  (executeRound chat getAllToolDefinitions executeToolCalls JSON_stringify).
Local Abbreviation executeFinish := (executeFinish chat).
Local Abbreviation executeLoop :=
  (executeLoop chat getAllToolDefinitions executeToolCalls JSON_stringify).
Local Abbreviation execute :=
  (execute chat getAllToolDefinitions executeToolCalls JSON_stringify getSystemPrompt).
Local Abbreviation toolStartChunk := (toolStartChunk JSON_parse).
Local Abbreviation announceToolCalls := (announceToolCalls JSON_parse).
Local Abbreviation streamRound :=
  (streamRound chatStream getAllToolDefinitions executeToolCalls JSON_parse
     JSON_stringify).
Local Abbreviation streamFinish := (streamFinish chatStream).
Local Abbreviation streamLoop :=
  (streamLoop chatStream getAllToolDefinitions executeToolCalls JSON_parse
     JSON_stringify).
Local Abbreviation executeStream :=
  (executeStream chatStream getAllToolDefinitions executeToolCalls JSON_parse
     JSON_stringify getSystemPrompt).

(** *** [handleToolCalls] *)

Lemma appendToolResults_eq streaming tcs : forall rs a,
  appendToolResults streaming tcs rs a =
  (extend (toolMessages tcs rs)
          (map toolName (firstn (S (List.length rs)) tcs))
          (if streaming then toolResultChunks tcs rs else [])
          0 a,
   if (List.length tcs <=? List.length rs)%nat then Return tt
   else Throw missingResult).
Proof.
  induction tcs as [|tc tcs IH]; intros rs a.
  - cbn. destruct streaming; cbn; rewrite extend_nothing; reflexivity.
  - destruct rs as [|r rs].
    + cbn. to_extend. destruct streaming; reflexivity.
    + cbn [Agent.appendToolResults]. rewrite IH.
      unfold Agent.toolMessages, toolResultChunks.
      destruct streaming; to_extend; cbn; reflexivity.
Qed.

Lemma handleToolCalls_eq streaming tcs a :
  handleToolCalls streaming tcs a =
  (extend (roundMessages (context a) tcs)
          (map toolName
               (firstn (S (List.length (executeToolCalls tcs (context a)))) tcs))
          (Dispatch tcs ::
             if streaming
             then toolResultChunks tcs (executeToolCalls tcs (context a))
             else [])
          0 a,
   if (List.length tcs <=? List.length (executeToolCalls tcs (context a)))%nat
   then Return tt else Throw missingResult).
Proof.
  unfold Agent.handleToolCalls. rewrite appendToolResults_eq.
  to_extend. reflexivity.
Qed.

Lemma executeRound_step a a' x :
  executeRound a = (a', x) ->
  exists ms names acts k,
    a' = extend ms names acts k a /\
    modelCalls acts = 1%nat /\
    roundShape ms /\
    ((k = 0 /\ x <> Continue) \/ (k = 1 /\ x = Continue)) /\
    (forall r, x = Finish r -> res_toolRounds r = toolRounds a').
Proof.
  unfold Agent.executeRound.
  set (options := with_tools (cfg_llmOptions a) getAllToolDefinitions).
  cbn [messages record].
  destruct (chat _ _ _) as [response | e].
  2:{ intros [= <- <-]. to_extend.
      exists [], [], [ModelCall (messages a) options], 0.
      repeat split; try reflexivity; [left; reflexivity | | discriminate].
      left. split; [reflexivity | discriminate]. }
  destruct (resp_tool_calls response) as [toolCalls|].
  2:{ intros [= <- <-]. to_extend.
      exists [], [], [ModelCall (messages a) options], 0.
      repeat split; try reflexivity; [left; reflexivity | | ].
      - left. split; [reflexivity | discriminate].
      - intros r [= <-]. reflexivity. }
  destruct (String.eqb _ _).
  2:{ intros [= <- <-]. to_extend.
      exists [], [], [ModelCall (messages a) options], 0.
      repeat split; try reflexivity; [left; reflexivity | | ].
      - left. split; [reflexivity | discriminate].
      - intros r [= <-]. reflexivity. }
  rewrite handleToolCalls_eq. cbn [context record].
  destruct (_ <=? _)%nat; intros [= <- <-]; to_extend;
    eexists _, _, _, _; (split; [reflexivity|]);
    (split; [reflexivity|]);
    (split; [right; eexists _, _; reflexivity|]);
    (split; [|discriminate]).
  - right. split; reflexivity.
  - left. split; [reflexivity | discriminate].
Qed.

Lemma executeFinish_step a a' c :
  executeFinish a = (a', c) ->
  exists act,
    a' = extend [forcedFinishMessage] [] [act] 0 a /\
    act = ModelCall (messages a ++ [forcedFinishMessage]) (cfg_llmOptions a) /\
    (forall r, c = Return r -> res_toolRounds r = toolRounds a').
Proof.
  unfold Agent.executeFinish. cbn [messages record push_message cfg_llmOptions].
  destruct (chat _ _ _) as [response | e]; intros [= <- <-]; to_extend;
    eexists; (split; [reflexivity|]); (split; [reflexivity|]).
  - intros r [= <-]. reflexivity.
  - discriminate.
Qed.

(** *** The chunks of a stream *)

Abbreviation emits := (Forall (fun a => isEmit a = true)).

Lemma consumeRound_extend cs f : forall acc tc a a' e,
  consumeRound cs f acc tc a = (a', e) ->
  exists acts, a' = extend [] [] acts 0 a /\ emits acts.
Proof.
  induction cs as [|c cs IH]; intros acc tc a a' e.
  - cbn. destruct f; intros [= <- <-]; exists []; rewrite extend_nothing;
      split; constructor.
  - cbn [consumeRound].
    set (tc' := match chunk_tool_calls c with Some t => Some t | None => tc end).
    clearbody tc'.
    destruct (truthy_string (chunk_content c)).
    + set (t := match chunk_content c with Some c0 => c0 | None => "" end).
      clearbody t.
      assert (Hrec : forall a1 e1,
                 consumeRound cs f (acc ++ t)%string tc'
                   (onChunk (content_chunk t) a) = (a1, e1) ->
                 exists acts, a1 = extend [] [] acts 0 a /\ emits acts).
      { intros a1 e1 H. apply IH in H as (acts & -> & Hacts). to_extend.
        eexists; split; [reflexivity|]. constructor; [reflexivity | exact Hacts]. }
      destruct (chunk_isFinished c); [|apply Hrec].
      destruct (chunk_finishReason c) as [reason|], tc' as [tcs|];
        try (intros [= <- <-]; to_extend; eexists; split;
             [reflexivity | repeat constructor]).
      destruct (String.eqb reason "tool_calls"); [apply Hrec|].
      intros [= <- <-]; to_extend; eexists; split;
        [reflexivity | repeat constructor].
    + destruct (chunk_isFinished c); [|apply IH].
      destruct (chunk_finishReason c) as [reason|], tc' as [tcs|];
        try (intros [= <- <-]; to_extend; eexists; split;
             [reflexivity | repeat constructor]).
      destruct (String.eqb reason "tool_calls"); [apply IH|].
      intros [= <- <-]; to_extend; eexists; split;
        [reflexivity | repeat constructor].
Qed.

Lemma announceToolCalls_eq tcs : forall a,
  announceToolCalls tcs a =
  extend [] [] (map (fun tc => Emit (toolStartChunk (context a) tc)) tcs) 0 a.
Proof.
  unfold Agent.announceToolCalls.
  induction tcs as [|tc tcs IH]; intros a.
  - cbn. rewrite extend_nothing. reflexivity.
  - cbn [fold_left map]. rewrite IH. to_extend. reflexivity.
Qed.

Lemma consumeFinal_eq cs f : forall acc a,
  exists acts,
    emits acts /\
    consumeFinal cs f acc a =
    (extend [] [] acts 0 a,
     match f with
     | Some e => Throw e
     | None => Return (acc ++ streamedText cs)%string
     end).
Proof.
  induction cs as [|c cs IH]; intros acc a.
  - exists []. split; [constructor|]. cbn. rewrite extend_nothing.
    destruct f; [reflexivity|]. rewrite append_empty_r. reflexivity.
  - cbn [consumeFinal streamedText].
    destruct (chunk_content c) as [t|] eqn:Ht; cbn [truthy_string].
    + destruct (String.eqb_spec t "") as [-> | Hne]; cbn [negb].
      * destruct (chunk_isFinished c).
        -- destruct (IH acc (onChunk done_chunk a)) as (acts & Hacts & ->).
           to_extend. eexists; split; [|reflexivity].
           constructor; [reflexivity | exact Hacts].
        -- destruct (IH acc a) as (acts & Hacts & ->).
           eexists; split; [exact Hacts | reflexivity].
      * destruct (chunk_isFinished c).
        -- destruct (IH (acc ++ t)%string
                        (onChunk done_chunk (onChunk (content_chunk t) a)))
             as (acts & Hacts & ->).
           to_extend. rewrite <- append_assoc.
           eexists; split; [|reflexivity].
           repeat (constructor; [reflexivity|]). exact Hacts.
        -- destruct (IH (acc ++ t)%string (onChunk (content_chunk t) a))
             as (acts & Hacts & ->).
           to_extend. rewrite <- append_assoc.
           eexists; split; [|reflexivity].
           constructor; [reflexivity | exact Hacts].
    + destruct (chunk_isFinished c).
      * destruct (IH acc (onChunk done_chunk a)) as (acts & Hacts & ->).
        to_extend. eexists; split; [|reflexivity].
        constructor; [reflexivity | exact Hacts].
      * destruct (IH acc a) as (acts & Hacts & ->).
        eexists; split; [exact Hacts | reflexivity].
Qed.

Lemma toolResultChunks_emits tcs rs : emits (toolResultChunks tcs rs).
Proof. unfold toolResultChunks. apply Forall_emit_map. Qed.

Lemma toolStartChunks_emits ctx tcs :
  emits (map (fun tc => Emit (toolStartChunk ctx tc)) tcs).
Proof. apply Forall_emit_map. Qed.

Ltac count_calls :=
  repeat (rewrite ?modelCalls_app, ?modelCalls_cons;
          rewrite ?(modelCalls_emits _ (toolResultChunks_emits _ _)),
            ?(modelCalls_emits _ (toolStartChunks_emits _ _)));
  cbn [isModelCall].

Lemma streamRound_step a a' x :
  streamRound a = (a', x) ->
  exists ms names acts k,
    a' = extend ms names acts k a /\
    modelCalls acts = 1%nat /\
    roundShape ms /\
    (k = 0 \/ (k = 1 /\ x = Continue)) /\
    (forall r, x = Finish r -> res_toolRounds r = toolRounds a').
Proof.
  unfold Agent.streamRound.
  set (options := with_tools (cfg_llmOptions a) getAllToolDefinitions).
  cbn [messages record].
  set (s := chatStream _ _ _). clearbody s.
  destruct (consumeRound _ _ _ _ _) as [a1 e] eqn:Hc.
  apply consumeRound_extend in Hc as (acts & -> & Hacts).
  assert (Hcount : modelCalls (ModelCall (messages a) options :: acts) = 1%nat).
  { rewrite modelCalls_cons, (modelCalls_emits _ Hacts). reflexivity. }
  destruct e as [finalContent | acc toolCalls | e].
  - intros [= <- <-]. to_extend. eexists _, _, _, _.
    split; [reflexivity|]. split; [exact Hcount|].
    split; [left; reflexivity|]. split; [left; reflexivity|].
    intros r [= <-]. reflexivity.
  - destruct toolCalls as [[|tc rest]|].
    1,3: intros [= <- <-]; to_extend; eexists _, _, _, _;
      (split; [reflexivity|]); (split; [exact Hcount|]);
      (split; [left; reflexivity|]); (split; [left; reflexivity|]);
      discriminate.
    rewrite announceToolCalls_eq, handleToolCalls_eq.
    cbn [context extend record].
    destruct (_ <=? _)%nat; intros [= <- <-]; to_extend;
      eexists _, _, _, _; (split; [reflexivity|]);
      (split; [count_calls; rewrite (modelCalls_emits _ Hacts); reflexivity|]);
      (split; [right; eexists _, _; reflexivity|]);
      (split; [|discriminate]).
    + right. split; reflexivity.
    + left. reflexivity.
  - intros [= <- <-]. to_extend. eexists _, _, _, _.
    split; [reflexivity|]. split; [exact Hcount|].
    split; [left; reflexivity|]. split; [left; reflexivity|]. discriminate.
Qed.

Lemma streamFinish_step a a' c :
  streamFinish a = (a', c) ->
  exists acts,
    a' = extend [forcedFinishMessage] [] acts 0 a /\
    callsOf acts =
      [ModelCall (messages a ++ [forcedFinishMessage]) (cfg_llmOptions a)] /\
    modelCalls acts = 1%nat /\
    (forall r, c = Return r -> res_toolRounds r = toolRounds a').
Proof.
  unfold Agent.streamFinish. cbn [messages record push_message cfg_llmOptions].
  set (s := chatStream _ _ _). clearbody s.
  destruct (consumeFinal_eq (chunks s) (failure s) ""
              (record (ModelCall (messages a ++ [forcedFinishMessage])
                         (cfg_llmOptions a))
                 (push_message forcedFinishMessage a)))
    as (acts & Hacts & ->).
  destruct (failure s); intros [= <- <-]; to_extend;
    eexists; (split; [reflexivity|]);
    (split; [rewrite callsOf_cons, (callsOf_emits _ Hacts); reflexivity|]);
    (split; [rewrite modelCalls_cons, (modelCalls_emits _ Hacts); reflexivity|]).
  - discriminate.
  - intros r [= <-]. reflexivity.
Qed.

(** *** Histories in which every tool message is answered *)

Lemma toolMessages_In tcs rs m :
  In m (toolMessages tcs rs) ->
  exists tc r, In tc tcs /\ In r rs /\ m = toolMessage JSON_stringify tc r.
Proof.
  unfold Agent.toolMessages. rewrite in_map_iff.
  intros ([tc r] & <- & Hin). exists tc, r.
  split; [eapply in_combine_l; eassumption|].
  split; [eapply in_combine_r; eassumption | reflexivity].
Qed.

Lemma answered_seed sys um : answered (seedMessages sys um).
Proof.
  intros i m Hi Hrole.
  destruct i as [|[|i]]; cbn in Hi.
  - injection Hi as <-. discriminate.
  - injection Hi as <-. discriminate.
  - destruct i; discriminate.
Qed.

Lemma answered_app_other h m :
  answered h -> role m <> tool -> answered (h ++ [m]).
Proof.
  intros Hh Hm i m' Hi Hrole.
  destruct (Nat.lt_ge_cases i (List.length h)) as [Hlt | Hge].
  - rewrite nth_error_app1 in Hi by exact Hlt.
    destruct (Hh i m' Hi Hrole) as (j & a & tcs & tc & Hj & Ha & H1 & H2 & H3 & Hbetween & H4).
    exists j, a, tcs, tc.
    split; [exact Hj|]. split; [rewrite nth_error_app1 by lia; exact Ha|].
    split; [exact H1|]. split; [exact H2|]. split; [exact H3|].
    split; [|exact H4].
    intros k mk Hk Hmk. rewrite nth_error_app1 in Hmk by lia.
    eapply Hbetween; eassumption.
  - rewrite nth_error_app2 in Hi by exact Hge.
    destruct (i - List.length h)%nat as [|n]; cbn in Hi.
    + injection Hi as <-. contradiction.
    + destruct n; discriminate.
Qed.

Lemma answered_app_round h ms :
  answered h -> roundShape ms -> answered (h ++ ms).
Proof.
  intros Hh [-> | (tcs & rs & ->)]; [rewrite app_nil_r; exact Hh|].
  intros i m Hi Hrole.
  destruct (Nat.lt_ge_cases i (List.length h)) as [Hlt | Hge].
  - rewrite nth_error_app1 in Hi by exact Hlt.
    destruct (Hh i m Hi Hrole) as (j & a & tcs' & tc & Hj & Ha & H1 & H2 & H3 & Hbetween & H4).
    exists j, a, tcs', tc.
    split; [exact Hj|]. split; [rewrite nth_error_app1 by lia; exact Ha|].
    split; [exact H1|]. split; [exact H2|]. split; [exact H3|].
    split; [|exact H4].
    intros k mk Hk Hmk. rewrite nth_error_app1 in Hmk by lia.
    eapply Hbetween; eassumption.
  - rewrite nth_error_app2 in Hi by exact Hge.
    destruct (i - List.length h)%nat as [|p] eqn:Hp; cbn in Hi.
    + injection Hi as <-. discriminate.
    + apply nth_error_In, toolMessages_In in Hi as (tc & r & Htc & _ & ->).
      exists (List.length h), (assistantMessage tcs), tcs, tc.
      split; [lia|]. split.
      { rewrite nth_error_app2, Nat.sub_diag by lia. reflexivity. }
      split; [reflexivity|]. split; [reflexivity|]. split; [reflexivity|].
      split; [|split; [exact Htc | reflexivity]].
      intros k mk Hk Hmk.
      rewrite nth_error_app2 in Hmk by lia.
      destruct (k - List.length h)%nat as [|q] eqn:Hq; [lia|]. cbn in Hmk.
      apply nth_error_In, toolMessages_In in Hmk as (tc' & r' & _ & _ & ->).
      reflexivity.
Qed.

Lemma extends_refl {A : Type} (l : list A) : extends l l.
Proof. exists []. rewrite app_nil_r. reflexivity. Qed.

Lemma extends_trans {A : Type} (l1 l2 l3 : list A) :
  extends l1 l2 -> extends l2 l3 -> extends l1 l3.
Proof.
  intros [m1 ->] [m2 ->]. exists (m1 ++ m2). rewrite app_assoc. reflexivity.
Qed.

Lemma extends_app {A : Type} (l more : list A) : extends l (l ++ more).
Proof. exists more. reflexivity. Qed.

(** *** The two loops, through what they have in common *)

Section Loop.

Variable round : Agent -> Agent * RoundResult.
Variable finish : Agent -> Agent * Completion AgentResult.
Variable loop : nat -> Agent -> RunState.

Hypothesis loop_eq : forall fuel a,
  loop fuel a =
  if toolRounds a <? cfg_maxToolRounds a then
    match fuel with
    | O => Running a
    | S fuel' =>
        match round a with
        | (a', Continue) => loop fuel' a'
        | (a', Finish r) => Completed a' (Return r)
        | (a', Raise e) => Completed a' (Throw e)
        end
    end
  else let (a', c) := finish a in Completed a' c.

Hypothesis round_step : forall a a' x,
  round a = (a', x) ->
  exists ms names acts k,
    a' = extend ms names acts k a /\
    modelCalls acts = 1%nat /\
    roundShape ms /\
    (k = 0 \/ (k = 1 /\ x = Continue)) /\
    (forall r, x = Finish r -> res_toolRounds r = toolRounds a').

Hypothesis finish_step : forall a a' c,
  finish a = (a', c) ->
  exists acts,
    a' = extend [forcedFinishMessage] [] acts 0 a /\
    modelCalls acts = 1%nat /\
    (forall r, c = Return r -> res_toolRounds r = toolRounds a').

Lemma loop_ind (P : Agent -> RunState -> Prop) :
  (forall a, toolRounds a < cfg_maxToolRounds a -> P a (Running a)) ->
  (forall a a' r, toolRounds a < cfg_maxToolRounds a ->
     round a = (a', Finish r) -> P a (Completed a' (Return r))) ->
  (forall a a' e, toolRounds a < cfg_maxToolRounds a ->
     round a = (a', Raise e) -> P a (Completed a' (Throw e))) ->
  (forall a a' s, toolRounds a < cfg_maxToolRounds a ->
     round a = (a', Continue) -> P a' s -> P a s) ->
  (forall a a' c, cfg_maxToolRounds a <= toolRounds a ->
     finish a = (a', c) -> P a (Completed a' c)) ->
  forall fuel a, P a (loop fuel a).
Proof.
  intros Hrun Hfin Hraise Hcont Hafter.
  induction fuel as [|fuel IH]; intros a; rewrite loop_eq;
    destruct (Z.ltb_spec (toolRounds a) (cfg_maxToolRounds a)) as [Hlt | Hge].
  - apply Hrun, Hlt.
  - destruct (finish a) as [a' c] eqn:E. eapply Hafter; eassumption.
  - destruct (round a) as [a' [ | r | e]] eqn:E.
    + eapply Hcont; [exact Hlt | exact E | apply IH].
    + eapply Hfin; eassumption.
    + eapply Hraise; eassumption.
  - destruct (finish a) as [a' c] eqn:E. eapply Hafter; eassumption.
Qed.

(** The round counter of a result: not below the counter the loop starts
    from, and within the maximum unless it started beyond it. *)
Lemma loop_toolRounds fuel a a' r :
  loop fuel a = Completed a' (Return r) ->
  toolRounds a <= res_toolRounds r <= Z.max (toolRounds a) (cfg_maxToolRounds a).
Proof.
  revert a' r.
  apply (loop_ind (fun a s => forall a' r,
           s = Completed a' (Return r) ->
           toolRounds a <= res_toolRounds r
           <= Z.max (toolRounds a) (cfg_maxToolRounds a))).
  - discriminate.
  - intros a0 a1 r0 Hlt Hround a' r [= <- <-].
    apply round_step in Hround as (ms & ns & acts & k & -> & _ & _ & Hk & Hres).
    rewrite (Hres r0 eq_refl). cbn [toolRounds extend].
    destruct Hk as [-> | [_ Hx]]; [lia | discriminate Hx].
  - discriminate.
  - intros a0 a1 s Hlt Hround IH a' r Hs.
    apply round_step in Hround as (ms & ns & acts & k & -> & _ & _ & Hk & _).
    specialize (IH a' r Hs). cbn [toolRounds cfg_maxToolRounds extend] in IH.
    destruct Hk as [-> | [-> _]]; lia.
  - intros a0 a1 c Hge Hfinish a' r [= <- ->].
    apply finish_step in Hfinish as (acts & -> & _ & Hres).
    rewrite (Hres r eq_refl). cbn [toolRounds extend]. lia.
Qed.

(** The history only grows, and keeps every tool message answered. *)
Lemma loop_history fuel a :
  extends (messages a) (messages (agentOf (loop fuel a))) /\
  (answered (messages a) -> answered (messages (agentOf (loop fuel a)))).
Proof.
  apply (loop_ind (fun a s =>
           extends (messages a) (messages (agentOf s)) /\
           (answered (messages a) -> answered (messages (agentOf s))))).
  - intros a0 _. split; [apply extends_refl | trivial].
  - intros a0 a1 r _ Hround.
    apply round_step in Hround as (ms & ns & acts & k & -> & _ & Hms & _).
    cbn. split; [apply extends_app|]. intros H. apply answered_app_round; assumption.
  - intros a0 a1 e _ Hround.
    apply round_step in Hround as (ms & ns & acts & k & -> & _ & Hms & _).
    cbn. split; [apply extends_app|]. intros H. apply answered_app_round; assumption.
  - intros a0 a1 s _ Hround [IHe IHa].
    apply round_step in Hround as (ms & ns & acts & k & -> & _ & Hms & _).
    cbn in IHe, IHa. split.
    + eapply extends_trans; [apply extends_app | exact IHe].
    + intros H. apply IHa, answered_app_round; assumption.
  - intros a0 a1 c _ Hfinish.
    apply finish_step in Hfinish as (acts & -> & _).
    cbn. split; [apply extends_app|].
    intros H. apply answered_app_other; [exact H | discriminate].
Qed.

(** A run observed later has the history observed earlier as a prefix. *)
Lemma loop_monotone fuel1 : forall fuel2 a,
  (fuel1 <= fuel2)%nat ->
  extends (messages (agentOf (loop fuel1 a))) (messages (agentOf (loop fuel2 a))).
Proof.
  induction fuel1 as [|fuel1 IH]; intros fuel2 a Hle.
  - rewrite (loop_eq 0 a).
    destruct (Z.ltb_spec (toolRounds a) (cfg_maxToolRounds a)) as [Hlt | Hge].
    + cbn. apply loop_history.
    + rewrite (loop_eq fuel2 a).
      destruct (Z.ltb_spec (toolRounds a) (cfg_maxToolRounds a)); [lia|].
      apply extends_refl.
  - destruct fuel2 as [|fuel2]; [lia|].
    rewrite (loop_eq (S fuel1) a), (loop_eq (S fuel2) a).
    destruct (toolRounds a <? cfg_maxToolRounds a); [|apply extends_refl].
    destruct (round a) as [a' [ | r | e]]; try apply extends_refl.
    apply IH. lia.
Qed.

(** Each pass and the part after the loop call the model once. *)
Lemma loop_modelCalls fuel a :
  (modelCalls (log (agentOf (loop fuel a))) <=
   modelCalls (log a) + fuel + 1)%nat.
Proof.
  revert a. induction fuel as [|fuel IH]; intros a; rewrite loop_eq;
    destruct (toolRounds a <? cfg_maxToolRounds a).
  - cbn [agentOf]. lia.
  - destruct (finish a) as [a' c] eqn:E.
    apply finish_step in E as (acts & -> & Hacts & _).
    cbn [agentOf log extend]. rewrite modelCalls_app. lia.
  - destruct (round a) as [a' x] eqn:E.
    apply round_step in E as (ms & ns & acts & k & -> & Hacts & _).
    destruct x.
    + specialize (IH (extend ms ns acts k a)). cbn [log extend] in IH.
      rewrite modelCalls_app in IH. lia.
    + cbn [agentOf log extend]. rewrite modelCalls_app. lia.
    + cbn [agentOf log extend]. rewrite modelCalls_app. lia.
  - destruct (finish a) as [a' c] eqn:E.
    apply finish_step in E as (acts & -> & Hacts & _).
    cbn [agentOf log extend]. rewrite modelCalls_app. lia.
Qed.

End Loop.

Lemma executeLoop_eq fuel a :
  executeLoop fuel a =
  if toolRounds a <? cfg_maxToolRounds a then
    match fuel with
    | O => Running a
    | S fuel' =>
        match executeRound a with
        | (a', Continue) => executeLoop fuel' a'
        | (a', Finish r) => Completed a' (Return r)
        | (a', Raise e) => Completed a' (Throw e)
        end
    end
  else let (a', c) := executeFinish a in Completed a' c.
Proof. destruct fuel; reflexivity. Qed.

Lemma streamLoop_eq fuel a :
  streamLoop fuel a =
  if toolRounds a <? cfg_maxToolRounds a then
    match fuel with
    | O => Running a
    | S fuel' =>
        match streamRound a with
        | (a', Continue) => streamLoop fuel' a'
        | (a', Finish r) => Completed a' (Return r)
        | (a', Raise e) => Completed a' (Throw e)
        end
    end
  else let (a', c) := streamFinish a in Completed a' c.
Proof. destruct fuel; reflexivity. Qed.

Lemma executeRound_weak_step a a' x :
  executeRound a = (a', x) ->
  exists ms names acts k,
    a' = extend ms names acts k a /\
    modelCalls acts = 1%nat /\
    roundShape ms /\
    (k = 0 \/ (k = 1 /\ x = Continue)) /\
    (forall r, x = Finish r -> res_toolRounds r = toolRounds a').
Proof.
  intros H. apply executeRound_step in H
    as (ms & ns & acts & k & Ha & Hc & Hms & Hk & Hr).
  exists ms, ns, acts, k. repeat split; try assumption.
  destruct Hk as [[-> _] | Hk]; [left; reflexivity | right; exact Hk].
Qed.

Lemma executeFinish_weak_step a a' c :
  executeFinish a = (a', c) ->
  exists acts,
    a' = extend [forcedFinishMessage] [] acts 0 a /\
    modelCalls acts = 1%nat /\
    (forall r, c = Return r -> res_toolRounds r = toolRounds a').
Proof.
  intros H. apply executeFinish_step in H as (act & -> & -> & Hr).
  eexists. split; [reflexivity|]. split; [reflexivity | exact Hr].
Qed.

Lemma streamFinish_intact a :
  let s := chatStream (modelCalls (log a)) (messages a ++ [forcedFinishMessage])
             (cfg_llmOptions a) in
  failure s = None ->
  exists acts,
    emits acts /\
    streamFinish a =
    (extend [forcedFinishMessage] []
            (ModelCall (messages a ++ [forcedFinishMessage]) (cfg_llmOptions a)
               :: acts) 0 a,
     Return {| res_content := streamedText (chunks s);
               res_toolsUsed := toolsUsed a; res_toolRounds := toolRounds a |}).
Proof.
  intros s Hf. unfold Agent.streamFinish.
  cbn [messages log record push_message cfg_llmOptions]. fold s.
  destruct (consumeFinal_eq (chunks s) (failure s) ""
              (record (ModelCall (messages a ++ [forcedFinishMessage])
                         (cfg_llmOptions a))
                 (push_message forcedFinishMessage a)))
    as (acts & Hacts & ->).
  rewrite Hf. exists acts. split; [exact Hacts|]. to_extend.
  unfold result_of. cbn [toolsUsed toolRounds extend String.append].
  rewrite ?app_nil_r, ?Z.add_0_r. reflexivity.
Qed.

Lemma streamFinish_weak_step a a' c :
  streamFinish a = (a', c) ->
  exists acts,
    a' = extend [forcedFinishMessage] [] acts 0 a /\
    modelCalls acts = 1%nat /\
    (forall r, c = Return r -> res_toolRounds r = toolRounds a').
Proof.
  intros H. apply streamFinish_step in H as (acts & -> & _ & Hc & Hr).
  eexists. split; [reflexivity|]. split; assumption.
Qed.

(** *** Termination of [execute] *)

(** [execute] leaves its loop within [maxToolRounds] passes and calls the
    model at most once more than that. *)
Lemma executeLoop_completes fuel : forall a,
  (Z.to_nat (cfg_maxToolRounds a - toolRounds a) <= fuel)%nat ->
  exists a' c,
    executeLoop fuel a = Completed a' c /\
    (modelCalls (log a') <=
     modelCalls (log a) + Z.to_nat (cfg_maxToolRounds a - toolRounds a) + 1)%nat.
Proof.
  induction fuel as [|fuel IH]; intros a Hfuel; rewrite executeLoop_eq;
    destruct (Z.ltb_spec (toolRounds a) (cfg_maxToolRounds a)) as [Hlt | Hge].
  - lia.
  - destruct (executeFinish a) as [a' c] eqn:E.
    apply executeFinish_weak_step in E as (acts & -> & Hacts & _).
    eexists _, _. split; [reflexivity|].
    cbn [log extend]. rewrite modelCalls_app. lia.
  - destruct (executeRound a) as [a' x] eqn:E.
    apply executeRound_step in E as (ms & ns & acts & k & -> & Hacts & _ & Hk & _).
    destruct x as [ | r | e].
    + destruct Hk as [[_ Hk] | [-> _]]; [congruence|].
      destruct (IH (extend ms ns acts 1 a)) as (a' & c & -> & Hcalls).
      { cbn [cfg_maxToolRounds toolRounds extend]. lia. }
      eexists _, _. split; [reflexivity|].
      cbn [log extend cfg_maxToolRounds toolRounds] in Hcalls.
      rewrite modelCalls_app in Hcalls. lia.
    + eexists _, _. split; [reflexivity|].
      cbn [log extend]. rewrite modelCalls_app. lia.
    + eexists _, _. split; [reflexivity|].
      cbn [log extend]. rewrite modelCalls_app. lia.
  - destruct (executeFinish a) as [a' c] eqn:E.
    apply executeFinish_weak_step in E as (acts & -> & Hacts & _).
    eexists _, _. split; [reflexivity|].
    cbn [log extend]. rewrite modelCalls_app. lia.
Qed.

(** C1, amended.  Whenever [execute] or [executeStream] returns a result,
    its [toolRounds] lies between 0 and the larger of 0 and the configured
    maximum of tool rounds: it is at most the maximum when the maximum is
    not negative, and it is 0 when the maximum is negative. *)
Theorem toolRounds_within_maximum fuel userMessage a a' r :
  execute fuel userMessage a = Completed a' (Return r) \/
  executeStream fuel userMessage a = Completed a' (Return r) ->
  0 <= res_toolRounds r <= Z.max 0 (cfg_maxToolRounds a) /\
  (0 <= cfg_maxToolRounds a -> res_toolRounds r <= cfg_maxToolRounds a) /\
  (cfg_maxToolRounds a < 0 -> res_toolRounds r = 0).
Proof.
  intros H.
  assert (Hrange : 0 <= res_toolRounds r <= Z.max 0 (cfg_maxToolRounds a)).
  { destruct H as [H | H].
    - apply (loop_toolRounds _ _ _ executeLoop_eq executeRound_weak_step
               executeFinish_weak_step _ _ _ _ H).
    - apply (loop_toolRounds _ _ _ streamLoop_eq streamRound_step
               streamFinish_weak_step _ _ _ _ H). }
  split; [exact Hrange|]. split; lia.
Qed.

(** C6.  In a run of [execute] or of [executeStream], observed after any
    number of passes: the history starts with the system prompt and the
    user question; a later observation only adds messages at the end; and
    every tool message is answered, that is, the nearest assistant message
    before it has empty text and lists a request with the id the tool
    message carries, with only tool messages in between. *)
Theorem history_append_only_and_answered userMessage a :
  let seed := seedMessages getSystemPrompt userMessage in
  let buffered fuel := messages (agentOf (execute fuel userMessage a)) in
  let streamed fuel := messages (agentOf (executeStream fuel userMessage a)) in
  messages (start getSystemPrompt userMessage a) = seed /\
  (forall fuel, extends seed (buffered fuel) /\ answered (buffered fuel)) /\
  (forall fuel, extends seed (streamed fuel) /\ answered (streamed fuel)) /\
  (forall fuel1 fuel2, (fuel1 <= fuel2)%nat ->
     extends (buffered fuel1) (buffered fuel2) /\
     extends (streamed fuel1) (streamed fuel2)) /\
  (forall streaming toolCalls a0,
     messages (fst (handleToolCalls streaming toolCalls a0)) =
     messages a0 ++ roundMessages (context a0) toolCalls).
Proof.
  intros seed buffered streamed. subst buffered streamed.
  unfold Agent.execute, Agent.executeStream.
  set (a0 := start getSystemPrompt userMessage a).
  pose proof (loop_history _ _ _ executeLoop_eq executeRound_weak_step
                executeFinish_weak_step) as Hexec.
  pose proof (loop_history _ _ _ streamLoop_eq streamRound_step
                streamFinish_weak_step) as Hstream.
  split; [reflexivity|]. split; [|split; [|split]].
  - intros fuel. destruct (Hexec fuel a0) as [He Ha].
    split; [exact He | apply Ha, answered_seed].
  - intros fuel. destruct (Hstream fuel a0) as [He Ha].
    split; [exact He | apply Ha, answered_seed].
  - intros fuel1 fuel2 Hle. split.
    + apply (loop_monotone _ _ _ executeLoop_eq executeRound_weak_step
               executeFinish_weak_step); exact Hle.
    + apply (loop_monotone _ _ _ streamLoop_eq streamRound_step
               streamFinish_weak_step); exact Hle.
  - intros streaming toolCalls a1. rewrite handleToolCalls_eq. reflexivity.
Qed.

(** *** Failures of tools and of the transport *)

Lemma nth_error_combine {A B : Type} (l1 : list A) (l2 : list B) :
  forall i x y,
    nth_error l1 i = Some x -> nth_error l2 i = Some y ->
    nth_error (combine l1 l2) i = Some (x, y).
Proof.
  revert l2. induction l1 as [|a l1 IH]; intros [|b l2] [|i] x y; cbn;
    try discriminate.
  - intros [= ->] [= ->]. reflexivity.
  - apply IH.
Qed.

Lemma nth_error_toolMessages tcs rs i tc r :
  nth_error tcs i = Some tc -> nth_error rs i = Some r ->
  nth_error (toolMessages tcs rs) i = Some (toolMessage JSON_stringify tc r).
Proof.
  intros Htc Hr. unfold Agent.toolMessages.
  rewrite nth_error_map, (nth_error_combine _ _ _ _ _ Htc Hr). reflexivity.
Qed.

Lemma consumeRound_failed cs f : forall acc tc a a' e,
  consumeRound cs f acc tc a = (a', Failed e) -> f = Some e.
Proof.
  induction cs as [|c cs IH]; intros acc tc a a' e.
  - cbn. destruct f; intros [= <- <-]. reflexivity.
  - cbn [consumeRound].
    set (tc' := match chunk_tool_calls c with Some t => Some t | None => tc end).
    clearbody tc'.
    destruct (truthy_string (chunk_content c));
      (destruct (chunk_isFinished c); [|apply IH]);
      (destruct (chunk_finishReason c) as [reason|], tc' as [tcs|];
       try discriminate);
      (destruct (String.eqb reason "tool_calls"); [apply IH | discriminate]).
Qed.


Section Contract.

(** The dispatcher answers every request (section 4.2 of the design). *)
Hypothesis dispatch_length : forall tcs c,
  List.length (executeToolCalls tcs c) = List.length tcs.

Lemma handleToolCalls_ok streaming tcs a :
  handleToolCalls streaming tcs a =
  (extend (roundMessages (context a) tcs) (map toolName tcs)
          (Dispatch tcs ::
             if streaming
             then toolResultChunks tcs (executeToolCalls tcs (context a))
             else [])
          0 a,
   Return tt).
Proof.
  rewrite handleToolCalls_eq, dispatch_length, Nat.leb_refl.
  rewrite firstn_all2 by lia. reflexivity.
Qed.

(** A round of [execute] whose response is a tool-call decision. *)
Lemma executeRound_dispatch a text tcs :
  chat (modelCalls (log a)) (messages a)
       (with_tools (cfg_llmOptions a) getAllToolDefinitions) =
    Return {| resp_content := text; resp_finishReason := "tool_calls";
              resp_tool_calls := Some tcs |} ->
  executeRound a =
  (extend (roundMessages (context a) tcs) (map toolName tcs)
          [ModelCall (messages a)
             (with_tools (cfg_llmOptions a) getAllToolDefinitions);
           Dispatch tcs]
          1 a,
   Continue).
Proof.
  intros H. unfold Agent.executeRound. cbn [messages record]. rewrite H.
  cbn [resp_tool_calls resp_finishReason String.eqb Ascii.eqb Bool.eqb].
  rewrite handleToolCalls_ok. cbn [context record]. to_extend. reflexivity.
Qed.

(** A round of [executeStream] that ends with a retained, non-empty
    decision. *)
Lemma streamRound_dispatch a a1 acc tc rest :
  let options := with_tools (cfg_llmOptions a) getAllToolDefinitions in
  let s := chatStream (modelCalls (log a)) (messages a) options in
  let tcs := tc :: rest in
  consumeRound (chunks s) (failure s) "" None
    (record (ModelCall (messages a) options) a) =
    (a1, Exhausted acc (Some tcs)) ->
  context a1 = context a /\
  streamRound a =
  (extend (roundMessages (context a) tcs) (map toolName tcs)
          (map (fun tc => Emit (toolStartChunk (context a) tc)) tcs ++
           Dispatch tcs ::
           toolResultChunks tcs (executeToolCalls tcs (context a)))
          1 a1,
   Continue).
Proof.
  intros options s tcs H.
  assert (Hctx : context a1 = context a).
  { apply consumeRound_extend in H as (acts & -> & _). reflexivity. }
  split; [exact Hctx|].
  unfold Agent.streamRound. cbn [messages record]. fold options. fold s.
  rewrite H. subst tcs. cbv beta iota.
  rewrite announceToolCalls_eq, handleToolCalls_ok.
  cbn [context extend]. rewrite Hctx. to_extend. reflexivity.
Qed.

Section Transport.

(** The transport does not fail. *)
Hypothesis chat_returns : forall n h o, exists response, chat n h o = Return response.
Hypothesis stream_intact : forall n h o, failure (chatStream n h o) = None.

Lemma executeRound_no_raise a a' e : executeRound a <> (a', Raise e).
Proof.
  unfold Agent.executeRound. cbn [messages record].
  destruct (chat_returns (modelCalls (log a)) (messages a)
              (with_tools (cfg_llmOptions a) getAllToolDefinitions))
    as [response ->].
  destruct (resp_tool_calls response); [|discriminate].
  destruct (String.eqb _ _); [|discriminate].
  rewrite handleToolCalls_ok. discriminate.
Qed.

Lemma executeFinish_no_throw a a' e : executeFinish a <> (a', Throw e).
Proof.
  unfold Agent.executeFinish. cbn [messages record push_message cfg_llmOptions].
  destruct (chat_returns (modelCalls (log (push_message forcedFinishMessage a)))
              (messages a ++ [forcedFinishMessage]) (cfg_llmOptions a))
    as [response ->].
  discriminate.
Qed.

Lemma streamRound_no_raise a a' e : streamRound a <> (a', Raise e).
Proof.
  unfold Agent.streamRound. cbn [messages record].
  set (options := with_tools (cfg_llmOptions a) getAllToolDefinitions).
  destruct (consumeRound _ _ _ _ _) as [a1 [text | acc tcs | e1]] eqn:Hc.
  - discriminate.
  - destruct tcs as [[|tc rest]|]; try discriminate.
    rewrite handleToolCalls_ok. discriminate.
  - apply consumeRound_failed in Hc. rewrite stream_intact in Hc. discriminate.
Qed.

Lemma streamFinish_no_throw a a' e : streamFinish a <> (a', Throw e).
Proof.
  unfold Agent.streamFinish. cbn [messages record push_message cfg_llmOptions].
  set (s := chatStream _ _ _).
  destruct (consumeFinal_eq (chunks s) (failure s) ""
              (record (ModelCall (messages a ++ [forcedFinishMessage])
                         (cfg_llmOptions a))
                 (push_message forcedFinishMessage a)))
    as (acts & _ & ->).
  unfold s. rewrite stream_intact. discriminate.
Qed.

Lemma executeLoop_no_throw fuel a a' e :
  executeLoop fuel a <> Completed a' (Throw e).
Proof.
  revert a' e.
  apply (loop_ind _ _ _ executeLoop_eq
           (fun _ s => forall a' e, s <> Completed a' (Throw e))).
  - discriminate.
  - discriminate.
  - intros a0 a1 e0 _ H. apply executeRound_no_raise in H. contradiction.
  - intros a0 a1 s _ _ IH. exact IH.
  - intros a0 a1 c _ H a' e [= <- ->].
    apply executeFinish_no_throw in H. contradiction.
Qed.

Lemma streamLoop_no_throw fuel a a' e :
  streamLoop fuel a <> Completed a' (Throw e).
Proof.
  revert a' e.
  apply (loop_ind _ _ _ streamLoop_eq
           (fun _ s => forall a' e, s <> Completed a' (Throw e))).
  - discriminate.
  - discriminate.
  - intros a0 a1 e0 _ H. apply streamRound_no_raise in H. contradiction.
  - intros a0 a1 s _ _ IH. exact IH.
  - intros a0 a1 c _ H a' e [= <- ->].
    apply streamFinish_no_throw in H. contradiction.
Qed.

Lemma executeLoop_returns a :
  exists a' r,
    executeLoop (Z.to_nat (cfg_maxToolRounds a - toolRounds a)) a =
    Completed a' (Return r).
Proof.
  destruct (executeLoop_completes _ a (Nat.le_refl _)) as (a' & c & H & _).
  destruct c as [r | e].
  - exists a', r. exact H.
  - apply executeLoop_no_throw in H. contradiction.
Qed.

End Transport.

End Contract.

Lemma get_set_prop k v props :
  get_prop k (set_prop k v props) = Some v /\
  (forall k', k' <> k -> get_prop k' (set_prop k v props) = get_prop k' props).
Proof.
  induction props as [|[k0 v0] props [IHsame IHother]]; cbn.
  - rewrite String.eqb_refl. split; [reflexivity|].
    intros k' Hk'. destruct (String.eqb_spec k k'); [congruence | reflexivity].
  - destruct (String.eqb_spec k0 k) as [-> | Hne]; cbn.
    + rewrite String.eqb_refl. split; [reflexivity|].
      intros k' Hk'. destruct (String.eqb_spec k k'); [congruence | reflexivity].
    + destruct (String.eqb_spec k0 k) as [|_]; [contradiction|].
      split; [exact IHsame|].
      intros k' Hk'. destruct (String.eqb_spec k0 k'); [reflexivity|].
      apply IHother, Hk'.
Qed.

Lemma set_prop_fresh k v props :
  get_prop k props = None -> set_prop k v props = props ++ [(k, v)].
Proof.
  induction props as [|[k0 v0] props IH]; cbn; [reflexivity|].
  destruct (String.eqb k0 k); [discriminate|].
  intros H. rewrite (IH H). reflexivity.
Qed.

(** C5.  In a round of [executeStream] whose stream ends with a retained,
    non-empty list of tool calls, and with a dispatcher that answers every
    request, what the round adds to the log after reading the stream is:
    one tool_start chunk per call, in order, with the name of the tool and
    its [toolStartParams]; then the call of [executeToolCalls]; then one
    tool_result chunk per call, in order, with the payload or the error
    text.  The parameters of a call are the value its arguments parse to
    (an empty text parsing as an empty object), and are undefined when the
    arguments do not parse.  For the two message tools in a context with a
    time filter they are an object with the properties of that value and
    the filter under [_timeFilter]: when the arguments parse to an object
    with no such property, its properties in their order followed by
    [_timeFilter]. *)
Theorem tool_events_in_order a a1 acc tc rest :
  let options := with_tools (cfg_llmOptions a) getAllToolDefinitions in
  let s := chatStream (modelCalls (log a)) (messages a) options in
  let tcs := tc :: rest in
  let results := executeToolCalls tcs (context a) in
  (forall tcs c, List.length (executeToolCalls tcs c) = List.length tcs) ->
  consumeRound (chunks s) (failure s) "" None
    (record (ModelCall (messages a) options) a) =
    (a1, Exhausted acc (Some tcs)) ->
  (exists a2,
     streamRound a = (a2, Continue) /\
     log a2 =
       log a1 ++
       map (fun tc => Emit (tool_start (toolName tc)
                              (toolStartParams JSON_parse (context a) tc))) tcs ++
       Dispatch tcs ::
       map (fun p => Emit (tool_result (toolName (fst p))
                             match snd p with
                             | ToolSuccess r => inl r
                             | ToolFailure e => inr e
                             end))
           (combine tcs results)) /\
  List.length (combine tcs results) = List.length tcs /\
  (forall tc,
     let parsed :=
       JSON_parse (if String.eqb (arguments (function tc)) "" then "{}"
                   else arguments (function tc)) in
     (parsed = None -> toolStartParams JSON_parse (context a) tc = None) /\
     (forall v, parsed = Some v ->
        (forall f,
           timeFilter (context a) = Some f ->
           toolName tc = "search_messages" \/ toolName tc = "get_recent_messages" ->
           exists merged,
             toolStartParams JSON_parse (context a) tc = Some (JObject merged) /\
             get_prop "_timeFilter" merged = Some (json_of_timeFilter f) /\
             (forall k, k <> "_timeFilter" ->
                get_prop k merged = get_prop k (ownProps v)) /\
             (forall props,
                v = JObject props ->
                (forall k, k <> "_timeFilter" ->
                   get_prop k merged = get_prop k props) /\
                (get_prop "_timeFilter" props = None ->
                 merged = props ++ [("_timeFilter", json_of_timeFilter f)]))) /\
        (timeFilter (context a) = None \/
         (toolName tc <> "search_messages" /\
          toolName tc <> "get_recent_messages") ->
         toolStartParams JSON_parse (context a) tc = Some v))).
Proof.
  intros options s tcs results Hlen H. split; [|split].
  - destruct (streamRound_dispatch Hlen a a1 acc tc rest H) as [_ ->].
    eexists. split; [reflexivity|]. reflexivity.
  - rewrite length_combine. unfold results. rewrite Hlen. lia.
  - intros tc0 parsed. subst parsed. unfold Agent.toolStartParams.
    destruct (JSON_parse _) as [v|]; split; try reflexivity; try discriminate.
    intros v0 [= <-]. split.
    + intros f -> Hname. unfold toolName in Hname.
      assert (Hb : String.eqb (name (function tc0)) "search_messages"
                   || String.eqb (name (function tc0)) "get_recent_messages"
                   = true).
      { destruct Hname as [-> | ->]; reflexivity. }
      rewrite Hb. eexists. split; [reflexivity|].
      destruct (get_set_prop "_timeFilter" (json_of_timeFilter f) (ownProps v))
        as [Hsame Hother].
      split; [exact Hsame|]. split; [exact Hother|].
      intros props ->. cbn [ownProps] in *. split; [exact Hother|].
      apply set_prop_fresh.
    + intros [-> | [H1 H2]]; [reflexivity|].
      destruct (timeFilter (context a)); [|reflexivity].
      unfold toolName in H1, H2.
      destruct (String.eqb_spec (name (function tc0)) "search_messages");
        [contradiction|].
      destruct (String.eqb_spec (name (function tc0)) "get_recent_messages");
        [contradiction|].
      reflexivity.
Qed.

End Run.

(** *** A stream without a usable decision *)

Section Spinning.

Variable chatStream : nat -> list ChatMessage -> ChatOptions -> ChatStream.
Variable getAllToolDefinitions : list ToolDefinition.
Variable executeToolCalls : list ToolCall -> ToolContext -> list ToolExecutionResult.
Variable JSON_parse : string -> option Json.
Variable JSON_stringify : Json -> string.

Local Abbreviation streamRound :=
  (streamRound chatStream getAllToolDefinitions executeToolCalls JSON_parse
     JSON_stringify).
Local Abbreviation streamLoop :=
  (streamLoop chatStream getAllToolDefinitions executeToolCalls JSON_parse
     JSON_stringify).

(** Every pass calls the model and leaves the round counter as it was. *)
Hypothesis idle_round : forall a,
  exists acts,
    streamRound a = (extend [] [] acts 0 a, Continue) /\
    modelCalls acts = 1%nat.

Lemma streamLoop_spins fuel : forall a,
  toolRounds a < cfg_maxToolRounds a ->
  exists a',
    streamLoop fuel a = Running a' /\
    modelCalls (log a') = (modelCalls (log a) + fuel)%nat /\
    toolRounds a' = toolRounds a.
Proof.
  induction fuel as [|fuel IH]; intros a Hlt; rewrite streamLoop_eq;
    destruct (Z.ltb_spec (toolRounds a) (cfg_maxToolRounds a)); try lia.
  - exists a. repeat split. lia.
  - destruct (idle_round a) as (acts & -> & Hacts).
    destruct (IH (extend [] [] acts 0 a)) as (a' & -> & Hcalls & Hrounds).
    { cbn [toolRounds cfg_maxToolRounds extend]. lia. }
    exists a'. split; [reflexivity|].
    cbn [log toolRounds extend] in Hcalls, Hrounds.
    rewrite modelCalls_app in Hcalls. lia.
Qed.

End Spinning.

Import Scenarios MoreScenarios.

Lemma failingDispatcher_length tcs c :
  List.length (failingDispatcher tcs c) = List.length tcs.
Proof. apply length_map. Defined.

(** The streaming scenarios of the design, run on the model. *)
Example stream_hi :
  exists a',
    executeStream hiStream [] failingDispatcher parseObjects stringifyNull
      "system prompt" 1 "question" (new_Agent plainContext emptyConfig) =
    Completed a' (Return {| res_content := "Hi"; res_toolsUsed := [];
                            res_toolRounds := 0 |}) /\
    chunksOf (log a') = [content_chunk "Hi"; done_chunk].
Proof. eexists. split; vm_compute; reflexivity. Qed.

Example stream_one_tool :
  exists a',
    executeStream oneToolStream [] failingDispatcher parseObjects stringifyNull
      "system prompt" 2 "question" (new_Agent plainContext emptyConfig) =
    Completed a' (Return {| res_content := "Done";
                            res_toolsUsed := ["search_messages"];
                            res_toolRounds := 1 |}) /\
    chunksOf (log a') =
      [tool_start "search_messages" (Some (JObject []));
       tool_result "search_messages" (inr "unknown tool search_messages");
       content_chunk "Done"; done_chunk].
Proof. eexists. split; vm_compute; reflexivity. Qed.

(** C1, amended, on a model that always asks for a tool, with two rounds
    allowed. *)
Lemma toolRounds_within_maximum_witness :
  res_toolRounds
    {| res_content := "";
       res_toolsUsed := ["search_messages"; "search_messages"];
       res_toolRounds := 2 |}
  <= cfg_maxToolRounds (new_Agent plainContext twoRounds).
Proof.
  refine (proj1 (proj2
            (toolRounds_within_maximum alwaysTools silentStream []
               failingDispatcher parseObjects stringifyNull "system prompt" 2
               "question" (new_Agent plainContext twoRounds) _ _ (or_introl _)))
            _).
  - vm_compute. reflexivity.
  - vm_compute. discriminate.
Defined.

(** C1 as stated fails: with a maximum of -1 both loops are skipped, and
    the result of the forced finish reports 0 rounds, which is more than
    the maximum. *)
Lemma negative_maximum_exceeded :
  let a := new_Agent plainContext negativeRounds in
  cfg_maxToolRounds a = -1 /\
  (exists a' r,
     execute alwaysTools [] failingDispatcher stringifyNull "system prompt" 0
       "question" a = Completed a' (Return r) /\
     res_toolRounds r = 0 /\
     ~ res_toolRounds r <= cfg_maxToolRounds a) /\
  (exists a' r,
     executeStream hiStream [] failingDispatcher parseObjects stringifyNull
       "system prompt" 0 "question" a = Completed a' (Return r) /\
     res_toolRounds r = 0 /\
     ~ res_toolRounds r <= cfg_maxToolRounds a).
Proof.
  split; [reflexivity|].
  split; eexists _, _; (split; [vm_compute; reflexivity|]);
    (split; [reflexivity|]); cbn; lia.
Qed.

(** C4 as stated fails: the model asks for a tool in every response, two
    rounds are allowed, and the content returned is the empty text of the
    last response. *)
Lemma forced_finish_content_empty :
  (forall n h o, exists text tcs,
     alwaysTools n h o =
     Return {| resp_content := text; resp_finishReason := "tool_calls";
               resp_tool_calls := Some tcs |}) /\
  exists a' r,
    execute alwaysTools [] failingDispatcher stringifyNull "system prompt"
      2 "question" (new_Agent plainContext twoRounds) =
      Completed a' (Return r) /\
    res_toolRounds r = 2 /\
    modelCalls (log a') = 3%nat /\
    res_content r = "".
Proof.
  split.
  - intros n h o. eexists _, _. reflexivity.
  - eexists _, _. split; [vm_compute; reflexivity|]. repeat split.
Qed.

(** C5 on a round whose stream is one final chunk with four calls, in a
    context with a time filter: a search with keywords and a limit, a call
    of the other message tool with empty arguments, a call of another tool,
    and a call whose arguments do not parse. *)
Lemma tool_events_in_order_witness :
  let a := start "system prompt" "question" (new_Agent filteredContext emptyConfig) in
  let request := ModelCall (messages a) (with_tools defaultLlmOptions []) in
  let filter := ("_timeFilter", json_of_timeFilter january2024) in
  exists a2,
    streamRound fourToolsStream [] failingDispatcher parseArguments
      stringifyNull a = (a2, Continue) /\
    log a2 =
      [request;
       Emit (tool_start "search_messages"
               (Some (JObject [("keywords", JArray [JString "lunch"]);
                               ("limit", JNumber 5); filter])));
       Emit (tool_start "get_recent_messages" (Some (JObject [filter])));
       Emit (tool_start "get_member_stats" (Some (JObject [])));
       Emit (tool_start "get_time_stats" None);
       Dispatch [lunchCall; recentCall; memberCall; garbledCall];
       Emit (tool_result "search_messages" (inr "unknown tool search_messages"));
       Emit (tool_result "get_recent_messages"
               (inr "unknown tool get_recent_messages"));
       Emit (tool_result "get_member_stats" (inr "unknown tool get_member_stats"));
       Emit (tool_result "get_time_stats" (inr "unknown tool get_time_stats"))].
Proof.
  exact (proj1 (tool_events_in_order fourToolsStream [] failingDispatcher
                  parseArguments stringifyNull
                  (start "system prompt" "question"
                     (new_Agent filteredContext emptyConfig))
                  _ "" lunchCall [recentCall; memberCall; garbledCall]
                  failingDispatcher_length eq_refl)).
Defined.

(** C6 on the run of the always-asking model, observed after one and after
    two passes. *)
Lemma history_append_only_and_answered_witness :
  let a := new_Agent plainContext twoRounds in
  extends
    (messages (agentOf (execute alwaysTools [] failingDispatcher stringifyNull
                          "system prompt" 1 "question" a)))
    (messages (agentOf (execute alwaysTools [] failingDispatcher stringifyNull
                          "system prompt" 2 "question" a))) /\
  extends
    (messages (agentOf (executeStream toolsThenTextStream [] failingDispatcher
                          parseObjects stringifyNull "system prompt" 1
                          "question" a)))
    (messages (agentOf (executeStream toolsThenTextStream [] failingDispatcher
                          parseObjects stringifyNull "system prompt" 2
                          "question" a))).
Proof.
  exact (proj1 (proj2 (proj2 (proj2
           (history_append_only_and_answered alwaysTools toolsThenTextStream []
              failingDispatcher parseObjects stringifyNull "system prompt"
              "question" (new_Agent plainContext twoRounds)))))
           1%nat 2%nat ltac:(lia)).
Defined.

(** C2, at the failing input.  With the default configuration and a model
    stream that ends each round on a final chunk with an empty list of tool
    calls, or on text with no final chunk, [executeStream] is still in its
    loop after any number of passes, with one model call made per pass and
    no round counted. *)
Theorem executeStream_spins tools executeToolCalls JSON_parse JSON_stringify
    systemPrompt context userMessage fuel :
  (exists a',
     executeStream emptyDecisionStream tools executeToolCalls JSON_parse
       JSON_stringify systemPrompt fuel userMessage
       (new_Agent context emptyConfig) = Running a' /\
     modelCalls (log a') = fuel /\ toolRounds a' = 0) /\
  (exists a',
     executeStream unmarkedStream tools executeToolCalls JSON_parse
       JSON_stringify systemPrompt fuel userMessage
       (new_Agent context emptyConfig) = Running a' /\
     modelCalls (log a') = fuel /\ toolRounds a' = 0).
Proof.
  split; unfold executeStream.
  - apply (streamLoop_spins emptyDecisionStream); [|cbn; lia].
    intros a. eexists. split.
    + unfold streamRound. cbn. to_extend. reflexivity.
    + reflexivity.
  - apply (streamLoop_spins unmarkedStream); [|cbn; lia].
    intros a. eexists. split.
    + unfold streamRound. cbn. to_extend. reflexivity.
    + reflexivity.
Qed.

End AgentProofs.

(** ** Further properties of the query tools *)
Module ToolExtras.

Import JsDate Tools More DateProofs ToolProofs Scenarios MoreScenarios.

(** *** Limits *)



(** *** Windows *)

Lemma MakeDay_date Y mn d : MakeDay Y mn d = MakeDay Y mn 1 + (d - 1).
Proof. unfold MakeDay. lia. Qed.

Lemma MakeDay_month_shift Y m k d : MakeDay Y (m + 12 * k) d = MakeDay (Y + k) m d.
Proof.
  unfold MakeDay.
  replace (m + 12 * k) with (m + k * 12) by lia.
  rewrite Z.div_add, Z.mod_add by lia.
  replace (Y + (m / 12 + k)) with (Y + k + m / 12) by lia. reflexivity.
Qed.

Lemma seconds_between offset a b :
  (b * 1000 - offset) / 1000 - (a * 1000 - offset) / 1000 = b - a.
Proof. Z.div_mod_to_equations. lia. Qed.

Section FixedOffset.

Variable LocalTZA : Z -> Z.
Variable offset : Z.

(** The host keeps one offset from UTC all year. *)
Hypothesis fixed : forall t, LocalTZA t = offset.

Lemma window_fixed from to :
  window LocalTZA (from * 1000) (to * 1000) =
  Some {| startTs := (from * 1000 - offset) / 1000;
          endTs := (to * 1000 - offset) / 1000 |}.
Proof. unfold window, UTC. rewrite !fixed. reflexivity. Qed.

Lemma localTime_seconds y m d h mi s :
  localTime y m d h mi s =
  (MakeDay (MakeFullYear y) m d * 86400 + h * 3600 + mi * 60 + s) * 1000.
Proof.
  unfold localTime, MakeDate, MakeTime, msPerDay, msPerHour, msPerMinute,
    msPerSecond. lia.
Qed.

(** X2.  On a host with a fixed offset from UTC the window of a year and a month
    1..12 spans the days of that month less one second, and the window of a
    year alone the days of that year less one second, for both message
    tools. *)
Theorem window_lengths kws lim glim ctx y :
  y <> 0 ->
  let Y := MakeFullYear y in
  (forall m, 1 <= m <= 12 ->
     exists f,
       searchFilter LocalTZA kws lim ctx (Some y) (Some m) = Some f /\
       recentFilter LocalTZA glim ctx (Some y) (Some m) = Some f /\
       endTs f - startTs f = DaysInMonth Y (m - 1) * 86400 - 1) /\
  (exists f,
     searchFilter LocalTZA kws lim ctx (Some y) None = Some f /\
     recentFilter LocalTZA glim ctx (Some y) None = Some f /\
     endTs f - startTs f = DaysInYear Y * 86400 - 1).
Proof.
  intros Hy Y. split.
  - intros m Hm. rewrite searchFilter_eq, recentFilter_eq.
    rewrite effective_year_month by lia.
    rewrite !localTime_seconds, window_fixed.
    eexists. split; [reflexivity|]. split; [reflexivity|].
    cbn [startTs endTs]. rewrite seconds_between. fold Y.
    rewrite (MakeDay_day_zero Y m Hm), (MakeDay_date Y (m - 1) (DaysInMonth _ _)).
    lia.
  - rewrite searchFilter_eq, recentFilter_eq.
    rewrite effective_year_only by exact Hy.
    rewrite !localTime_seconds, window_fixed.
    eexists. split; [reflexivity|]. split; [reflexivity|].
    cbn [startTs endTs]. rewrite seconds_between. fold Y.
    pose proof (DayFromYear_step Y) as Hstep.
    unfold MakeDay. change (11 / 12) with 0. change (0 / 12) with 0.
    change (11 mod 12) with 11. change (0 mod 12) with 0.
    rewrite (Z.add_0_r Y). cbn [monthStart]. unfold DaysInYear in *.
    destruct (isLeapYear Y); lia.
Qed.

End FixedOffset.

Lemma window_lengths_witness :
  exists f,
    searchFilter utc8 ["lunch"] None plainContext (Some 2024) (Some 2) = Some f /\
    recentFilter utc8 None plainContext (Some 2024) (Some 2) = Some f /\
    endTs f - startTs f = 29 * 86400 - 1.
Proof.
  exact (proj1 (window_lengths utc8 28800000 (fun t => eq_refl) ["lunch"] None
                  None plainContext 2024 ltac:(lia)) 2 ltac:(lia)).
Defined.

Section AnyHost.

Variable LocalTZA : Z -> Z.

(** X3.  A month beyond 1..12 is not rejected: month [m + 12 k], with [m] in
    1..12, gives the window of month [m] of the year [k] years later (or
    earlier, for a negative [k]), for both message tools. *)
Theorem month_wraps_into_other_years kws lim glim ctx y m k :
  y <> 0 -> 1 <= m <= 12 -> m + 12 * k <> 0 ->
  let Y := MakeFullYear y + k in
  exists from to,
    civil from = ymd_hms Y m 1 0 0 0 /\
    civil to = ymd_hms Y m (DaysInMonth Y (m - 1)) 23 59 59 /\
    searchFilter LocalTZA kws lim ctx (Some y) (Some (m + 12 * k)) =
      window LocalTZA from to /\
    recentFilter LocalTZA glim ctx (Some y) (Some (m + 12 * k)) =
      window LocalTZA from to.
Proof.
  intros Hy Hm Hk Y.
  exists (localTime y (m + 12 * k - 1) 1 0 0 0),
         (localTime y (m + 12 * k) 0 23 59 59).
  rewrite searchFilter_eq, recentFilter_eq.
  rewrite !effective_year_month by assumption.
  pose proof (DaysInMonth_pos Y (m - 1)) as Hd.
  unfold localTime, ymd_hms.
  replace (m + 12 * k - 1) with (m - 1 + 12 * k) by lia.
  rewrite !MakeDay_month_shift. fold Y.
  split; [apply civil_MakeDate; lia|].
  split; [|split; reflexivity].
  rewrite MakeDay_day_zero by exact Hm. apply civil_MakeDate; lia.
Qed.

(** X4.  A year 1..99 is read as 1901..1999: the window of such a year alone is
    the calendar year 1900 + year, for both message tools. *)
Theorem two_digit_year_is_1900s kws lim glim ctx y :
  1 <= y <= 99 ->
  exists from to,
    civil from = ymd_hms (1900 + y) 1 1 0 0 0 /\
    civil to = ymd_hms (1900 + y) 12 31 23 59 59 /\
    searchFilter LocalTZA kws lim ctx (Some y) None = window LocalTZA from to /\
    recentFilter LocalTZA glim ctx (Some y) None = window LocalTZA from to.
Proof.
  intros Hy.
  exists (localTime y 0 1 0 0 0), (localTime y 11 31 23 59 59).
  destruct (year_window_civil y) as [Hfrom Hto].
  assert (Hfull : MakeFullYear y = 1900 + y).
  { unfold MakeFullYear.
    destruct (Z.leb_spec 0 y); [|lia]. destruct (Z.leb_spec y 99); [|lia].
    reflexivity. }
  rewrite Hfull in Hfrom, Hto.
  rewrite searchFilter_eq, recentFilter_eq, !effective_year_only by lia.
  repeat split; assumption.
Qed.

End AnyHost.

Lemma month_wraps_into_other_years_witness :
  exists from to,
    civil from = ymd_hms 2025 1 1 0 0 0 /\
    civil to = ymd_hms 2025 1 31 23 59 59 /\
    searchFilter utc8 ["lunch"] None plainContext (Some 2024) (Some 13) =
      window utc8 from to /\
    recentFilter utc8 None plainContext (Some 2024) (Some 13) =
      window utc8 from to.
Proof.
  exact (month_wraps_into_other_years utc8 ["lunch"] None None plainContext
           2024 1 1 ltac:(lia) ltac:(lia) ltac:(lia)).
Defined.

Lemma two_digit_year_is_1900s_witness :
  exists from to,
    civil from = ymd_hms 1924 1 1 0 0 0 /\
    civil to = ymd_hms 1924 12 31 23 59 59 /\
    searchFilter utc8 ["lunch"] None plainContext (Some 24) None =
      window utc8 from to /\
    recentFilter utc8 None plainContext (Some 24) None = window utc8 from to.
Proof.
  exact (two_digit_year_is_1900s utc8 ["lunch"] None None plainContext 24
           ltac:(lia)).
Defined.

(** *** Statistics *)

Section Peak.

Variable A : Type.
Variable count : A -> Z.

Local Abbreviation pick :=
  (fun max curr : A => if count curr >? count max then curr else max).

Lemma fold_pick xs : forall pre p post,
  (forall y, In y pre -> count y < count p) ->
  (forall y, In y post -> count y <= count p) ->
  exists pre' post',
    pre ++ p :: post ++ xs = pre' ++ fold_left pick xs p :: post' /\
    (forall y, In y pre' -> count y < count (fold_left pick xs p)) /\
    (forall y, In y post' -> count y <= count (fold_left pick xs p)).
Proof.
  induction xs as [|x xs IH]; intros pre p post Hpre Hpost.
  - exists pre, post. rewrite app_nil_r. auto.
  - cbn [fold_left].
    change (pick p x) with (if count x >? count p then x else p).
    destruct (Z.gtb_spec (count x) (count p)) as [Hgt | Hle].
    + destruct (IH (pre ++ p :: post) x []) as (pre' & post' & Heq & H1 & H2).
      * intros y Hy. apply in_app_or in Hy as [Hy | [<- | Hy]].
        -- specialize (Hpre y Hy). lia.
        -- lia.
        -- specialize (Hpost y Hy). lia.
      * intros y [].
      * exists pre', post'. split; [|split; assumption].
        rewrite <- Heq. cbn [app]. rewrite <- !app_assoc. reflexivity.
    + destruct (IH pre p (post ++ [x])) as (pre' & post' & Heq & H1 & H2).
      * exact Hpre.
      * intros y Hy. apply in_app_or in Hy as [Hy | [<- | []]].
        -- apply Hpost, Hy.
        -- lia.
      * exists pre', post'. split; [|split; assumption].
        rewrite <- Heq. rewrite <- !app_assoc. reflexivity.
Qed.

(** [reduce] with [pick] on a non-empty array returns its first entry of
    the largest count. *)
Lemma reduce1_pick l :
  l <> [] ->
  exists pre p post,
    l = pre ++ p :: post /\
    reduce1 pick l = Return p /\
    (forall y, In y pre -> count y < count p) /\
    (forall y, In y post -> count y <= count p).
Proof.
  destruct l as [|x xs]; [congruence|]. intros _.
  destruct (fold_pick xs [] x []) as (pre' & post' & Heq & H1 & H2);
    try (intros y []).
  exists pre', (fold_left pick xs x), post'.
  split; [exact Heq|]. split; [reflexivity|]. split; assumption.
Qed.

End Peak.

Section Stats.

Variable getHourlyActivity : string -> option TimeFilter -> list HourlyActivity.
Variable getWeekdayActivity : string -> option TimeFilter -> list WeekdayActivity.
Variable getDailyActivity : string -> option TimeFilter -> list DailyActivity.

Local Abbreviation run :=
  (getTimeStatsExecutor getHourlyActivity getWeekdayActivity getDailyActivity).

(** X5.  With type 'hourly' or 'weekday' and a data store that returns entries,
    the peak reported is the first entry with the largest message count:
    the entries before it have fewer messages, those after it no more. *)
Theorem peak_is_first_maximum ctx :
  (forall l, getHourlyActivity (sessionId ctx) (timeFilter ctx) = l -> l <> [] ->
     exists pre p post,
       l = pre ++ p :: post /\
       (forall y, In y pre -> h_messageCount y < h_messageCount p) /\
       (forall y, In y post -> h_messageCount y <= h_messageCount p) /\
       run hourly ctx =
         Return (HourlyReply
                   (map (fun h => ((string_of_Z (hour h) ++ ":00")%string,
                                   h_messageCount h)) l)
                   (string_of_Z (hour p) ++ ":00")%string
                   (h_messageCount p))) /\
  (forall l, getWeekdayActivity (sessionId ctx) (timeFilter ctx) = l -> l <> [] ->
     exists pre p post,
       l = pre ++ p :: post /\
       (forall y, In y pre -> w_messageCount y < w_messageCount p) /\
       (forall y, In y post -> w_messageCount y <= w_messageCount p) /\
       run weekday_ ctx =
         Return (WeekdayReply
                   (map (fun w => (index weekdayNames (weekday w),
                                   w_messageCount w)) l)
                   (index weekdayNames (weekday p))
                   (w_messageCount p))).
Proof.
  split; intros l Hl Hne.
  - destruct (reduce1_pick _ h_messageCount l Hne)
      as (pre & p & post & Heq & Hred & Hpre & Hpost).
    exists pre, p, post. repeat (split; [assumption|]).
    unfold getTimeStatsExecutor. rewrite Hl.
    cbv zeta in Hred. rewrite Hred. reflexivity.
  - destruct (reduce1_pick _ w_messageCount l Hne)
      as (pre & p & post & Heq & Hred & Hpre & Hpost).
    exists pre, p, post. repeat (split; [assumption|]).
    unfold getTimeStatsExecutor. rewrite Hl.
    cbv zeta in Hred. rewrite Hred. reflexivity.
Qed.

Lemma fold_left_sum (l : list DailyActivity) : forall a,
  fold_left (fun sum d => sum + d_messageCount d) l a =
  a + sumZ (map d_messageCount l).
Proof.
  unfold sumZ.
  induction l as [|d l IH]; intros a; cbn [fold_left map fold_right]; [lia|].
  rewrite IH. lia.
Qed.

(** X6.  With type 'daily' the executor never throws.  It reports the last 30
    entries of the data store, or all of them when there are fewer, in
    order, with their number and the sum of their message counts; the
    average is NaN exactly when the store returns no entry, and is otherwise
    the integer nearest to the mean, halves going up. *)
Theorem daily_reports_last_thirty ctx :
  let l := getDailyActivity (sessionId ctx) (timeFilter ctx) in
  exists older recent average,
    l = older ++ recent /\
    List.length recent = Nat.min 30 (List.length l) /\
    run daily ctx =
      Return (DailyReply (Z.of_nat (List.length recent))
                (sumZ (map d_messageCount recent)) average
                (map (fun d => (date d, d_messageCount d)) recent)) /\
    (average = None <-> l = []) /\
    (forall v, average = Some v ->
       let n := Z.of_nat (List.length recent) in
       let total := sumZ (map d_messageCount recent) in
       2 * total - n < 2 * n * v <= 2 * total + n).
Proof.
  intros l.
  set (recent := slice_last 30 l).
  exists (firstn (List.length l - 30) l), recent,
    (round_div (sumZ (map d_messageCount recent)) (Z.of_nat (List.length recent))).
  assert (Hlen : List.length recent = Nat.min 30 (List.length l)).
  { unfold recent, slice_last. rewrite length_skipn. lia. }
  split; [symmetry; apply firstn_skipn|]. split; [exact Hlen|].
  split.
  { unfold getTimeStatsExecutor. fold l. fold recent.
    rewrite fold_left_sum. reflexivity. }
  clearbody recent. clearbody l.
  set (n := Z.of_nat (List.length recent)) in *.
  set (t := sumZ (map d_messageCount recent)). clearbody t.
  assert (Hn : n = 0 <-> l = []).
  { split.
    - intros Hz. destruct l as [|d l']; [reflexivity|].
      cbn [List.length] in Hlen. lia.
    - intros ->. cbn [List.length] in Hlen. lia. }
  unfold round_div. destruct (Z.eqb_spec n 0) as [Hz | Hnz]; split.
  - split; [intros _; apply Hn, Hz | reflexivity].
  - discriminate.
  - split; [discriminate|]. intros Hl. apply Hn in Hl. contradiction.
  - intros v Hv.
    assert (Hq : v = (2 * t + n) / (2 * n)) by congruence. subst v.
    assert (Hpos : 0 < n) by lia.
    pose proof (Z.div_mod (2 * t + n) (2 * n) ltac:(lia)) as Hdm.
    pose proof (Z.mod_pos_bound (2 * t + n) (2 * n) ltac:(lia)) as Hb.
    nia.
Qed.

End Stats.

Lemma peak_is_first_maximum_witness :
  exists pre p post,
    sampleHours "session-1" None = pre ++ p :: post /\
    (forall y, In y pre -> h_messageCount y < h_messageCount p) /\
    (forall y, In y post -> h_messageCount y <= h_messageCount p) /\
    getTimeStatsExecutor sampleHours sampleWeekdays sampleDays hourly
      plainContext =
      Return (HourlyReply [("9:00", 12); ("13:00", 40); ("21:00", 40)]
                (string_of_Z (hour p) ++ ":00")%string (h_messageCount p)).
Proof.
  exact (proj1 (peak_is_first_maximum sampleHours sampleWeekdays sampleDays
                  plainContext) _ eq_refl ltac:(discriminate)).
Defined.

(** *** Member statistics *)

Lemma map_indexed_nth {A B : Type} (f : A -> Z -> B) (l : list A) :
  forall k i,
    nth_error (map_indexed f k l) i =
    option_map (fun x => f x (k + Z.of_nat i)) (nth_error l i).
Proof.
  induction l as [|x l IH]; intros k [|i]; cbn [map_indexed nth_error option_map];
    try reflexivity.
  - rewrite Z.add_0_r. reflexivity.
  - rewrite IH. destruct (nth_error l i); cbn; [|reflexivity].
    do 2 f_equal. lia.
Qed.

Lemma map_indexed_length {A B : Type} (f : A -> Z -> B) (l : list A) :
  forall k, List.length (map_indexed f k l) = List.length l.
Proof. induction l as [|x l IH]; intros k; cbn; [|rewrite IH]; reflexivity. Qed.

Lemma nth_error_firstn_Some {A : Type} (l : list A) : forall n i x,
  nth_error (firstn n l) i = Some x -> nth_error l i = Some x.
Proof.
  induction l as [|y l IH]; intros [|n] [|i] x; cbn; try discriminate; auto.
  apply IH.
Qed.

Section Members.

Variable getMemberActivity : string -> option TimeFilter -> list MemberActivity.
Variable numberToString : Q -> string.

(** X7.  The reply of [getMemberStatsExecutor] counts all members of the data
    store, whatever [top_n]; it lists the first [top_n] of them (10 when
    [top_n] is absent or 0, all but the last [-top_n] when it is negative),
    never more than there are, in the order of the store, ranked 1, 2, 3
    and so on. *)
Theorem member_stats_top_n top_n ctx :
  let l := getMemberActivity (sessionId ctx) (timeFilter ctx) in
  let reply := getMemberStatsExecutor getMemberActivity numberToString top_n ctx in
  let shown := List.length (topMembers reply) in
  totalMembers reply = Z.of_nat (List.length l) /\
  (top_n = None \/ top_n = Some 0 -> shown = Nat.min 10 (List.length l)) /\
  (forall n, top_n = Some n -> 0 < n ->
     shown = Nat.min (Z.to_nat n) (List.length l)) /\
  (forall n, top_n = Some n -> n < 0 ->
     shown = (List.length l - Z.to_nat (- n))%nat) /\
  (forall i r, nth_error (topMembers reply) i = Some r ->
     exists m,
       nth_error l i = Some m /\
       r = {| rank := Z.of_nat i + 1; rm_name := ma_name m;
              rm_messageCount := ma_messageCount m;
              rm_percentage := (numberToString (ma_percentage m) ++ "%")%string |}).
Proof.
  intros l reply shown. subst shown reply.
  unfold getMemberStatsExecutor. fold l. cbn [totalMembers topMembers].
  rewrite map_indexed_length.
  split; [reflexivity|]. split; [|split; [|split]].
  - intros [-> | ->]; cbn; apply length_firstn.
  - intros n -> Hn. cbn [or_default].
    destruct (Z.eqb_spec n 0); [lia|]. unfold slice_to.
    destruct (Z.ltb_spec n 0); [lia|]. apply length_firstn.
  - intros n -> Hn. cbn [or_default].
    destruct (Z.eqb_spec n 0); [lia|]. unfold slice_to.
    destruct (Z.ltb_spec n 0); [|lia]. rewrite length_firstn. lia.
  - intros i r. rewrite map_indexed_nth.
    destruct (nth_error (slice_to _ l) i) as [m|] eqn:Hm; [|discriminate].
    cbn [option_map]. intros [= <-]. exists m. split; [|f_equal; lia].
    unfold slice_to in Hm.
    destruct (_ <? 0); eapply nth_error_firstn_Some; exact Hm.
Qed.

End Members.

Lemma member_stats_top_n_witness :
  List.length (topMembers (getMemberStatsExecutor sampleMembers showPercentage
                             None plainContext)) = 3%nat /\
  List.length (topMembers (getMemberStatsExecutor sampleMembers showPercentage
                             (Some 2) plainContext)) = 2%nat /\
  List.length (topMembers (getMemberStatsExecutor sampleMembers showPercentage
                             (Some (-1)) plainContext)) = 2%nat.
Proof.
  split; [|split].
  - exact (proj1 (proj2 (member_stats_top_n sampleMembers showPercentage None
                           plainContext)) (or_introl eq_refl)).
  - exact (proj1 (proj2 (proj2 (member_stats_top_n sampleMembers showPercentage
                                  (Some 2) plainContext))) 2 eq_refl ltac:(lia)).
  - exact (proj1 (proj2 (proj2 (proj2
             (member_stats_top_n sampleMembers showPercentage (Some (-1))
                plainContext)))) (-1) eq_refl ltac:(lia)).
Defined.

(** *** Replies of the message tools *)

Section Replies.

Variable LocalTZA : Z -> Z.
Variable toLocaleDateString : Z -> string.
Variable toLocaleString : Z -> string.
Variable searchMessages :
  string -> list string -> option TimeFilter -> Z -> Z -> MessagesResult.
Variable getRecentMessages : string -> option TimeFilter -> Z -> MessagesResult.

Lemma effective_none year month ctx :
  effectiveTimeFilter LocalTZA year month ctx = None <->
  truthy year = false /\ ctx = None.
Proof.
  unfold effectiveTimeFilter. destruct (truthy year).
  - destruct (truthy month); split; try discriminate; intros [? _]; discriminate.
  - split; [intros ->; split; reflexivity | intros [_ ->]; reflexivity].
Qed.

Lemma formatTimeRange_all f :
  formatTimeRange toLocaleDateString f = AllTime <-> f = None.
Proof. destruct f; split; try discriminate; reflexivity. Qed.

(** X8.  The reply of both message tools shows the time range of the filter that
    was passed to the data store: it is '全部时间' exactly when the call
    carries no year (or the year 0) and the context has no filter, and the
    range of the context filter when the call carries no year and the
    context has one.  The count [returned] is the number of messages
    listed. *)
Theorem reply_shows_effective_range sp rp ctx :
  let sr := searchMessagesExecutor LocalTZA toLocaleDateString toLocaleString
              searchMessages sp ctx in
  let rr := getRecentMessagesExecutor LocalTZA toLocaleDateString toLocaleString
              getRecentMessages rp ctx in
  (timeRange sr = AllTime <-> truthy (s_year sp) = false /\ timeFilter ctx = None) /\
  (timeRange rr = AllTime <-> truthy (g_year rp) = false /\ timeFilter ctx = None) /\
  (forall f, timeFilter ctx = Some f ->
     (truthy (s_year sp) = false ->
      timeRange sr = Range (toLocaleDateString (startTs f * 1000))
                           (toLocaleDateString (endTs f * 1000))) /\
     (truthy (g_year rp) = false ->
      timeRange rr = Range (toLocaleDateString (startTs f * 1000))
                           (toLocaleDateString (endTs f * 1000)))) /\
  returned sr = Z.of_nat (List.length (messages sr)) /\
  returned rr = Z.of_nat (List.length (messages rr)).
Proof.
  intros sr rr. subst sr rr.
  unfold searchMessagesExecutor, getRecentMessagesExecutor, searchFilter,
    recentFilter, searchMessagesExecutor_call, getRecentMessagesExecutor_call.
  cbn [timeRange returned messages total sc_filter rc_filter sc_sessionId
       sc_keywords sc_limit sc_offset rc_sessionId rc_limit keywords s_limit
       s_year s_month g_limit g_year g_month].
  rewrite !length_map.
  split; [rewrite formatTimeRange_all; apply effective_none|].
  split; [rewrite formatTimeRange_all; apply effective_none|].
  split; [|repeat split].
  intros f Hf. unfold effectiveTimeFilter. rewrite Hf.
  split; intros ->; reflexivity.
Qed.

End Replies.

End ToolExtras.

(** ** Further properties of the agent *)
Module AgentExtras.

Import Tools Agent More AgentProofs Scenarios MoreScenarios.

(** *** Logs *)

Lemma dispatched_app l1 l2 : dispatched (l1 ++ l2) = dispatched l1 ++ dispatched l2.
Proof.
  induction l1 as [|[h o | tcs | c] l1 IH]; cbn; rewrite ?IH; reflexivity.
Qed.

Lemma chunksOf_app l1 l2 : chunksOf (l1 ++ l2) = chunksOf l1 ++ chunksOf l2.
Proof.
  induction l1 as [|[h o | tcs | c] l1 IH]; cbn; rewrite ?IH; reflexivity.
Qed.

Lemma chunksOf_emitted cks : chunksOf (map Emit cks) = cks.
Proof. induction cks as [|c cks IH]; cbn; [|rewrite IH]; reflexivity. Qed.

Lemma dispatched_emitted cks : dispatched (map Emit cks) = [].
Proof. induction cks as [|c cks IH]; cbn; [|rewrite IH]; reflexivity. Qed.

Lemma modelCalls_emitted cks : modelCalls (map Emit cks) = 0%nat.
Proof. induction cks as [|c cks IH]; [reflexivity|]. exact IH. Qed.

Lemma emitted_emits cks : Forall (fun a => isEmit a = true) (map Emit cks).
Proof. induction cks; constructor; [reflexivity | assumption]. Qed.

Lemma textOf_app c1 c2 : textOf (c1 ++ c2) = (textOf c1 ++ textOf c2)%string.
Proof.
  induction c1 as [|c c1 IH]; [reflexivity|].
  destruct c; cbn; rewrite ?IH, ?append_assoc; reflexivity.
Qed.

Lemma textChunks_regular cks : textChunks cks -> Forall regularChunk cks.
Proof.
  induction 1 as [|c cks (t & -> & Ht) _ IH]; constructor; [exact Ht | exact IH].
Qed.

Lemma textChunks_not_done cks : textChunks cks -> Forall (fun c => isDone c = false) cks.
Proof.
  induction 1 as [|c cks (t & -> & Ht) _ IH]; constructor; [reflexivity | exact IH].
Qed.

Lemma truthy_string_text (o : option string) :
  truthy_string o = true ->
  exists t, o = Some t /\ t <> "".
Proof.
  destruct o as [t|]; [|discriminate]. cbn.
  destruct (String.eqb_spec t ""); [discriminate|]. intros _. exists t. auto.
Qed.

Lemma truthy_string_none (o : option string) :
  truthy_string o = false -> match o with Some t => t | None => "" end = "".
Proof.
  destruct o as [t|]; [|reflexivity]. cbn.
  destruct (String.eqb_spec t ""); [intros _; assumption | discriminate].
Qed.

Lemma streamedText_cons c cs :
  streamedText (c :: cs) =
  (match chunk_content c with Some t => t | None => "" end ++ streamedText cs)%string.
Proof. cbn. destruct (chunk_content c); reflexivity. Qed.

(** *** Reading a stream *)

(** What the [for await] of a round has done when it ends: the text chunks
    it handed on, the text it accumulated, and, when it read the stream to
    its end, the decision it retained. *)
Lemma consumeRound_spec cs f : forall acc tc a a' ending,
  consumeRound cs f acc tc a = (a', ending) ->
  exists cks,
    textChunks cks /\
    match ending with
    | Returned text =>
        a' = extend [] [] (map Emit (cks ++ [done_chunk])) 0 a /\
        text = (acc ++ textOf cks)%string
    | Exhausted text d =>
        a' = extend [] [] (map Emit cks) 0 a /\
        text = (acc ++ textOf cks)%string /\
        textOf cks = streamedText cs /\
        d = lastDecision cs tc /\ f = None
    | Failed e =>
        a' = extend [] [] (map Emit cks) 0 a /\ f = Some e
    end.
Proof.
  induction cs as [|c cs IH]; intros acc tc a a' ending.
  - cbn. destruct f; intros [= <- <-]; exists []; (split; [constructor|]);
      rewrite extend_nothing, ?append_empty_r; repeat split; reflexivity.
  - cbn [consumeRound]. rewrite streamedText_cons.
    change (lastDecision (c :: cs) tc)
      with (lastDecision cs match chunk_tool_calls c with
                            | Some t => Some t | None => tc end).
    set (tc' := match chunk_tool_calls c with Some t => Some t | None => tc end).
    clearbody tc'.
    destruct (truthy_string (chunk_content c)) eqn:Htruthy.
    + destruct (truthy_string_text _ Htruthy) as (t & Hc & Ht). rewrite Hc.
      assert (Hrec : forall a1 e1,
                 consumeRound cs f (acc ++ t)%string tc'
                   (onChunk (content_chunk t) a) = (a1, e1) ->
                 exists cks,
                   textChunks cks /\
                   match e1 with
                   | Returned text =>
                       a1 = extend [] [] (map Emit (cks ++ [done_chunk])) 0 a /\
                       text = (acc ++ textOf cks)%string
                   | Exhausted text d =>
                       a1 = extend [] [] (map Emit cks) 0 a /\
                       text = (acc ++ textOf cks)%string /\
                       textOf cks = (t ++ streamedText cs)%string /\
                       d = lastDecision cs tc' /\ f = None
                   | Failed e => a1 = extend [] [] (map Emit cks) 0 a /\ f = Some e
                   end).
      { intros a1 e1 H. apply IH in H as (cks & Hcks & H).
        exists (content_chunk t :: cks).
        split; [constructor; [exists t; auto | exact Hcks]|].
        destruct e1 as [text | text d | e].
        - destruct H as [-> ->]. to_extend. cbn [textOf].
          rewrite append_assoc. split; reflexivity.
        - destruct H as (-> & -> & Htext & Hd & Hf). to_extend. cbn [textOf].
          rewrite append_assoc, Htext. repeat split; assumption.
        - destruct H as [-> Hf]. to_extend. split; [reflexivity | exact Hf]. }
      assert (Hret : forall a1 e1,
                 (onChunk done_chunk (onChunk (content_chunk t) a),
                  Returned (acc ++ t)%string) = (a1, e1) ->
                 exists cks,
                   textChunks cks /\
                   match e1 with
                   | Returned text =>
                       a1 = extend [] [] (map Emit (cks ++ [done_chunk])) 0 a /\
                       text = (acc ++ textOf cks)%string
                   | Exhausted text d =>
                       a1 = extend [] [] (map Emit cks) 0 a /\
                       text = (acc ++ textOf cks)%string /\
                       textOf cks = (t ++ streamedText cs)%string /\
                       d = lastDecision cs tc' /\ f = None
                   | Failed e => a1 = extend [] [] (map Emit cks) 0 a /\ f = Some e
                   end).
      { intros a1 e1 [= <- <-]. exists [content_chunk t].
        split; [constructor; [exists t; auto | constructor]|].
        to_extend. cbn [textOf]. rewrite append_empty_r. split; reflexivity. }
      destruct (chunk_isFinished c); [|apply Hrec].
      destruct (chunk_finishReason c) as [reason|], tc' as [tcs|];
        try apply Hret.
      destruct (String.eqb reason "tool_calls"); [apply Hrec | apply Hret].
    + rewrite (truthy_string_none _ Htruthy).
      change ("" ++ streamedText cs)%string with (streamedText cs).
      assert (Hret : forall a1 e1,
                 (onChunk done_chunk a, Returned acc) = (a1, e1) ->
                 exists cks,
                   textChunks cks /\
                   match e1 with
                   | Returned text =>
                       a1 = extend [] [] (map Emit (cks ++ [done_chunk])) 0 a /\
                       text = (acc ++ textOf cks)%string
                   | Exhausted text d =>
                       a1 = extend [] [] (map Emit cks) 0 a /\
                       text = (acc ++ textOf cks)%string /\
                       textOf cks = streamedText cs /\
                       d = lastDecision cs tc' /\ f = None
                   | Failed e => a1 = extend [] [] (map Emit cks) 0 a /\ f = Some e
                   end).
      { intros a1 e1 [= <- <-]. exists []. split; [constructor|].
        to_extend. cbn [textOf]. rewrite append_empty_r. split; reflexivity. }
      destruct (chunk_isFinished c); [|apply IH].
      destruct (chunk_finishReason c) as [reason|], tc' as [tcs|];
        try apply Hret.
      destruct (String.eqb reason "tool_calls"); [apply IH | apply Hret].
Qed.

(** The chunks of the last stream: its text chunks, and one done chunk for
    each finished chunk of the stream. *)
Lemma consumeFinal_spec cs f : forall acc a,
  exists cks,
    Forall regularChunk cks /\
    List.length (filter isDone cks) = List.length (filter chunk_isFinished cs) /\
    consumeFinal cs f acc a =
    (extend [] [] (map Emit cks) 0 a,
     match f with
     | Some e => Throw e
     | None => Return (acc ++ textOf cks)%string
     end).
Proof.
  induction cs as [|c cs IH]; intros acc a.
  - exists []. split; [constructor|]. split; [reflexivity|]. cbn.
    rewrite extend_nothing, append_empty_r. destruct f; reflexivity.
  - cbn [consumeFinal filter].
    destruct (truthy_string (chunk_content c)) eqn:Htruthy.
    + destruct (truthy_string_text _ Htruthy) as (t & Hc & Ht). rewrite Hc.
      destruct (chunk_isFinished c).
      * destruct (IH (acc ++ t)%string
                     (onChunk done_chunk (onChunk (content_chunk t) a)))
          as (cks & Hreg & Hdone & ->).
        exists (content_chunk t :: done_chunk :: cks).
        split; [repeat (constructor; [cbn; auto|]); exact Hreg|].
        split; [cbn; rewrite Hdone; reflexivity|].
        to_extend. cbn [textOf]. rewrite append_assoc. reflexivity.
      * destruct (IH (acc ++ t)%string (onChunk (content_chunk t) a))
          as (cks & Hreg & Hdone & ->).
        exists (content_chunk t :: cks).
        split; [constructor; [exact Ht | exact Hreg]|].
        split; [exact Hdone|].
        to_extend. cbn [textOf]. rewrite append_assoc. reflexivity.
    + destruct (chunk_isFinished c).
      * destruct (IH acc (onChunk done_chunk a)) as (cks & Hreg & Hdone & ->).
        exists (done_chunk :: cks).
        split; [constructor; [exact I | exact Hreg]|].
        split; [cbn; rewrite Hdone; reflexivity|].
        to_extend. reflexivity.
      * destruct (IH acc a) as (cks & Hreg & Hdone & ->).
        exists cks. split; [exact Hreg|]. split; [exact Hdone | reflexivity].
Qed.

Section Run.

Variable chat : nat -> list ChatMessage -> ChatOptions -> Completion ChatResponse.
Variable chatStream : nat -> list ChatMessage -> ChatOptions -> ChatStream.
Variable getAllToolDefinitions : list ToolDefinition.
Variable executeToolCalls : list ToolCall -> ToolContext -> list ToolExecutionResult.
Variable JSON_parse : string -> option Json.
Variable JSON_stringify : Json -> string.
Variable getSystemPrompt : string.

Local Abbreviation toolMessages := (toolMessages JSON_stringify).
Local Abbreviation roundMessages := (roundMessages executeToolCalls JSON_stringify).
Local Abbreviation handleToolCalls := (handleToolCalls executeToolCalls JSON_stringify).
Local Abbreviation executeRound :=
  (executeRound chat getAllToolDefinitions executeToolCalls JSON_stringify).
Local Abbreviation executeFinish := (executeFinish chat).
Local Abbreviation executeLoop :=
  (executeLoop chat getAllToolDefinitions executeToolCalls JSON_stringify).
Local Abbreviation execute :=
  (execute chat getAllToolDefinitions executeToolCalls JSON_stringify getSystemPrompt).
Local Abbreviation toolStartChunk := (toolStartChunk JSON_parse).
Local Abbreviation streamRound :=
  (streamRound chatStream getAllToolDefinitions executeToolCalls JSON_parse
     JSON_stringify).
Local Abbreviation streamFinish := (streamFinish chatStream).
Local Abbreviation streamLoop :=
  (streamLoop chatStream getAllToolDefinitions executeToolCalls JSON_parse
     JSON_stringify).
Local Abbreviation executeStream :=
  (executeStream chatStream getAllToolDefinitions executeToolCalls JSON_parse
     JSON_stringify getSystemPrompt).
Local Abbreviation advertised a :=
  (with_tools (cfg_llmOptions a) getAllToolDefinitions).

(** *** What a pass does, in full *)

Lemma executeRound_facts a a' x :
  executeRound a = (a', x) ->
  exists names rest k,
    a' = extend (flat_map (roundMessages (context a)) (dispatched rest)) names
           (ModelCall (messages a) (advertised a) :: rest) k a /\
    modelCalls rest = 0%nat /\
    chunksOf rest = [] /\
    accounted x k names rest /\
    (forall r, x = Finish r ->
       res_toolRounds r = toolRounds a' /\ res_toolsUsed r = toolsUsed a').
Proof.
  unfold Agent.executeRound. cbn [messages record].
  destruct (chat _ _ _) as [response | e].
  2:{ intros [= <- <-]. to_extend. exists [], [], 0.
      split; [reflexivity|]. split; [reflexivity|]. split; [reflexivity|].
      split; [left; eexists; reflexivity | discriminate]. }
  assert (Hfin : forall a1 x1,
             (record (ModelCall (messages a) (advertised a)) a,
              Finish (result_of (resp_content response)
                        (record (ModelCall (messages a) (advertised a)) a)))
             = (a1, x1) ->
             exists names rest k,
               a1 = extend (flat_map (roundMessages (context a)) (dispatched rest))
                      names (ModelCall (messages a) (advertised a) :: rest) k a /\
               modelCalls rest = 0%nat /\ chunksOf rest = [] /\
               accounted x1 k names rest /\
               (forall r, x1 = Finish r ->
                  res_toolRounds r = toolRounds a1 /\
                  res_toolsUsed r = toolsUsed a1)).
  { intros a1 x1 [= <- <-]. to_extend. exists [], [], 0.
    split; [reflexivity|]. split; [reflexivity|]. split; [reflexivity|].
    split; [right; split; reflexivity|].
    intros r [= <-]. split; reflexivity. }
  destruct (resp_tool_calls response) as [tcs|]; [|apply Hfin].
  destruct (String.eqb _ _); [|apply Hfin].
  rewrite handleToolCalls_eq. cbn [context record].
  destruct (Nat.leb_spec (List.length tcs)
              (List.length (executeToolCalls tcs (context a)))) as [Hle | Hgt];
    [rewrite firstn_all2 by lia|]; intros [= <- <-]; to_extend.
  - exists (map toolName tcs), [Dispatch tcs], 1.
    cbn [dispatched flat_map]. rewrite app_nil_r.
    split; [reflexivity|]. split; [reflexivity|]. split; [reflexivity|].
    split; [|discriminate].
    right. split; [reflexivity|]. unfold namesOf. cbn. rewrite app_nil_r. reflexivity.
  - eexists _, [Dispatch tcs], 0.
    cbn [dispatched flat_map]. rewrite app_nil_r.
    split; [reflexivity|]. split; [reflexivity|]. split; [reflexivity|].
    split; [left; eexists; reflexivity | discriminate].
Qed.

Lemma streamRound_facts a a' x :
  streamRound a = (a', x) ->
  exists names rest k,
    a' = extend (flat_map (roundMessages (context a)) (dispatched rest)) names
           (ModelCall (messages a) (advertised a) :: rest) k a /\
    modelCalls rest = 0%nat /\
    Forall regularChunk (chunksOf rest) /\
    accounted x k names rest /\
    (forall r, x = Finish r ->
       res_toolRounds r = toolRounds a' /\ res_toolsUsed r = toolsUsed a' /\
       exists cks,
         textChunks cks /\ rest = map Emit (cks ++ [done_chunk]) /\
         res_content r = textOf cks).
Proof.
  unfold Agent.streamRound. cbn [messages record].
  set (s := chatStream _ _ _). clearbody s.
  destruct (consumeRound _ _ _ _ _) as [a1 ending] eqn:Hc.
  apply consumeRound_spec in Hc as (cks & Hcks & Hc).
  pose proof (textChunks_regular _ Hcks) as Hreg.
  destruct ending as [text | text d | e].
  - destruct Hc as [-> ->]. intros [= <- <-]. to_extend.
    exists [], (map Emit (cks ++ [done_chunk])), 0.
    unfold accounted.
    rewrite dispatched_emitted, modelCalls_emitted, chunksOf_emitted.
    split; [reflexivity|]. split; [reflexivity|].
    split; [apply Forall_app; split; [exact Hreg | repeat constructor]|].
    split; [right; split; reflexivity|].
    intros r [= <-]. split; [reflexivity|]. split; [reflexivity|].
    exists cks. split; [exact Hcks|]. split; reflexivity.
  - destruct Hc as (-> & -> & _).
    assert (Hidle : forall a1 x1,
               (extend [] [] (map Emit cks) 0
                  (record (ModelCall (messages a) (advertised a)) a), Continue)
               = (a1, x1) ->
               exists names rest k,
                 a1 = extend (flat_map (roundMessages (context a)) (dispatched rest))
                        names (ModelCall (messages a) (advertised a) :: rest) k a /\
                 modelCalls rest = 0%nat /\
                 Forall regularChunk (chunksOf rest) /\
                 accounted x1 k names rest /\
                 (forall r, x1 = Finish r ->
                    res_toolRounds r = toolRounds a1 /\
                    res_toolsUsed r = toolsUsed a1 /\
                    exists cks0,
                      textChunks cks0 /\ rest = map Emit (cks0 ++ [done_chunk]) /\
                      res_content r = textOf cks0)).
    { intros a1 x1 [= <- <-]. to_extend. exists [], (map Emit cks), 0.
      unfold accounted.
    rewrite dispatched_emitted, modelCalls_emitted, chunksOf_emitted.
      split; [reflexivity|]. split; [reflexivity|]. split; [exact Hreg|].
      split; [right; split; reflexivity | discriminate]. }
    destruct d as [[|tc rest]|]; try apply Hidle.
    rewrite announceToolCalls_eq, handleToolCalls_eq.
    cbn [context extend record].
    set (tcs := tc :: rest).
    set (rs := executeToolCalls tcs (context a)).
    set (starts := map (fun tc0 => Emit (toolStartChunk (context a) tc0)) tcs).
    assert (Hstarts : starts =
                      map Emit (map (fun tc0 => toolStartChunk (context a) tc0) tcs)).
    { unfold starts. rewrite map_map. reflexivity. }
    assert (Hresults : toolResultChunks tcs rs =
                       map Emit (map (fun p => toolResultChunk (fst p) (snd p))
                                     (combine tcs rs))).
    { unfold toolResultChunks. rewrite map_map. reflexivity. }
    assert (Hregular : Forall regularChunk
                         (cks ++
                          map (fun tc0 => toolStartChunk (context a) tc0) tcs ++
                          map (fun p => toolResultChunk (fst p) (snd p))
                              (combine tcs rs))).
    { apply Forall_app. split; [exact Hreg|]. apply Forall_app. split.
      - apply Forall_forall. intros c Hin. apply in_map_iff in Hin as (? & <- & _).
        exact I.
      - apply Forall_forall. intros c Hin. apply in_map_iff in Hin as (? & <- & _).
        exact I. }
    destruct (Nat.leb_spec (List.length tcs) (List.length rs)) as [Hle | Hgt];
      [rewrite firstn_all2 by (fold rs; lia)|]; intros [= <- <-]; to_extend.
    + exists (map toolName tcs),
        (map Emit cks ++ starts ++ Dispatch tcs :: toolResultChunks tcs rs), 1.
      unfold accounted.
      rewrite !dispatched_app, !modelCalls_app, !chunksOf_app.
      cbn [dispatched chunksOf]. rewrite modelCalls_cons. cbn [isModelCall].
      rewrite Hstarts, Hresults, !dispatched_emitted, !modelCalls_emitted,
        !chunksOf_emitted.
      cbn [app flat_map]. rewrite app_nil_r.
      split; [reflexivity|]. split; [reflexivity|]. split; [exact Hregular|].
      split; [|discriminate].
      right. split; [reflexivity|]. unfold namesOf. cbn. rewrite app_nil_r.
      reflexivity.
    + eexists _,
        (map Emit cks ++ starts ++ Dispatch tcs :: toolResultChunks tcs rs), 0.
      unfold accounted.
      rewrite !dispatched_app, !modelCalls_app, !chunksOf_app.
      cbn [dispatched chunksOf]. rewrite modelCalls_cons. cbn [isModelCall].
      rewrite Hstarts, Hresults, !dispatched_emitted, !modelCalls_emitted,
        !chunksOf_emitted.
      cbn [app flat_map]. rewrite app_nil_r.
      split; [reflexivity|]. split; [reflexivity|]. split; [exact Hregular|].
      split; [left; eexists; reflexivity | discriminate].
  - destruct Hc as [-> _]. intros [= <- <-]. to_extend.
    exists [], (map Emit cks), 0.
    unfold accounted.
    rewrite dispatched_emitted, modelCalls_emitted, chunksOf_emitted.
    split; [reflexivity|]. split; [reflexivity|]. split; [exact Hreg|].
    split; [left; eexists; reflexivity | discriminate].
Qed.

Lemma executeFinish_facts a a' c :
  executeFinish a = (a', c) ->
  exists cks,
    a' = extend [forcedFinishMessage] []
           (ModelCall (messages a ++ [forcedFinishMessage]) (cfg_llmOptions a)
              :: map Emit cks) 0 a /\
    cks = [] /\
    (forall r, c = Return r ->
       res_toolRounds r = toolRounds a' /\ res_toolsUsed r = toolsUsed a').
Proof.
  unfold Agent.executeFinish. cbn [messages record push_message cfg_llmOptions].
  destruct (chat _ _ _) as [response | e]; intros [= <- <-]; to_extend;
    exists []; (split; [reflexivity|]); (split; [reflexivity|]).
  - intros r [= <-]. split; reflexivity.
  - discriminate.
Qed.

Lemma streamFinish_facts a a' c :
  streamFinish a = (a', c) ->
  exists cks,
    a' = extend [forcedFinishMessage] []
           (ModelCall (messages a ++ [forcedFinishMessage]) (cfg_llmOptions a)
              :: map Emit cks) 0 a /\
    Forall regularChunk cks /\
    List.length (filter isDone cks) =
      List.length (filter chunk_isFinished
                     (chunks (chatStream (modelCalls (log a))
                                (messages a ++ [forcedFinishMessage])
                                (cfg_llmOptions a)))) /\
    (forall r, c = Return r ->
       res_toolRounds r = toolRounds a' /\ res_toolsUsed r = toolsUsed a' /\
       res_content r = textOf cks).
Proof.
  unfold Agent.streamFinish. cbn [messages log record push_message cfg_llmOptions].
  set (s := chatStream _ _ _).
  destruct (consumeFinal_spec (chunks s) (failure s) ""
              (record (ModelCall (messages a ++ [forcedFinishMessage])
                         (cfg_llmOptions a))
                 (push_message forcedFinishMessage a)))
    as (cks & Hreg & Hdone & ->).
  destruct (failure s); intros [= <- <-]; to_extend;
    exists cks; (split; [reflexivity|]); (split; [exact Hreg|]);
    (split; [exact Hdone|]).
  - discriminate.
  - intros r [= <-]. repeat split.
Qed.

(** *** Well-formed calls *)

Local Abbreviation wellFormedCalls :=
  (wellFormedCalls executeToolCalls JSON_stringify).

Lemma wellFormedCalls_quiet seed ctx adv fin l : forall seen,
  modelCalls l = 0%nat -> wellFormedCalls seed ctx adv fin seen l.
Proof.
  induction l as [|[h o | tcs | c] l IH]; intros seen H; cbn.
  - exact I.
  - rewrite modelCalls_cons in H. cbn in H. discriminate.
  - apply IH. rewrite modelCalls_cons in H. exact H.
  - apply IH. rewrite modelCalls_cons in H. exact H.
Qed.

Lemma wellFormedCalls_app seed ctx adv fin l1 l2 : forall seen,
  wellFormedCalls seed ctx adv fin seen l1 ->
  wellFormedCalls seed ctx adv fin (seen ++ dispatched l1) l2 ->
  wellFormedCalls seed ctx adv fin seen (l1 ++ l2).
Proof.
  induction l1 as [|[h o | tcs | c] l1 IH]; intros seen H1 H2; cbn in *.
  - rewrite app_nil_r in H2. exact H2.
  - destruct H1 as [Hcall H1]. split; [exact Hcall | apply IH; assumption].
  - apply IH; [exact H1|]. rewrite <- app_assoc. exact H2.
  - apply IH; assumption.
Qed.

(** *** The two loops, through what they have in common *)

Section Loop.

Variable round : Agent -> Agent * RoundResult.
Variable finish : Agent -> Agent * Completion AgentResult.
Variable loop : nat -> Agent -> RunState.

Hypothesis loop_eq : forall fuel a,
  loop fuel a =
  if toolRounds a <? cfg_maxToolRounds a then
    match fuel with
    | O => Running a
    | S fuel' =>
        match round a with
        | (a', Continue) => loop fuel' a'
        | (a', Finish r) => Completed a' (Return r)
        | (a', Raise e) => Completed a' (Throw e)
        end
    end
  else let (a', c) := finish a in Completed a' c.

Hypothesis round_facts : forall a a' x,
  round a = (a', x) ->
  exists names rest k,
    a' = extend (flat_map (roundMessages (context a)) (dispatched rest)) names
           (ModelCall (messages a) (advertised a) :: rest) k a /\
    modelCalls rest = 0%nat /\
    Forall regularChunk (chunksOf rest) /\
    accounted x k names rest /\
    (forall r, x = Finish r ->
       res_toolRounds r = toolRounds a' /\ res_toolsUsed r = toolsUsed a').

Hypothesis finish_facts : forall a a' c,
  finish a = (a', c) ->
  exists cks,
    a' = extend [forcedFinishMessage] []
           (ModelCall (messages a ++ [forcedFinishMessage]) (cfg_llmOptions a)
              :: map Emit cks) 0 a /\
    Forall regularChunk cks /\
    (forall r, c = Return r ->
       res_toolRounds r = toolRounds a' /\ res_toolsUsed r = toolsUsed a').

Lemma namesOf_app b1 b2 : namesOf (b1 ++ b2) = namesOf b1 ++ namesOf b2.
Proof. apply flat_map_app. Qed.

Lemma loop_accounting fuel a a' r :
  toolRounds a = Z.of_nat (List.length (dispatched (log a))) ->
  toolsUsed a = namesOf (dispatched (log a)) ->
  loop fuel a = Completed a' (Return r) ->
  res_toolRounds r = Z.of_nat (List.length (dispatched (log a'))) /\
  res_toolsUsed r = namesOf (dispatched (log a')).
Proof.
  revert a' r.
  apply (loop_ind _ _ _ loop_eq (fun a s => forall a' r,
           toolRounds a = Z.of_nat (List.length (dispatched (log a))) ->
           toolsUsed a = namesOf (dispatched (log a)) ->
           s = Completed a' (Return r) ->
           res_toolRounds r = Z.of_nat (List.length (dispatched (log a'))) /\
           res_toolsUsed r = namesOf (dispatched (log a')))).
  - discriminate.
  - intros a0 a1 r0 _ Hround a' r Hr Hn [= <- <-].
    apply round_facts in Hround
      as (names & rest & k & -> & _ & _ & Hacc & Hres).
    destruct (Hres r0 eq_refl) as [-> ->].
    destruct Hacc as [[e He] | [-> ->]]; [discriminate|].
    cbn [toolRounds toolsUsed log extend].
    rewrite dispatched_app, length_app, namesOf_app, Hr, Hn. cbn [dispatched].
    split; [lia | reflexivity].
  - discriminate.
  - intros a0 a1 s _ Hround IH a' r Hr Hn Hs.
    apply round_facts in Hround
      as (names & rest & k & -> & _ & _ & Hacc & _).
    destruct Hacc as [[e He] | [-> ->]]; [discriminate|].
    apply IH; [| |exact Hs]; cbn [toolRounds toolsUsed log extend];
      rewrite dispatched_app, ?length_app, ?namesOf_app, ?Hr, ?Hn;
      cbn [dispatched]; [lia | reflexivity].
  - intros a0 a1 c _ Hfinish a' r Hr Hn [= <- ->].
    apply finish_facts in Hfinish as (cks & -> & _ & Hres).
    destruct (Hres r eq_refl) as [-> ->].
    cbn [toolRounds toolsUsed log extend].
    rewrite dispatched_app, length_app, namesOf_app, Hr, Hn. cbn [dispatched].
    rewrite dispatched_emitted. cbn. rewrite !app_nil_r. split; [lia | reflexivity].
Qed.

Lemma loop_regular fuel a :
  Forall regularChunk (chunksOf (log a)) ->
  Forall regularChunk (chunksOf (log (agentOf (loop fuel a)))).
Proof.
  apply (loop_ind _ _ _ loop_eq (fun a s =>
           Forall regularChunk (chunksOf (log a)) ->
           Forall regularChunk (chunksOf (log (agentOf s))))).
  - intros a0 _ H. exact H.
  - intros a0 a1 r _ Hround H.
    apply round_facts in Hround as (names & rest & k & -> & _ & Hreg & _).
    cbn [agentOf log extend]. rewrite chunksOf_app. cbn [chunksOf].
    apply Forall_app. split; assumption.
  - intros a0 a1 e _ Hround H.
    apply round_facts in Hround as (names & rest & k & -> & _ & Hreg & _).
    cbn [agentOf log extend]. rewrite chunksOf_app. cbn [chunksOf].
    apply Forall_app. split; assumption.
  - intros a0 a1 s _ Hround IH H.
    apply round_facts in Hround as (names & rest & k & -> & _ & Hreg & _).
    apply IH. cbn [log extend]. rewrite chunksOf_app. cbn [chunksOf].
    apply Forall_app. split; assumption.
  - intros a0 a1 c _ Hfinish H.
    apply finish_facts in Hfinish as (cks & -> & Hreg & _).
    cbn [agentOf log extend]. rewrite chunksOf_app. cbn [chunksOf].
    rewrite chunksOf_emitted. apply Forall_app. split; assumption.
Qed.

(** The configuration and the context of the agent stay as they are. *)
Lemma loop_frame fuel a :
  context (agentOf (loop fuel a)) = context a /\
  cfg_maxToolRounds (agentOf (loop fuel a)) = cfg_maxToolRounds a /\
  cfg_llmOptions (agentOf (loop fuel a)) = cfg_llmOptions a.
Proof.
  apply (loop_ind _ _ _ loop_eq (fun a s =>
           context (agentOf s) = context a /\
           cfg_maxToolRounds (agentOf s) = cfg_maxToolRounds a /\
           cfg_llmOptions (agentOf s) = cfg_llmOptions a)).
  - intros a0 _. repeat split.
  - intros a0 a1 r _ Hround.
    apply round_facts in Hround as (names & rest & k & -> & _). repeat split.
  - intros a0 a1 e _ Hround.
    apply round_facts in Hround as (names & rest & k & -> & _). repeat split.
  - intros a0 a1 s _ Hround IH.
    apply round_facts in Hround as (names & rest & k & -> & _). exact IH.
  - intros a0 a1 c _ Hfinish.
    apply finish_facts in Hfinish as (cks & -> & _). repeat split.
Qed.

Lemma loop_wellFormed seed fuel a :
  messages a = seed ++ flat_map (roundMessages (context a)) (dispatched (log a)) ->
  wellFormedCalls seed (context a) (advertised a) (cfg_llmOptions a) [] (log a) ->
  let a' := agentOf (loop fuel a) in
  let sofar :=
    seed ++ flat_map (roundMessages (context a)) (dispatched (log a')) in
  wellFormedCalls seed (context a) (advertised a) (cfg_llmOptions a) [] (log a') /\
  (messages a' = sofar \/ messages a' = sofar ++ [forcedFinishMessage]).
Proof.
  cbv zeta.
  apply (loop_ind _ _ _ loop_eq (fun a s =>
           messages a =
             seed ++ flat_map (roundMessages (context a)) (dispatched (log a)) ->
           wellFormedCalls seed (context a) (advertised a) (cfg_llmOptions a) []
             (log a) ->
           wellFormedCalls seed (context a) (advertised a) (cfg_llmOptions a) []
             (log (agentOf s)) /\
           (messages (agentOf s) =
              seed ++ flat_map (roundMessages (context a))
                        (dispatched (log (agentOf s))) \/
            messages (agentOf s) =
              (seed ++ flat_map (roundMessages (context a))
                         (dispatched (log (agentOf s)))) ++
              [forcedFinishMessage]))).
  - intros a0 _ Hm Hw. split; [exact Hw | left; exact Hm].
  - intros a0 a1 r _ Hround Hm Hw.
    apply round_facts in Hround as (names & rest & k & -> & Hquiet & _).
    cbn [agentOf log messages extend]. split.
    + apply wellFormedCalls_app; [exact Hw|]. cbn [app wellFormedCalls More.wellFormedCalls].
      split; [left; split; [exact Hm | reflexivity]|].
      apply wellFormedCalls_quiet, Hquiet.
    + left. rewrite dispatched_app. cbn [dispatched].
      rewrite flat_map_app, Hm, app_assoc. reflexivity.
  - intros a0 a1 e _ Hround Hm Hw.
    apply round_facts in Hround as (names & rest & k & -> & Hquiet & _).
    cbn [agentOf log messages extend]. split.
    + apply wellFormedCalls_app; [exact Hw|]. cbn [app wellFormedCalls More.wellFormedCalls].
      split; [left; split; [exact Hm | reflexivity]|].
      apply wellFormedCalls_quiet, Hquiet.
    + left. rewrite dispatched_app. cbn [dispatched].
      rewrite flat_map_app, Hm, app_assoc. reflexivity.
  - intros a0 a1 s _ Hround IH Hm Hw.
    apply round_facts in Hround as (names & rest & k & -> & Hquiet & _).
    cbn [context cfg_llmOptions extend] in IH. apply IH.
    + cbn [log messages extend]. rewrite dispatched_app. cbn [dispatched].
      rewrite flat_map_app, Hm, app_assoc. reflexivity.
    + cbn [log extend]. apply wellFormedCalls_app; [exact Hw|].
      cbn [app wellFormedCalls More.wellFormedCalls].
      split; [left; split; [exact Hm | reflexivity]|].
      apply wellFormedCalls_quiet, Hquiet.
  - intros a0 a1 c _ Hfinish Hm Hw.
    apply finish_facts in Hfinish as (cks & -> & _).
    cbn [agentOf log messages extend]. split.
    + apply wellFormedCalls_app; [exact Hw|]. cbn [app wellFormedCalls More.wellFormedCalls].
      split; [right; split; [rewrite Hm; reflexivity | reflexivity]|].
      apply wellFormedCalls_quiet, modelCalls_emitted.
    + right. rewrite dispatched_app. cbn [dispatched].
      rewrite dispatched_emitted, app_nil_r, Hm. reflexivity.
Qed.

End Loop.

Lemma executeRound_common a a' x :
  executeRound a = (a', x) ->
  exists names rest k,
    a' = extend (flat_map (roundMessages (context a)) (dispatched rest)) names
           (ModelCall (messages a) (advertised a) :: rest) k a /\
    modelCalls rest = 0%nat /\
    Forall regularChunk (chunksOf rest) /\
    accounted x k names rest /\
    (forall r, x = Finish r ->
       res_toolRounds r = toolRounds a' /\ res_toolsUsed r = toolsUsed a').
Proof.
  intros H. apply executeRound_facts in H
    as (names & rest & k & Ha & Hq & Hc & Hacc & Hr).
  exists names, rest, k. rewrite Hc. repeat split; try assumption.
  - constructor.
  - apply Hr; assumption.
  - apply Hr; assumption.
Qed.

Lemma streamRound_common a a' x :
  streamRound a = (a', x) ->
  exists names rest k,
    a' = extend (flat_map (roundMessages (context a)) (dispatched rest)) names
           (ModelCall (messages a) (advertised a) :: rest) k a /\
    modelCalls rest = 0%nat /\
    Forall regularChunk (chunksOf rest) /\
    accounted x k names rest /\
    (forall r, x = Finish r ->
       res_toolRounds r = toolRounds a' /\ res_toolsUsed r = toolsUsed a').
Proof.
  intros H. apply streamRound_facts in H
    as (names & rest & k & Ha & Hq & Hc & Hacc & Hr).
  exists names, rest, k. repeat split; try assumption.
  - apply Hr; assumption.
  - apply Hr; assumption.
Qed.

Lemma executeFinish_common a a' c :
  executeFinish a = (a', c) ->
  exists cks,
    a' = extend [forcedFinishMessage] []
           (ModelCall (messages a ++ [forcedFinishMessage]) (cfg_llmOptions a)
              :: map Emit cks) 0 a /\
    Forall regularChunk cks /\
    (forall r, c = Return r ->
       res_toolRounds r = toolRounds a' /\ res_toolsUsed r = toolsUsed a').
Proof.
  intros H. apply executeFinish_facts in H as (cks & Ha & -> & Hr).
  exists []. split; [exact Ha|]. split; [constructor | exact Hr].
Qed.

Lemma streamFinish_common a a' c :
  streamFinish a = (a', c) ->
  exists cks,
    a' = extend [forcedFinishMessage] []
           (ModelCall (messages a ++ [forcedFinishMessage]) (cfg_llmOptions a)
              :: map Emit cks) 0 a /\
    Forall regularChunk cks /\
    (forall r, c = Return r ->
       res_toolRounds r = toolRounds a' /\ res_toolsUsed r = toolsUsed a').
Proof.
  intros H. apply streamFinish_facts in H as (cks & Ha & Hreg & _ & Hr).
  exists cks. split; [exact Ha|]. split; [exact Hreg|].
  intros r Hc. destruct (Hr r Hc) as (H1 & H2 & _). split; assumption.
Qed.

(** *** The buffered run *)

Lemma executeLoop_silent fuel a :
  chunksOf (log a) = [] -> chunksOf (log (agentOf (executeLoop fuel a))) = [].
Proof.
  apply (loop_ind _ _ _ (executeLoop_eq chat getAllToolDefinitions
                           executeToolCalls JSON_stringify)
           (fun a s => chunksOf (log a) = [] -> chunksOf (log (agentOf s)) = [])).
  - intros a0 _ H. exact H.
  - intros a0 a1 r _ Hround H.
    apply executeRound_facts in Hround as (names & rest & k & -> & _ & Hc & _).
    cbn [agentOf log extend]. rewrite chunksOf_app, H. exact Hc.
  - intros a0 a1 e _ Hround H.
    apply executeRound_facts in Hround as (names & rest & k & -> & _ & Hc & _).
    cbn [agentOf log extend]. rewrite chunksOf_app, H. exact Hc.
  - intros a0 a1 s _ Hround IH H.
    apply executeRound_facts in Hround as (names & rest & k & -> & _ & Hc & _).
    apply IH. cbn [log extend]. rewrite chunksOf_app, H. exact Hc.
  - intros a0 a1 c _ Hfinish H.
    apply executeFinish_facts in Hfinish as (cks & -> & -> & _).
    cbn [agentOf log extend]. rewrite chunksOf_app, H. reflexivity.
Qed.

(** X9.  [execute] always completes: whatever the model and the dispatcher do,
    it returns or throws within [maxToolRounds] passes through its loop,
    having called the model at most once more than that, and it hands no
    chunk to anyone. *)
Theorem execute_terminates userMessage a spare :
  exists a' c,
    execute (Z.to_nat (cfg_maxToolRounds a) + spare) userMessage a =
      Completed a' c /\
    (modelCalls (log a') <= Z.to_nat (cfg_maxToolRounds a) + 1)%nat /\
    chunksOf (log a') = [].
Proof.
  unfold Agent.execute.
  set (a0 := start getSystemPrompt userMessage a).
  destruct (executeLoop_completes chat getAllToolDefinitions executeToolCalls
              JSON_stringify (Z.to_nat (cfg_maxToolRounds a) + spare) a0)
    as (a' & c & Hrun & Hcalls).
  { cbn [cfg_maxToolRounds toolRounds a0 start]. lia. }
  exists a', c. split; [exact Hrun|]. split.
  - cbn [cfg_maxToolRounds toolRounds log a0 start] in Hcalls.
    rewrite Z.sub_0_r in Hcalls. exact Hcalls.
  - pose proof (executeLoop_silent (Z.to_nat (cfg_maxToolRounds a) + spare) a0
                  eq_refl) as Hs.
    rewrite Hrun in Hs. exact Hs.
Qed.

(** *** Direct answers, empty budgets, failing transports *)


(** X11.  With a maximum of tool rounds of 0 or less no call is made with
    the tools of the registry added: the only model call of the run is the
    one of the forced finish, with the seed and the forced-finish message
    and the configured options as they are, and nothing is dispatched.  The
    model is then offered tools only when the configured options themselves
    carry some; the options of a configuration that gives none are the
    default ones, which carry no tools. *)
Theorem empty_budget_skips_tools userMessage a fuel :
  cfg_maxToolRounds a <= 0 ->
  let asked :=
    ModelCall (seedMessages getSystemPrompt userMessage ++ [forcedFinishMessage])
      (cfg_llmOptions a) in
  (exists a' c,
     execute fuel userMessage a = Completed a' c /\ log a' = [asked]) /\
  (exists a' c,
     executeStream fuel userMessage a = Completed a' c /\
     callsOf (log a') = [asked]) /\
  (forall a',
     a' = agentOf (execute fuel userMessage a) \/
     a' = agentOf (executeStream fuel userMessage a) ->
     dispatched (log a') = [] /\
     forall h o, In (ModelCall h o) (log a') ->
       o = cfg_llmOptions a /\ tools o = tools (cfg_llmOptions a)) /\
  (forall context limit,
     cfg_llmOptions
       (new_Agent context {| maxToolRounds := limit; llmOptions := None |})
     = defaultLlmOptions /\
     tools defaultLlmOptions = None).
Proof.
  intros HM asked.
  assert (Hbuffered : exists a' c,
             execute fuel userMessage a = Completed a' c /\ log a' = [asked]).
  { unfold Agent.execute. set (a0 := start getSystemPrompt userMessage a).
    rewrite executeLoop_eq.
    destruct (Z.ltb_spec (toolRounds a0) (cfg_maxToolRounds a0)) as [Hlt | _];
      [cbn in Hlt; lia|].
    destruct (executeFinish a0) as [a' c] eqn:E.
    apply executeFinish_facts in E as (cks & -> & -> & _).
    eexists _, _. split; reflexivity. }
  assert (Hstreamed : exists a' c cks,
             executeStream fuel userMessage a = Completed a' c /\
             log a' = asked :: map Emit cks).
  { unfold Agent.executeStream. set (a0 := start getSystemPrompt userMessage a).
    rewrite streamLoop_eq.
    destruct (Z.ltb_spec (toolRounds a0) (cfg_maxToolRounds a0)) as [Hlt | _];
      [cbn in Hlt; lia|].
    destruct (streamFinish a0) as [a' c] eqn:E.
    apply streamFinish_facts in E as (cks & -> & _).
    eexists _, _, cks. split; reflexivity. }
  split; [exact Hbuffered|]. split; [|split].
  - destruct Hstreamed as (a' & c & cks & Hrun & Hlog).
    exists a', c. split; [exact Hrun|]. rewrite Hlog, callsOf_cons.
    cbn [isEmit]. rewrite (callsOf_emits _ (emitted_emits cks)). reflexivity.
  - intros a' [-> | ->].
    + destruct Hbuffered as (a1 & c & -> & Hlog). cbn [agentOf]. rewrite Hlog.
      split; [reflexivity|].
      intros h o [[= _ <-] | []]. split; reflexivity.
    + destruct Hstreamed as (a1 & c & cks & -> & Hlog). cbn [agentOf].
      rewrite Hlog. split; [cbn [dispatched]; apply dispatched_emitted|].
      intros h o [[= _ <-] | Hin]; [split; reflexivity|].
      apply in_map_iff in Hin as (ck & Hck & _). discriminate Hck.
  - intros context limit. split; reflexivity.
Qed.

Lemma consumeRound_unfinished cs f : forall acc tc a,
  Forall (fun c => chunk_isFinished c = false) cs ->
  forall text, snd (consumeRound cs f acc tc a) <> Returned text.
Proof.
  induction cs as [|c cs IH]; intros acc tc a Hcs text.
  - cbn. destruct f; discriminate.
  - inversion Hcs as [|? ? Hc Hrest]; subst. cbn [consumeRound]. rewrite Hc.
    destruct (truthy_string (chunk_content c)); apply IH; exact Hrest.
Qed.

(** X12.  A failure of the transport in the first model call ends the run with
    that error: the model is not called again, nothing is dispatched and
    the history stays the seed.  In streaming mode the text that arrived
    before the failure has been handed on, and no done chunk follows. *)
Theorem transport_failure_ends_run userMessage a fuel e :
  0 < cfg_maxToolRounds a ->
  let seed := seedMessages getSystemPrompt userMessage in
  (chat 0%nat seed (advertised a) = Throw e ->
   exists a',
     execute (S fuel) userMessage a = Completed a' (Throw e) /\
     messages a' = seed /\
     log a' = [ModelCall seed (advertised a)]) /\
  (let s := chatStream 0%nat seed (advertised a) in
   failure s = Some e ->
   Forall (fun c => chunk_isFinished c = false) (chunks s) ->
   exists a' cks,
     executeStream (S fuel) userMessage a = Completed a' (Throw e) /\
     messages a' = seed /\
     textChunks cks /\
     log a' = ModelCall seed (advertised a) :: map Emit cks).
Proof.
  intros HM seed. split.
  - intros Hchat. unfold Agent.execute.
    set (a0 := start getSystemPrompt userMessage a).
    rewrite executeLoop_eq.
    destruct (Z.ltb_spec (toolRounds a0) (cfg_maxToolRounds a0)) as [_ | Hge];
      [|cbn in Hge; lia].
    unfold Agent.executeRound. cbn [messages record].
    change (chat _ _ _) with (chat 0%nat seed (advertised a)). rewrite Hchat.
    eexists. split; [reflexivity|]. split; reflexivity.
  - intros s Hf Hunfinished. unfold Agent.executeStream.
    set (a0 := start getSystemPrompt userMessage a).
    rewrite streamLoop_eq.
    destruct (Z.ltb_spec (toolRounds a0) (cfg_maxToolRounds a0)) as [_ | Hge];
      [|cbn in Hge; lia].
    unfold Agent.streamRound. cbn [messages record].
    change (chatStream _ _ _) with s.
    destruct (consumeRound (chunks s) (failure s) "" None
                (record (ModelCall (messages a0) (advertised a0)) a0))
      as [a1 ending] eqn:Hc.
    pose proof (consumeRound_unfinished (chunks s) (failure s) "" None
                  (record (ModelCall (messages a0) (advertised a0)) a0)
                  Hunfinished) as Hnot.
    rewrite Hc in Hnot. cbn in Hnot.
    apply consumeRound_spec in Hc as (cks & Hcks & Hc).
    destruct ending as [text | text d | e'].
    + exfalso. apply (Hnot text). reflexivity.
    + destruct Hc as (_ & _ & _ & _ & Hnone). congruence.
    + destruct Hc as [-> He]. assert (e' = e) by congruence. subst e'.
      exists (extend [] [] (map Emit cks) 0
                (record (ModelCall (messages a0) (advertised a0)) a0)), cks.
      split; [reflexivity|]. split; [reflexivity|].
      split; [exact Hcks | reflexivity].
Qed.

(** *** Accounting, chunks, calls *)

(** X13.  Whenever a run returns a result, its [toolRounds] is the number of
    batches of tool calls the run dispatched, and its [toolsUsed] lists the
    tool name of every dispatched call, batch after batch in the order of
    the requests, a tool called twice being listed twice. *)
Theorem result_accounts_for_dispatches fuel userMessage a a' r :
  execute fuel userMessage a = Completed a' (Return r) \/
  executeStream fuel userMessage a = Completed a' (Return r) ->
  res_toolRounds r = Z.of_nat (List.length (dispatched (log a'))) /\
  res_toolsUsed r = namesOf (dispatched (log a')).
Proof.
  intros [H | H].
  - refine (loop_accounting _ _ _ (executeLoop_eq chat getAllToolDefinitions
                                     executeToolCalls JSON_stringify)
              executeRound_common executeFinish_common _ _ _ _ _ _ H);
      reflexivity.
  - refine (loop_accounting _ _ _ (streamLoop_eq chatStream getAllToolDefinitions
                                     executeToolCalls JSON_parse JSON_stringify)
              streamRound_common streamFinish_common _ _ _ _ _ _ H);
      reflexivity.
Qed.

(** X14.  A streaming run, observed after any number of passes, has handed on no
    error chunk and no content chunk with empty text. *)
Theorem only_regular_chunks fuel userMessage a :
  Forall regularChunk
    (chunksOf (log (agentOf (executeStream fuel userMessage a)))).
Proof.
  apply (loop_regular _ _ _ (streamLoop_eq chatStream getAllToolDefinitions
                               executeToolCalls JSON_parse JSON_stringify)
           streamRound_common streamFinish_common).
  constructor.
Qed.

Lemma wellFormedCalls_options seed ctx adv fin l : forall seen h o,
  wellFormedCalls seed ctx adv fin seen l ->
  In (ModelCall h o) l -> o = adv \/ o = fin.
Proof.
  induction l as [|[h0 o0 | tcs | c] l IH]; intros seen h o Hwf Hin; cbn in Hwf.
  - destruct Hin.
  - destruct Hwf as [Hhead Hrest]. destruct Hin as [[= <- <-] | Hin].
    + destruct Hhead as [[_ ->] | [_ ->]]; [left | right]; reflexivity.
    + apply (IH seen h o Hrest Hin).
  - destruct Hin as [Hin | Hin]; [discriminate|]. apply (IH _ h o Hwf Hin).
  - destruct Hin as [Hin | Hin]; [discriminate|]. apply (IH _ h o Hwf Hin).
Qed.

(** X15.  In every model call of a run, observed after any number of passes, the
    history passed is the seed followed, for each batch of tool calls
    dispatched before the call, by its assistant message and its tool
    messages; the calls of the loop advertise the tools of the registry,
    the call of the forced finish adds the forced-finish message and passes
    the configured options as they are, so that every call carries the
    tools of the registry or those of the configured options, if any.  The
    history of the agent has the same shape. *)
Theorem model_sees_whole_history fuel userMessage a :
  let seed := seedMessages getSystemPrompt userMessage in
  let shape a' :=
    let sofar :=
      seed ++ flat_map (roundMessages (context a)) (dispatched (log a')) in
    wellFormedCalls seed (context a) (advertised a) (cfg_llmOptions a) [] (log a')
    /\ (messages a' = sofar \/ messages a' = sofar ++ [forcedFinishMessage])
    /\ (forall h o, In (ModelCall h o) (log a') ->
          (o = advertised a /\ tools o = Some getAllToolDefinitions) \/
          (o = cfg_llmOptions a /\ tools o = tools (cfg_llmOptions a))) in
  shape (agentOf (execute fuel userMessage a)) /\
  shape (agentOf (executeStream fuel userMessage a)).
Proof.
  intros seed shape. subst shape. cbv beta.
  assert (Hoptions : forall l,
             wellFormedCalls seed (context a) (advertised a) (cfg_llmOptions a)
               [] l ->
             forall h o, In (ModelCall h o) l ->
               (o = advertised a /\ tools o = Some getAllToolDefinitions) \/
               (o = cfg_llmOptions a /\ tools o = tools (cfg_llmOptions a))).
  { intros l Hwf h o Hin.
    destruct (wellFormedCalls_options _ _ _ _ _ _ _ _ Hwf Hin) as [-> | ->];
      [left | right]; split; reflexivity. }
  split.
  - destruct (loop_wellFormed _ _ _ (executeLoop_eq chat getAllToolDefinitions
                                       executeToolCalls JSON_stringify)
                executeRound_common executeFinish_common seed fuel
                (start getSystemPrompt userMessage a) eq_refl I) as [Hwf Hmsgs].
    split; [exact Hwf|]. split; [exact Hmsgs | exact (Hoptions _ Hwf)].
  - destruct (loop_wellFormed _ _ _ (streamLoop_eq chatStream getAllToolDefinitions
                                       executeToolCalls JSON_parse JSON_stringify)
                streamRound_common streamFinish_common seed fuel
                (start getSystemPrompt userMessage a) eq_refl I) as [Hwf Hmsgs].
    split; [exact Hwf|]. split; [exact Hmsgs | exact (Hoptions _ Hwf)].
Qed.

(** *** What a streamed result is made of *)

Lemma sinceLastCall_quiet rest : forall acc,
  modelCalls rest = 0%nat ->
  fold_left (fun acc act => if isModelCall act then [] else acc ++ [act]) rest acc
  = acc ++ rest.
Proof.
  induction rest as [|act rest IH]; intros acc H; cbn [fold_left].
  - symmetry. apply app_nil_r.
  - rewrite modelCalls_cons in H.
    destruct (isModelCall act); [discriminate H|].
    rewrite IH by exact H. rewrite <- app_assoc. reflexivity.
Qed.

Lemma sinceLastCall_call l h o rest :
  modelCalls rest = 0%nat -> sinceLastCall (l ++ ModelCall h o :: rest) = rest.
Proof.
  intros H. unfold sinceLastCall. rewrite fold_left_app.
  cbn [fold_left isModelCall]. rewrite sinceLastCall_quiet by exact H. reflexivity.
Qed.

Lemma streamLoop_content fuel a a' r :
  streamLoop fuel a = Completed a' (Return r) ->
  res_content r = textOf (chunksOf (sinceLastCall (log a'))) /\
  (res_toolRounds r < cfg_maxToolRounds a ->
   exists cks,
     textChunks cks /\ chunksOf (sinceLastCall (log a')) = cks ++ [done_chunk]).
Proof.
  revert a' r.
  apply (loop_ind _ _ _ (streamLoop_eq chatStream getAllToolDefinitions
                           executeToolCalls JSON_parse JSON_stringify)
           (fun a s => forall a' r,
              s = Completed a' (Return r) ->
              res_content r = textOf (chunksOf (sinceLastCall (log a'))) /\
              (res_toolRounds r < cfg_maxToolRounds a ->
               exists cks,
                 textChunks cks /\
                 chunksOf (sinceLastCall (log a')) = cks ++ [done_chunk]))).
  - discriminate.
  - intros a0 a1 r0 _ Hround a' r [= <- <-].
    apply streamRound_facts in Hround
      as (names & rest & k & -> & Hquiet & _ & _ & Hres).
    destruct (Hres r0 eq_refl) as (_ & _ & cks & Hcks & -> & ->).
    cbn [log extend]. rewrite (sinceLastCall_call _ _ _ _ Hquiet), chunksOf_emitted.
    split.
    + rewrite textOf_app. cbn [textOf]. rewrite append_empty_r. reflexivity.
    + intros _. exists cks. split; [exact Hcks | reflexivity].
  - discriminate.
  - intros a0 a1 s _ Hround IH a' r Hs.
    apply streamRound_facts in Hround as (names & rest & k & -> & _).
    apply (IH a' r Hs).
  - intros a0 a1 c Hge Hfinish a' r [= <- ->].
    apply streamFinish_facts in Hfinish as (cks & -> & _ & _ & Hres).
    destruct (Hres r eq_refl) as (Hrounds & _ & ->).
    cbn [log extend].
    rewrite (sinceLastCall_call _ _ _ _ (modelCalls_emitted cks)), chunksOf_emitted.
    split; [reflexivity|].
    rewrite Hrounds. cbn [toolRounds extend]. lia.
Qed.

(** X16.  The content a streaming run returns is the text of the content chunks
    it handed on since its last model call: text that arrived in a round
    which went on to tool calls was handed on, and is not part of the
    content.  When the result reports fewer rounds than the maximum, these
    last chunks are the text chunks of the answer followed by one done
    chunk. *)
Theorem content_is_text_of_last_call fuel userMessage a a' r :
  executeStream fuel userMessage a = Completed a' (Return r) ->
  res_content r = textOf (chunksOf (sinceLastCall (log a'))) /\
  (res_toolRounds r < cfg_maxToolRounds a ->
   exists cks,
     textChunks cks /\ chunksOf (sinceLastCall (log a')) = cks ++ [done_chunk]).
Proof.
  intros H. apply (streamLoop_content _ _ _ _ H).
Qed.

Lemma consumeFinal_text cs f : forall acc a,
  snd (consumeFinal cs f acc a) =
  match f with
  | Some e => Throw e
  | None => Return (acc ++ streamedText cs)%string
  end.
Proof.
  induction cs as [|c cs IH]; intros acc a.
  - cbn. rewrite append_empty_r. destruct f; reflexivity.
  - cbn [consumeFinal]. rewrite streamedText_cons.
    destruct (truthy_string (chunk_content c)) eqn:Htruthy.
    + rewrite IH, append_assoc. reflexivity.
    + rewrite IH, (truthy_string_none _ Htruthy). reflexivity.
Qed.

(** X17.  The forced finish reads its stream to the end: unless the transport
    fails, the content returned is all the text of the stream, whatever
    tool calls and finish reasons its chunks carry, and a done chunk has
    been handed on for every finished chunk of the stream, which may be
    none or several. *)
Theorem forced_finish_reads_whole_stream a :
  let s := chatStream (modelCalls (log a)) (messages a ++ [forcedFinishMessage])
             (cfg_llmOptions a) in
  exists a' cks,
    streamFinish a =
      (a', match failure s with
           | Some e => Throw e
           | None => Return {| res_content := streamedText (chunks s);
                               res_toolsUsed := toolsUsed a;
                               res_toolRounds := toolRounds a |}
           end) /\
    log a' =
      log a ++ ModelCall (messages a ++ [forcedFinishMessage]) (cfg_llmOptions a)
                 :: map Emit cks /\
    doneChunks cks = List.length (filter chunk_isFinished (chunks s)).
Proof.
  intros s. unfold Agent.streamFinish.
  cbn [messages log record push_message cfg_llmOptions]. fold s.
  set (a1 := record (ModelCall (messages a ++ [forcedFinishMessage])
                       (cfg_llmOptions a))
               (push_message forcedFinishMessage a)).
  pose proof (consumeFinal_text (chunks s) (failure s) "" a1) as Htext.
  destruct (consumeFinal_spec (chunks s) (failure s) "" a1)
    as (cks & _ & Hdone & Hrun).
  rewrite Hrun in Htext |- *. cbn [snd] in Htext.
  exists (extend [] [] (map Emit cks) 0 a1), cks.
  split; [|split; [|exact Hdone]].
  - destruct (failure s); [reflexivity|].
    injection Htext as Htext. rewrite Htext.
    unfold result_of. cbn. rewrite !app_nil_r, Z.add_0_r. reflexivity.
  - cbn. rewrite <- app_assoc. reflexivity.
Qed.

(** X18.  A streamed round that goes on dispatched the tool calls of the last
    chunk that carried any, once, and counted a round for them; when no
    chunk carried tool calls, or the last such chunk carried an empty list,
    it dispatched nothing and counted nothing. *)
Theorem round_dispatches_last_decision a a' :
  streamRound a = (a', Continue) ->
  let s := chatStream (modelCalls (log a)) (messages a) (advertised a) in
  match lastDecision (chunks s) None with
  | Some (tc :: rest) =>
      dispatched (log a') = dispatched (log a) ++ [tc :: rest] /\
      toolRounds a' = toolRounds a + 1
  | _ =>
      dispatched (log a') = dispatched (log a) /\
      toolRounds a' = toolRounds a /\
      messages a' = messages a
  end.
Proof.
  intros H s. revert H. unfold Agent.streamRound. cbn [messages record log].
  change (chatStream _ _ _) with s. clearbody s.
  destruct (consumeRound _ _ _ _ _) as [a1 ending] eqn:Hc.
  apply consumeRound_spec in Hc as (cks & _ & Hc).
  destruct ending as [text | text d | e]; [discriminate | | discriminate].
  destruct Hc as (-> & _ & _ & -> & _).
  assert (Hidle : (extend [] [] (map Emit cks) 0
                     (record (ModelCall (messages a) (advertised a)) a), Continue)
                  = (a', Continue) ->
                  dispatched (log a') = dispatched (log a) /\
                  toolRounds a' = toolRounds a /\ messages a' = messages a).
  { intros [= <-]. cbn [log toolRounds messages extend record].
    rewrite <- app_assoc, dispatched_app. cbn [app dispatched].
    rewrite dispatched_emitted, !app_nil_r. split; [reflexivity|].
    split; [lia | reflexivity]. }
  destruct (lastDecision (chunks s) None) as [[|tc rest]|]; try exact Hidle.
  rewrite announceToolCalls_eq, handleToolCalls_eq.
  destruct (_ <=? _)%nat; [|discriminate].
  assert (Hstarts : forall l : list ToolCall,
             dispatched (map (fun tc0 => Emit (toolStartChunk (context a) tc0)) l)
             = []).
  { induction l as [|x l IH]; [reflexivity | exact IH]. }
  assert (Hresults : forall l rs, dispatched (toolResultChunks l rs) = []).
  { intros l rs. unfold Agent.toolResultChunks.
    induction (combine l rs) as [|x l' IH]; [reflexivity | exact IH]. }
  intros [= <-]. cbn [log toolRounds extend record incr_toolRounds context].
  rewrite !dispatched_app.
  change (dispatched (Emit (toolStartChunk (context a) tc) :: ?l))
    with (dispatched l).
  rewrite Hstarts, dispatched_emitted.
  change (dispatched (Dispatch (tc :: rest) :: ?l))
    with ((tc :: rest) :: dispatched l).
  rewrite Hresults. cbn [dispatched app]. rewrite !app_nil_r.
  split; [reflexivity | lia].
Qed.

(** *** The dispatcher's results *)

(** X19.  [handleToolCalls] throws exactly when the dispatcher returns fewer
    results than there are requests, and then with the type error of
    reading [success] of [undefined]; results in excess are ignored.  In
    both cases the history has gained the assistant message and one tool
    message for each request that has a result; the tools used have gained
    the names of these requests and, when it throws, that of the first
    request without a result. *)
Theorem missing_results_throw streaming tcs a :
  let rs := executeToolCalls tcs (context a) in
  let (a', c) := handleToolCalls streaming tcs a in
  c = (if (List.length tcs <=? List.length rs)%nat
       then Return tt else Throw missingResult) /\
  messages a' = messages a ++ assistantMessage tcs :: toolMessages tcs rs /\
  List.length (toolMessages tcs rs) = Nat.min (List.length tcs) (List.length rs) /\
  toolsUsed a' =
    toolsUsed a ++ map toolName (firstn (S (List.length rs)) tcs).
Proof.
  intros rs. rewrite handleToolCalls_eq. fold rs.
  split; [reflexivity|]. split; [reflexivity|]. split; [|reflexivity].
  unfold Agent.toolMessages. rewrite length_map, length_combine. reflexivity.
Qed.

(** *** Runs on one instance *)

Lemma started_alike userMessage a a1 :
  context a1 = context a ->
  cfg_maxToolRounds a1 = cfg_maxToolRounds a ->
  cfg_llmOptions a1 = cfg_llmOptions a ->
  start getSystemPrompt userMessage a1 = start getSystemPrompt userMessage a.
Proof. intros Hc Hm Ho. unfold start. rewrite Hc, Hm, Ho. reflexivity. Qed.

(** X20.  A run starts from the context and the configuration of the instance
    alone.  On an instance that [runAgent] or [runAgentStream] created and
    whose run has completed, [execute] and [executeStream] do what the two
    functions do on an instance of their own with the same context and
    configuration: the history, the tools used and the rounds of the
    earlier run are not carried over. *)
Theorem reused_instance_runs_afresh fuel0 userMessage0 fuel userMessage
    context config a1 c :
  runAgent chat getAllToolDefinitions executeToolCalls JSON_stringify
    getSystemPrompt fuel0 userMessage0 context config = Completed a1 c \/
  runAgentStream chatStream getAllToolDefinitions executeToolCalls JSON_parse
    JSON_stringify getSystemPrompt fuel0 userMessage0 context config
    = Completed a1 c ->
  execute fuel userMessage a1 =
    runAgent chat getAllToolDefinitions executeToolCalls JSON_stringify
      getSystemPrompt fuel userMessage context config /\
  executeStream fuel userMessage a1 =
    runAgentStream chatStream getAllToolDefinitions executeToolCalls JSON_parse
      JSON_stringify getSystemPrompt fuel userMessage context config.
Proof.
  unfold runAgent, runAgentStream. set (a := new_Agent context config).
  intros H.
  assert (Hframe : Agent.context a1 = Agent.context a /\
                   cfg_maxToolRounds a1 = cfg_maxToolRounds a /\
                   cfg_llmOptions a1 = cfg_llmOptions a).
  { destruct H as [H | H].
    - pose proof (loop_frame _ _ _
                    (executeLoop_eq chat getAllToolDefinitions executeToolCalls
                       JSON_stringify)
                    executeRound_common executeFinish_common fuel0
                    (start getSystemPrompt userMessage0 a)) as Hf.
      unfold Agent.execute in H. rewrite H in Hf. exact Hf.
    - pose proof (loop_frame _ _ _
                    (streamLoop_eq chatStream getAllToolDefinitions
                       executeToolCalls JSON_parse JSON_stringify)
                    streamRound_common streamFinish_common fuel0
                    (start getSystemPrompt userMessage0 a)) as Hf.
      unfold Agent.executeStream in H. rewrite H in Hf. exact Hf. }
  destruct Hframe as (Hc & Hm & Ho).
  unfold Agent.execute, Agent.executeStream.
  rewrite (started_alike userMessage a a1 Hc Hm Ho). split; reflexivity.
Qed.

End Run.

(** *** The properties at work *)


Lemma empty_budget_skips_tools_witness :
  let asked :=
    ModelCall (seedMessages "system prompt" "hello" ++ [forcedFinishMessage])
      tooledOptions in
  tools tooledOptions = Some [searchOnly] /\
  (exists a' c,
     runAgent answersAtOnce [] failingDispatcher stringifyNull "system prompt" 0
       "hello" plainContext noRoundsTooled = Completed a' c /\
     log a' = [asked]) /\
  (exists a' c,
     runAgentStream hiStream [] failingDispatcher parseObjects stringifyNull
       "system prompt" 0 "hello" plainContext noRoundsTooled = Completed a' c /\
     callsOf (log a') = [asked]).
Proof.
  intros asked. split; [reflexivity|].
  pose proof (empty_budget_skips_tools answersAtOnce hiStream []
                failingDispatcher parseObjects stringifyNull "system prompt"
                "hello" (new_Agent plainContext noRoundsTooled) 0%nat
                ltac:(cbn; lia)) as H.
  cbv zeta in H. destruct H as (Hbuffered & Hstreamed & _).
  split; [exact Hbuffered | exact Hstreamed].
Defined.

Lemma transport_failure_ends_run_witness :
  let a := new_Agent plainContext emptyConfig in
  let seed := seedMessages "system prompt" "hello" in
  (exists a',
     execute offline [] failingDispatcher stringifyNull "system prompt" 1
       "hello" a = Completed a' (Throw (TransportError "network unreachable")) /\
     messages a' = seed /\
     log a' = [ModelCall seed (with_tools defaultLlmOptions [])]) /\
  (exists a' cks,
     executeStream brokenStream [] failingDispatcher parseObjects stringifyNull
       "system prompt" 1 "hello" a =
       Completed a' (Throw (TransportError "reset")) /\
     messages a' = seed /\
     textChunks cks /\
     log a' = ModelCall seed (with_tools defaultLlmOptions []) :: map Emit cks).
Proof.
  intros a seed. split.
  - exact (proj1 (transport_failure_ends_run offline brokenStream []
                    failingDispatcher parseObjects stringifyNull "system prompt"
                    "hello" a 0%nat (TransportError "network unreachable") eq_refl)
             eq_refl).
  - apply (proj2 (transport_failure_ends_run offline brokenStream []
                    failingDispatcher parseObjects stringifyNull "system prompt"
                    "hello" a 0%nat (TransportError "reset") eq_refl)).
    + reflexivity.
    + constructor; [reflexivity | constructor].
Defined.

Lemma result_accounts_for_dispatches_witness :
  let a' :=
    agentOf (execute toolsThenText [] failingDispatcher stringifyNull
               "system prompt" 3 "question" (new_Agent plainContext twoRounds)) in
  let r := {| res_content := "summary";
              res_toolsUsed := ["search_messages"; "search_messages"];
              res_toolRounds := 2 |} in
  res_toolRounds r = Z.of_nat (List.length (dispatched (log a'))) /\
  res_toolsUsed r = namesOf (dispatched (log a')).
Proof.
  intros a' r.
  refine (result_accounts_for_dispatches toolsThenText toolsThenTextStream []
            failingDispatcher parseObjects stringifyNull "system prompt" 3
            "question" (new_Agent plainContext twoRounds) a' r (or_introl _)).
  vm_compute. reflexivity.
Defined.

Lemma content_is_text_of_last_call_witness :
  let a := new_Agent filteredContext emptyConfig in
  let a' :=
    agentOf (executeStream thinkingAloudStream [] failingDispatcher parseObjects
               stringifyNull "system prompt" 2 "question" a) in
  let r := {| res_content := "Done"; res_toolsUsed := ["search_messages"];
              res_toolRounds := 1 |} in
  textOf (chunksOf (log a')) = "Let me look. Done" /\
  res_content r = textOf (chunksOf (sinceLastCall (log a'))) /\
  exists cks,
    textChunks cks /\ chunksOf (sinceLastCall (log a')) = cks ++ [done_chunk].
Proof.
  intros a a' r.
  assert (H : executeStream thinkingAloudStream [] failingDispatcher parseObjects
                stringifyNull "system prompt" 2 "question" a
              = Completed a' (Return r)).
  { vm_compute. reflexivity. }
  destruct (content_is_text_of_last_call thinkingAloudStream [] failingDispatcher
              parseObjects stringifyNull "system prompt" 2 "question" a a' r H)
    as [H1 H2].
  split; [vm_compute; reflexivity|]. split; [exact H1|].
  apply H2. vm_compute. reflexivity.
Defined.

Lemma round_dispatches_last_decision_witness :
  let a := start "system prompt" "question" (new_Agent plainContext emptyConfig) in
  let a' :=
    fst (streamRound revisedDecisionStream [] failingDispatcher parseObjects
           stringifyNull a) in
  dispatched (log a') = dispatched (log a) ++ [[memberCall]] /\
  toolRounds a' = toolRounds a + 1.
Proof.
  intros a a'.
  refine (round_dispatches_last_decision revisedDecisionStream [] failingDispatcher
            parseObjects stringifyNull a a' _).
  vm_compute. reflexivity.
Defined.

Lemma reused_instance_runs_afresh_witness :
  let a1 :=
    agentOf (runAgent toolsThenText [] failingDispatcher stringifyNull
               "system prompt" 3 "first" plainContext twoRounds) in
  execute toolsThenText [] failingDispatcher stringifyNull "system prompt" 3
    "second" a1 =
    runAgent toolsThenText [] failingDispatcher stringifyNull "system prompt" 3
      "second" plainContext twoRounds /\
  executeStream toolsThenTextStream [] failingDispatcher parseObjects
    stringifyNull "system prompt" 3 "second" a1 =
    runAgentStream toolsThenTextStream [] failingDispatcher parseObjects
      stringifyNull "system prompt" 3 "second" plainContext twoRounds.
Proof.
  intros a1.
  refine (reused_instance_runs_afresh toolsThenText toolsThenTextStream []
            failingDispatcher parseObjects stringifyNull "system prompt" 3
            "first" 3 "second" plainContext twoRounds a1
            (Return {| res_content := "summary";
                       res_toolsUsed := ["search_messages"; "search_messages"];
                       res_toolRounds := 2 |})
            (or_introl _)).
  vm_compute. reflexivity.
Defined.

End AgentExtras.

(** ** Runs that meet tool calls: the forced finish, failing tools *)
Module RunProofs.

Import Tools Agent More AgentProofs AgentExtras Scenarios MoreScenarios.

(** *** Streams that decide, streams that answer *)

Lemma lastDecision_snoc pre c tc :
  lastDecision (pre ++ [c]) tc =
  match chunk_tool_calls c with Some t => Some t | None => lastDecision pre tc end.
Proof. unfold lastDecision. rewrite fold_left_app. reflexivity. Qed.

(** When the [for await] goes on after every chunk, it does not return. *)
Lemma consumeRound_goes_on cs f : forall acc tc a,
  (forall pre c post,
     cs = pre ++ c :: post -> chunk_isFinished c = true ->
     chunk_finishReason c = Some "tool_calls" /\
     lastDecision (pre ++ [c]) tc <> None) ->
  forall text, snd (consumeRound cs f acc tc a) <> Returned text.
Proof.
  induction cs as [|c cs IH]; intros acc tc a H text.
  - cbn. destruct f; discriminate.
  - cbn [consumeRound].
    set (tc' := match chunk_tool_calls c with Some t => Some t | None => tc end).
    assert (IH' : forall acc' a',
               snd (consumeRound cs f acc' tc' a') <> Returned text).
    { intros acc' a'. apply IH. intros pre c0 post Heq Hfin.
      apply (H (c :: pre) c0 post); [rewrite Heq; reflexivity | exact Hfin]. }
    destruct (chunk_isFinished c) eqn:Hfin.
    + destruct (H [] c cs eq_refl Hfin) as [Hreason Hd].
      change (lastDecision ([] ++ [c]) tc) with tc' in Hd.
      rewrite Hreason.
      destruct (truthy_string (chunk_content c));
        (destruct tc' as [tcs|]; [apply IH' | contradiction]).
    + destruct (truthy_string (chunk_content c)); apply IH'.
Qed.

(** It returns at the first finished chunk after which it does not go on. *)
Lemma consumeRound_returns pre c post f : forall acc tc a,
  (forall pre' c' post',
     pre = pre' ++ c' :: post' -> chunk_isFinished c' = true ->
     chunk_finishReason c' = Some "tool_calls" /\
     lastDecision (pre' ++ [c']) tc <> None) ->
  chunk_isFinished c = true ->
  chunk_finishReason c <> Some "tool_calls" \/ lastDecision (pre ++ [c]) tc = None ->
  exists text, snd (consumeRound (pre ++ c :: post) f acc tc a) = Returned text.
Proof.
  induction pre as [|c0 pre IH]; intros acc tc a Hpre Hfin Hstop.
  - cbn [app consumeRound]. rewrite Hfin.
    change (lastDecision ([] ++ [c]) tc)
      with (match chunk_tool_calls c with Some t => Some t | None => tc end)
      in Hstop.
    set (tc' := match chunk_tool_calls c with Some t => Some t | None => tc end)
      in *.
    clearbody tc'.
    destruct (truthy_string (chunk_content c));
      (destruct (chunk_finishReason c) as [reason|], tc' as [tcs|];
       try (eexists; reflexivity));
      (destruct (String.eqb_spec reason "tool_calls") as [-> | _];
       [destruct Hstop; [congruence | discriminate] | eexists; reflexivity]).
  - cbn [app consumeRound].
    set (tc' := match chunk_tool_calls c0 with Some t => Some t | None => tc end).
    assert (IH' : forall acc' a',
               exists text,
                 snd (consumeRound (pre ++ c :: post) f acc' tc' a')
                 = Returned text).
    { intros acc' a'. apply IH; [|exact Hfin|exact Hstop].
      intros pre' c' post' Heq Hfin'.
      apply (Hpre (c0 :: pre') c' post'); [rewrite Heq; reflexivity | exact Hfin']. }
    destruct (chunk_isFinished c0) eqn:Hfin0.
    + destruct (Hpre [] c0 pre eq_refl Hfin0) as [Hreason Hd].
      change (lastDecision ([] ++ [c0]) tc) with tc' in Hd.
      rewrite Hreason.
      destruct (truthy_string (chunk_content c0));
        (destruct tc' as [tcs|]; [apply IH' | contradiction]).
    + destruct (truthy_string (chunk_content c0)); apply IH'.
Qed.

Lemma consumeRound_decides s tcs acc a :
  streamDecides s tcs ->
  exists a1 text,
    consumeRound (chunks s) (failure s) acc None a = (a1, Exhausted text (Some tcs)).
Proof.
  intros (Hf & Hon & Hlast & _).
  destruct (consumeRound (chunks s) (failure s) acc None a) as [a1 ending] eqn:Hc.
  pose proof (consumeRound_goes_on (chunks s) (failure s) acc None a Hon) as Hnot.
  rewrite Hc in Hnot. cbn [snd] in Hnot.
  pose proof (consumeRound_spec _ _ _ _ _ _ _ Hc) as (cks & _ & Hend).
  destruct ending as [text | text d | e].
  - exfalso. apply (Hnot text). reflexivity.
  - destruct Hend as (_ & _ & _ & -> & _). rewrite Hlast. eexists _, _. reflexivity.
  - destruct Hend as [_ He]. congruence.
Qed.

Lemma consumeRound_answers s acc a :
  streamAnswers s ->
  exists text, snd (consumeRound (chunks s) (failure s) acc None a) = Returned text.
Proof.
  intros (pre & c & post & -> & Hpre & Hfin & Hstop).
  apply consumeRound_returns; assumption.
Qed.

(** The streams of the design are of these kinds. *)
Lemma toolDecision_decides s tcs : toolDecision s tcs -> streamDecides s tcs.
Proof.
  intros (Hf & pre & last & Hchunks & Hpre & Hfin & Hreason & Htcs & Hne).
  split; [exact Hf|]. split; [|split; [|exact Hne]].
  - intros pre' c post Heq Hfin'.
    assert (Hin : In c (pre ++ [last])).
    { rewrite <- Hchunks, Heq. apply in_elt. }
    apply in_app_or in Hin as [Hin | [<- | []]].
    + rewrite Forall_forall in Hpre. rewrite (Hpre c Hin) in Hfin'. discriminate.
    + split; [exact Hreason|]. rewrite lastDecision_snoc, Htcs. discriminate.
  - rewrite Hchunks, lastDecision_snoc, Htcs. reflexivity.
Qed.

Lemma finalAnswer_answers s : finalAnswer s -> streamAnswers s.
Proof.
  intros (pre & last & rest & Hchunks & Hpre & Hfin & Hreason).
  exists pre, last, rest. split; [exact Hchunks|]. split; [|split].
  - intros pre' c post Heq Hfin'.
    rewrite Forall_forall in Hpre. rewrite (Hpre c) in Hfin'; [discriminate|].
    rewrite Heq. apply in_elt.
  - exact Hfin.
  - left. exact Hreason.
Qed.

Lemma extends_nth_error {A : Type} (l l' : list A) i x :
  extends l l' -> nth_error l i = Some x -> nth_error l' i = Some x.
Proof.
  intros [more ->] H. rewrite nth_error_app1; [exact H|].
  apply nth_error_Some. congruence.
Qed.

Section Run.

Variable chat : nat -> list ChatMessage -> ChatOptions -> Completion ChatResponse.
Variable chatStream : nat -> list ChatMessage -> ChatOptions -> ChatStream.
Variable getAllToolDefinitions : list ToolDefinition.
Variable executeToolCalls : list ToolCall -> ToolContext -> list ToolExecutionResult.
Variable JSON_parse : string -> option Json.
Variable JSON_stringify : Json -> string.
Variable getSystemPrompt : string.

Local Abbreviation toolMessages := (toolMessages JSON_stringify).
Local Abbreviation roundMessages := (roundMessages executeToolCalls JSON_stringify).
Local Abbreviation handleToolCalls := (handleToolCalls executeToolCalls JSON_stringify).
Local Abbreviation executeRound :=
  (executeRound chat getAllToolDefinitions executeToolCalls JSON_stringify).
Local Abbreviation executeFinish := (executeFinish chat).
Local Abbreviation executeLoop :=
  (executeLoop chat getAllToolDefinitions executeToolCalls JSON_stringify).
Local Abbreviation execute :=
  (execute chat getAllToolDefinitions executeToolCalls JSON_stringify getSystemPrompt).
Local Abbreviation streamRound :=
  (streamRound chatStream getAllToolDefinitions executeToolCalls JSON_parse
     JSON_stringify).
Local Abbreviation streamFinish := (streamFinish chatStream).
Local Abbreviation streamLoop :=
  (streamLoop chatStream getAllToolDefinitions executeToolCalls JSON_parse
     JSON_stringify).
Local Abbreviation executeStream :=
  (executeStream chatStream getAllToolDefinitions executeToolCalls JSON_parse
     JSON_stringify getSystemPrompt).
Local Abbreviation advertised a :=
  (with_tools (cfg_llmOptions a) getAllToolDefinitions).

(** *** After a pass, the next call *)

Section Loop.

Variable round : Agent -> Agent * RoundResult.
Variable finish : Agent -> Agent * Completion AgentResult.
Variable loop : nat -> Agent -> RunState.

Hypothesis loop_eq : forall fuel a,
  loop fuel a =
  if toolRounds a <? cfg_maxToolRounds a then
    match fuel with
    | O => Running a
    | S fuel' =>
        match round a with
        | (a', Continue) => loop fuel' a'
        | (a', Finish r) => Completed a' (Return r)
        | (a', Raise e) => Completed a' (Throw e)
        end
    end
  else let (a', c) := finish a in Completed a' c.

Hypothesis round_log : forall a a' x,
  round a = (a', x) ->
  exists ms names rest k,
    a' = extend ms names (ModelCall (messages a) (advertised a) :: rest) k a.

Hypothesis finish_log : forall a a' c,
  finish a = (a', c) ->
  exists rest,
    a' = extend [forcedFinishMessage] []
           (ModelCall (messages a ++ [forcedFinishMessage]) (cfg_llmOptions a)
              :: rest) 0 a.

(** The log and the history only grow. *)
Lemma loop_grows fuel a :
  extends (log a) (log (agentOf (loop fuel a))) /\
  extends (messages a) (messages (agentOf (loop fuel a))).
Proof.
  apply (loop_ind _ _ _ loop_eq (fun a s =>
           extends (log a) (log (agentOf s)) /\
           extends (messages a) (messages (agentOf s)))).
  - intros a0 _. split; apply extends_refl.
  - intros a0 a1 r _ H. apply round_log in H as (ms & ns & rest & k & ->).
    split; apply extends_app.
  - intros a0 a1 e _ H. apply round_log in H as (ms & ns & rest & k & ->).
    split; apply extends_app.
  - intros a0 a1 s _ H [IHl IHm].
    apply round_log in H as (ms & ns & rest & k & ->).
    cbn [log messages extend] in IHl, IHm. split.
    + eapply extends_trans; [apply extends_app | exact IHl].
    + eapply extends_trans; [apply extends_app | exact IHm].
  - intros a0 a1 c _ H. apply finish_log in H as (rest & ->).
    split; apply extends_app.
Qed.

(** A loop that completes has called the model with the history it started
    from, or with more. *)
Lemma loop_calls_again fuel a a' c :
  loop fuel a = Completed a' c ->
  exists h o, In (ModelCall h o) (log a') /\ extends (messages a) h.
Proof.
  rewrite loop_eq. destruct (toolRounds a <? cfg_maxToolRounds a).
  - destruct fuel as [|fuel]; [discriminate|].
    destruct (round a) as [a1 x] eqn:E.
    apply round_log in E as (ms & ns & rest & k & ->).
    assert (Hin : forall l,
               extends (log (extend ms ns
                               (ModelCall (messages a) (advertised a) :: rest)
                               k a)) l ->
               In (ModelCall (messages a) (advertised a)) l).
    { intros l [more ->]. cbn [log extend]. apply in_or_app. left.
      apply in_elt. }
    intros H. exists (messages a), (advertised a).
    split; [|apply extends_refl]. apply Hin.
    destruct x as [ | r | e].
    + pose proof (proj1 (loop_grows fuel
                           (extend ms ns
                              (ModelCall (messages a) (advertised a) :: rest)
                              k a))) as Hg.
      rewrite H in Hg. exact Hg.
    + injection H as <- _. apply extends_refl.
    + injection H as <- _. apply extends_refl.
  - destruct (finish a) as [a1 c1] eqn:E.
    apply finish_log in E as (rest & ->). intros [= <- _].
    exists (messages a ++ [forcedFinishMessage]), (cfg_llmOptions a).
    split; [|apply extends_app]. cbn [log extend]. apply in_elt.
Qed.

End Loop.

Lemma executeRound_log a a' x :
  executeRound a = (a', x) ->
  exists ms names rest k,
    a' = extend ms names (ModelCall (messages a) (advertised a) :: rest) k a.
Proof.
  intros H. apply executeRound_facts in H as (names & rest & k & -> & _).
  eexists _, _, _, _. reflexivity.
Qed.

Lemma streamRound_log a a' x :
  streamRound a = (a', x) ->
  exists ms names rest k,
    a' = extend ms names (ModelCall (messages a) (advertised a) :: rest) k a.
Proof.
  intros H. apply streamRound_facts in H as (names & rest & k & -> & _).
  eexists _, _, _, _. reflexivity.
Qed.

Lemma executeFinish_log a a' c :
  executeFinish a = (a', c) ->
  exists rest,
    a' = extend [forcedFinishMessage] []
           (ModelCall (messages a ++ [forcedFinishMessage]) (cfg_llmOptions a)
              :: rest) 0 a.
Proof.
  intros H. apply executeFinish_facts in H as (cks & -> & _).
  eexists. reflexivity.
Qed.

Lemma streamFinish_log a a' c :
  streamFinish a = (a', c) ->
  exists rest,
    a' = extend [forcedFinishMessage] []
           (ModelCall (messages a ++ [forcedFinishMessage]) (cfg_llmOptions a)
              :: rest) 0 a.
Proof.
  intros H. apply streamFinish_facts in H as (cks & -> & _).
  eexists. reflexivity.
Qed.

(** *** Rounds of a stream that decides or answers *)

Lemma streamRound_answers a :
  streamAnswers (chatStream (modelCalls (log a)) (messages a) (advertised a)) ->
  exists a' r, streamRound a = (a', Finish r).
Proof.
  intros Hans. unfold Agent.streamRound. cbn [messages record].
  set (s := chatStream _ _ _) in *.
  destruct (consumeRound_answers s ""
              (record (ModelCall (messages a) (advertised a)) a) Hans)
    as [text Hret].
  destruct (consumeRound _ _ _ _ _) as [a1 ending]. cbn [snd] in Hret.
  subst ending. eexists _, _. reflexivity.
Qed.

Section Contract.

(** The dispatcher answers every request (section 4.2 of the design). *)
Hypothesis dispatch_length : forall tcs c,
  List.length (executeToolCalls tcs c) = List.length tcs.

Lemma streamRound_decides a tcs :
  streamDecides (chatStream (modelCalls (log a)) (messages a) (advertised a)) tcs ->
  exists acts,
    streamRound a =
      (extend (roundMessages (context a) tcs) (map toolName tcs) acts 1 a,
       Continue) /\
    callsOf acts = [ModelCall (messages a) (advertised a); Dispatch tcs].
Proof.
  intros D.
  set (s := chatStream (modelCalls (log a)) (messages a) (advertised a)) in *.
  destruct (consumeRound_decides s tcs ""
              (record (ModelCall (messages a) (advertised a)) a) D)
    as (a1 & text & Hc).
  pose proof (consumeRound_extend _ _ _ _ _ _ _ Hc) as (acts & Ha1 & Hacts).
  destruct D as (_ & _ & _ & Hne).
  destruct tcs as [|tc rest]; [congruence|].
  destruct (streamRound_dispatch chatStream getAllToolDefinitions executeToolCalls
              JSON_parse JSON_stringify dispatch_length a a1 text tc rest Hc)
    as [_ ->].
  subst a1. to_extend. eexists. split; [reflexivity|].
  rewrite callsOf_cons, !callsOf_app, callsOf_cons.
  rewrite (callsOf_emits _ Hacts), (callsOf_emits _ (toolStartChunks_emits _ _ _)),
    (callsOf_emits _ (toolResultChunks_emits _ _)).
  reflexivity.
Qed.

(** The streaming loop returns a result when every stream of a call that
    advertises the tools answers or decides, and the stream of the forced
    finish does not fail. *)
Lemma streamLoop_returns fuel : forall a,
  (forall n h,
     let s := chatStream n h (advertised a) in
     streamAnswers s \/ exists tcs, streamDecides s tcs) ->
  (forall n h, failure (chatStream n h (cfg_llmOptions a)) = None) ->
  (Z.to_nat (cfg_maxToolRounds a - toolRounds a) <= fuel)%nat ->
  exists a' r, streamLoop fuel a = Completed a' (Return r).
Proof.
  assert (Hfinish : forall a,
             (forall n h, failure (chatStream n h (cfg_llmOptions a)) = None) ->
             exists a' r, streamFinish a = (a', Return r)).
  { intros a Hfinal.
    destruct (streamFinish_intact chatStream a (Hfinal _ _)) as (acts & _ & ->).
    eexists _, _. reflexivity. }
  induction fuel as [|fuel IH]; intros a Hprog Hfinal Hfuel;
    rewrite streamLoop_eq;
    destruct (Z.ltb_spec (toolRounds a) (cfg_maxToolRounds a)) as [Hlt | Hge].
  - lia.
  - destruct (Hfinish a Hfinal) as (a' & r & ->). exists a', r. reflexivity.
  - destruct (Hprog (modelCalls (log a)) (messages a)) as [Hans | [tcs D]].
    + destruct (streamRound_answers a Hans) as (a' & r & ->).
      exists a', r. reflexivity.
    + destruct (streamRound_decides a tcs D) as (acts & -> & _).
      apply IH; [exact Hprog | exact Hfinal |].
      cbn [cfg_maxToolRounds toolRounds extend]. lia.
  - destruct (Hfinish a Hfinal) as (a' & r & ->). exists a', r. reflexivity.
Qed.

(** A first response that is a tool-call decision: the run returns a
    result after at least one round, and the messages of that round stay in
    the history and reach the model in a later call. *)
Lemma execute_goes_on userMessage a text tcs :
  let seed := seedMessages getSystemPrompt userMessage in
  0 < cfg_maxToolRounds a ->
  (forall n h o, exists response, chat n h o = Return response) ->
  chat 0%nat seed (advertised a) =
    Return {| resp_content := text; resp_finishReason := "tool_calls";
              resp_tool_calls := Some tcs |} ->
  exists a' r,
    execute (Z.to_nat (cfg_maxToolRounds a)) userMessage a =
      Completed a' (Return r) /\
    1 <= res_toolRounds r /\
    extends (seed ++ roundMessages (context a) tcs) (messages a') /\
    exists h o,
      In (ModelCall h o) (log a') /\
      extends (seed ++ roundMessages (context a) tcs) h.
Proof.
  intros seed HM Hchat Hfirst. unfold Agent.execute.
  set (a0 := start getSystemPrompt userMessage a).
  destruct (Z.to_nat (cfg_maxToolRounds a)) as [|fuel] eqn:Hfuel; [lia|].
  rewrite executeLoop_eq.
  destruct (Z.ltb_spec (toolRounds a0) (cfg_maxToolRounds a0)) as [_ | Hge];
    [|cbn in Hge; lia].
  rewrite (executeRound_dispatch chat getAllToolDefinitions executeToolCalls
             JSON_stringify dispatch_length a0 text tcs Hfirst).
  set (a1 := extend _ _ _ 1 a0).
  destruct (executeLoop_returns chat getAllToolDefinitions executeToolCalls
              JSON_stringify dispatch_length Hchat a1) as (a' & r & Hrun).
  replace (Z.to_nat (cfg_maxToolRounds a1 - toolRounds a1)) with fuel in Hrun
    by (cbn; lia).
  rewrite Hrun. exists a', r. split; [reflexivity|].
  split; [|split].
  - pose proof (loop_toolRounds JSON_stringify _ _ _
                  (executeLoop_eq chat getAllToolDefinitions executeToolCalls
                     JSON_stringify)
                  (executeRound_weak_step chat getAllToolDefinitions
                     executeToolCalls JSON_stringify)
                  (executeFinish_weak_step chat) _ _ _ _ Hrun) as [Hle _].
    exact Hle.
  - pose proof (proj2 (loop_grows _ _ _
                         (executeLoop_eq chat getAllToolDefinitions
                            executeToolCalls JSON_stringify)
                         executeRound_log executeFinish_log fuel a1)) as Hg.
    rewrite Hrun in Hg. exact Hg.
  - apply (loop_calls_again _ _ _
             (executeLoop_eq chat getAllToolDefinitions executeToolCalls
                JSON_stringify)
             executeRound_log executeFinish_log fuel a1 a' _ Hrun).
Qed.

Lemma executeStream_goes_on userMessage a tcs :
  let seed := seedMessages getSystemPrompt userMessage in
  0 < cfg_maxToolRounds a ->
  (forall n h,
     let s := chatStream n h (advertised a) in
     streamAnswers s \/ exists tcs, streamDecides s tcs) ->
  (forall n h, failure (chatStream n h (cfg_llmOptions a)) = None) ->
  streamDecides (chatStream 0%nat seed (advertised a)) tcs ->
  exists a' r,
    executeStream (Z.to_nat (cfg_maxToolRounds a)) userMessage a =
      Completed a' (Return r) /\
    1 <= res_toolRounds r /\
    extends (seed ++ roundMessages (context a) tcs) (messages a') /\
    exists h o,
      In (ModelCall h o) (log a') /\
      extends (seed ++ roundMessages (context a) tcs) h.
Proof.
  intros seed HM Hprog Hfinal Hfirst. unfold Agent.executeStream.
  set (a0 := start getSystemPrompt userMessage a).
  destruct (Z.to_nat (cfg_maxToolRounds a)) as [|fuel] eqn:Hfuel; [lia|].
  rewrite streamLoop_eq.
  destruct (Z.ltb_spec (toolRounds a0) (cfg_maxToolRounds a0)) as [_ | Hge];
    [|cbn in Hge; lia].
  destruct (streamRound_decides a0 tcs Hfirst) as (acts & -> & _).
  set (a1 := extend _ _ acts 1 a0).
  destruct (streamLoop_returns fuel a1 Hprog Hfinal) as (a' & r & Hrun).
  { cbn. lia. }
  rewrite Hrun. exists a', r. split; [reflexivity|].
  split; [|split].
  - pose proof (loop_toolRounds JSON_stringify _ _ _
                  (streamLoop_eq chatStream getAllToolDefinitions executeToolCalls
                     JSON_parse JSON_stringify)
                  (streamRound_step chatStream getAllToolDefinitions
                     executeToolCalls JSON_parse JSON_stringify)
                  (streamFinish_weak_step chatStream) _ _ _ _ Hrun) as [Hle _].
    exact Hle.
  - pose proof (proj2 (loop_grows _ _ _
                         (streamLoop_eq chatStream getAllToolDefinitions
                            executeToolCalls JSON_parse JSON_stringify)
                         streamRound_log streamFinish_log fuel a1)) as Hg.
    rewrite Hrun in Hg. exact Hg.
  - apply (loop_calls_again _ _ _
             (streamLoop_eq chatStream getAllToolDefinitions executeToolCalls
                JSON_parse JSON_stringify)
             streamRound_log streamFinish_log fuel a1 a' _ Hrun).
Qed.

End Contract.

(** *** The forced finish after two rounds *)

(** C4, amended.  With [maxToolRounds = 2], any configured model options, a
    dispatcher that answers every request and a model that responds with a
    tool-call decision in both rounds (in streaming mode: with a stream
    that decides), the transport not failing, the run dispatches exactly
    twice, appends exactly one further message, the user message of the
    forced finish, and makes exactly one further model call, with the
    configured options as they are: the tools the loop advertises are not
    added, so that this call advertises tools only when the configured
    options themselves carry some, which the default options do not.  The
    run returns the text of that call as content, be it empty or not. *)
Theorem two_rounds_then_forced_finish context configured userMessage fuel
    tcs1 tcs2 :
  let a0 :=
    new_Agent context {| maxToolRounds := Some 2; llmOptions := configured |} in
  let options :=
    match configured with Some o => o | None => defaultLlmOptions end in
  let seed := seedMessages getSystemPrompt userMessage in
  let advertised := with_tools options getAllToolDefinitions in
  let h1 := seed ++ roundMessages context tcs1 in
  let h2 := h1 ++ roundMessages context tcs2 in
  let calls :=
    [ModelCall seed advertised; Dispatch tcs1;
     ModelCall h1 advertised; Dispatch tcs2;
     ModelCall (h2 ++ [forcedFinishMessage]) options] in
  let result text :=
    {| res_content := text; res_toolsUsed := map toolName (tcs1 ++ tcs2);
       res_toolRounds := 2 |} in
  (forall tcs c, List.length (executeToolCalls tcs c) = List.length tcs) ->
  tools advertised = Some getAllToolDefinitions /\
  tools options = match configured with Some o => tools o | None => None end /\
  role forcedFinishMessage = user /\
  (forall text1 text2 final,
     chat 0%nat seed advertised =
       Return {| resp_content := text1; resp_finishReason := "tool_calls";
                 resp_tool_calls := Some tcs1 |} ->
     chat 1%nat h1 advertised =
       Return {| resp_content := text2; resp_finishReason := "tool_calls";
                 resp_tool_calls := Some tcs2 |} ->
     chat 2%nat (h2 ++ [forcedFinishMessage]) options = Return final ->
     exists a',
       execute (2 + fuel) userMessage a0 =
         Completed a' (Return (result (resp_content final))) /\
       messages a' = h2 ++ [forcedFinishMessage] /\
       log a' = calls) /\
  (forall final,
     streamDecides (chatStream 0%nat seed advertised) tcs1 ->
     streamDecides (chatStream 1%nat h1 advertised) tcs2 ->
     chatStream 2%nat (h2 ++ [forcedFinishMessage]) options = final ->
     failure final = None ->
     exists a',
       executeStream (2 + fuel) userMessage a0 =
         Completed a' (Return (result (streamedText (chunks final)))) /\
       messages a' = h2 ++ [forcedFinishMessage] /\
       callsOf (log a') = calls).
Proof.
  intros a0 options seed advertised h1 h2 calls result Hlen.
  split; [reflexivity|]. split; [destruct configured; reflexivity|].
  split; [reflexivity|]. split.
  - intros text1 text2 final H1 H2 H3.
    unfold Agent.execute.
    set (s0 := start getSystemPrompt userMessage a0).
    change (2 + fuel)%nat with (S (S fuel)).
    rewrite executeLoop_eq. change (toolRounds s0 <? cfg_maxToolRounds s0) with true.
    cbv iota.
    rewrite (executeRound_dispatch chat getAllToolDefinitions executeToolCalls
               JSON_stringify Hlen s0 text1 tcs1 H1).
    set (s1 := extend _ _ _ 1 s0).
    rewrite executeLoop_eq. change (toolRounds s1 <? cfg_maxToolRounds s1) with true.
    cbv iota.
    rewrite (executeRound_dispatch chat getAllToolDefinitions executeToolCalls
               JSON_stringify Hlen s1 text2 tcs2 H2).
    set (s2 := extend _ _ _ 1 s1).
    rewrite executeLoop_eq. change (toolRounds s2 <? cfg_maxToolRounds s2) with false.
    cbv iota. unfold Agent.executeFinish.
    cbn [messages record push_message cfg_llmOptions].
    change (chat _ _ _) with
      (chat 2%nat (h2 ++ [forcedFinishMessage]) options).
    rewrite H3. eexists. split.
    { f_equal. f_equal.
      unfold result_of, result. cbn [toolsUsed toolRounds record push_message].
      subst s2 s1 s0. cbn [toolsUsed toolRounds extend start app].
      rewrite map_app. reflexivity. }
    split; reflexivity.
  - intros final D1 D2 Hfinal Hintact.
    unfold Agent.executeStream.
    set (s0 := start getSystemPrompt userMessage a0).
    change (2 + fuel)%nat with (S (S fuel)).
    rewrite streamLoop_eq. change (toolRounds s0 <? cfg_maxToolRounds s0) with true.
    cbv iota.
    destruct (streamRound_decides Hlen s0 tcs1 D1) as (acts1 & -> & Hcalls1).
    set (s1 := extend _ _ acts1 1 s0).
    assert (Hn1 : modelCalls (log s1) = 1%nat).
    { unfold s1, s0. cbn [log extend start app].
      rewrite <- (filter_length_callsOf acts1), Hcalls1. reflexivity. }
    rewrite streamLoop_eq. change (toolRounds s1 <? cfg_maxToolRounds s1) with true.
    cbv iota.
    assert (D2' : streamDecides
                    (chatStream (modelCalls (log s1)) (messages s1)
                       (with_tools (cfg_llmOptions s1) getAllToolDefinitions))
                    tcs2).
    { rewrite Hn1. exact D2. }
    destruct (streamRound_decides Hlen s1 tcs2 D2') as (acts2 & -> & Hcalls2).
    set (s2 := extend _ _ acts2 1 s1).
    assert (Hn2 : modelCalls (log s2) = 2%nat).
    { unfold s2. cbn [log extend]. rewrite modelCalls_app, Hn1.
      rewrite <- (filter_length_callsOf acts2), Hcalls2. reflexivity. }
    rewrite streamLoop_eq. change (toolRounds s2 <? cfg_maxToolRounds s2) with false.
    cbv iota.
    assert (Hintact' :
              failure (chatStream (modelCalls (log s2))
                         (messages s2 ++ [forcedFinishMessage])
                         (cfg_llmOptions s2)) = None).
    { rewrite Hn2. change (failure (chatStream 2%nat (h2 ++ [forcedFinishMessage])
                                      options) = None).
      rewrite Hfinal. exact Hintact. }
    destruct (streamFinish_intact chatStream s2 Hintact') as (acts3 & Hacts3 & ->).
    rewrite Hn2.
    change (chatStream 2%nat (messages s2 ++ [forcedFinishMessage])
              (cfg_llmOptions s2))
      with (chatStream 2%nat (h2 ++ [forcedFinishMessage]) options).
    rewrite Hfinal. eexists. split.
    { f_equal. f_equal. unfold result.
      subst s2 s1 s0. cbn [toolsUsed toolRounds extend start app].
      rewrite map_app. reflexivity. }
    split; [reflexivity|].
    cbn [log extend]. subst s2 s1 s0. cbn [log extend start app].
    rewrite !callsOf_app, Hcalls1, Hcalls2, callsOf_cons.
    rewrite (callsOf_emits _ Hacts3). reflexivity.
Qed.

(** *** Failing tools *)

(** C7, amended.  With a dispatcher that answers every request: the tool
    message of a failed call carries the text '错误: ' and the error under
    the id of the call, and [handleToolCalls] returns; the round of a
    tool-call decision continues the loop with one more round counted,
    whatever the results.  With at least one round allowed, a run whose
    first response asks for a tool that fails returns a result after at
    least one round, with the error message in its history, and has called
    the model again with that message, provided the transport does not fail
    and, for [executeStream], every stream of a call that advertises the
    tools answers or decides.  Under the same provisos every run returns a
    result, and neither [execute] nor [executeStream] throws when the
    transport does not fail. *)
Theorem tool_failures_absorbed :
  (forall tcs c, List.length (executeToolCalls tcs c) = List.length tcs) ->
  let report tc e :=
    {| role := tool; content := ("错误: " ++ e)%string;
       tool_calls := None; tool_call_id := Some (id tc) |} in
  let answersOrDecides a :=
    forall n h,
      let s := chatStream n h (advertised a) in
      streamAnswers s \/ exists tcs, streamDecides s tcs in
  let finishIntact a :=
    forall n h, failure (chatStream n h (cfg_llmOptions a)) = None in
  (forall streaming tcs a i tc e,
     nth_error tcs i = Some tc ->
     nth_error (executeToolCalls tcs (context a)) i = Some (ToolFailure e) ->
     exists a',
       handleToolCalls streaming tcs a = (a', Return tt) /\
       nth_error (messages a') (List.length (messages a) + 1 + i) =
         Some (report tc e)) /\
  (forall a text tcs,
     chat (modelCalls (log a)) (messages a) (advertised a) =
       Return {| resp_content := text; resp_finishReason := "tool_calls";
                 resp_tool_calls := Some tcs |} ->
     exists a', executeRound a = (a', Continue) /\
                toolRounds a' = toolRounds a + 1) /\
  (forall a tcs,
     streamDecides (chatStream (modelCalls (log a)) (messages a) (advertised a))
       tcs ->
     exists a', streamRound a = (a', Continue) /\
                toolRounds a' = toolRounds a + 1) /\
  (forall userMessage a text tcs i tc e,
     0 < cfg_maxToolRounds a ->
     (forall n h o, exists response, chat n h o = Return response) ->
     chat 0%nat (seedMessages getSystemPrompt userMessage) (advertised a) =
       Return {| resp_content := text; resp_finishReason := "tool_calls";
                 resp_tool_calls := Some tcs |} ->
     nth_error tcs i = Some tc ->
     nth_error (executeToolCalls tcs (context a)) i = Some (ToolFailure e) ->
     exists a' r,
       execute (Z.to_nat (cfg_maxToolRounds a)) userMessage a =
         Completed a' (Return r) /\
       1 <= res_toolRounds r /\
       nth_error (messages a') (3 + i) = Some (report tc e) /\
       exists h o,
         In (ModelCall h o) (log a') /\
         nth_error h (3 + i) = Some (report tc e)) /\
  (forall userMessage a tcs i tc e,
     0 < cfg_maxToolRounds a ->
     answersOrDecides a ->
     finishIntact a ->
     streamDecides
       (chatStream 0%nat (seedMessages getSystemPrompt userMessage) (advertised a))
       tcs ->
     nth_error tcs i = Some tc ->
     nth_error (executeToolCalls tcs (context a)) i = Some (ToolFailure e) ->
     exists a' r,
       executeStream (Z.to_nat (cfg_maxToolRounds a)) userMessage a =
         Completed a' (Return r) /\
       1 <= res_toolRounds r /\
       nth_error (messages a') (3 + i) = Some (report tc e) /\
       exists h o,
         In (ModelCall h o) (log a') /\
         nth_error h (3 + i) = Some (report tc e)) /\
  ((forall n h o, exists response, chat n h o = Return response) ->
   (forall userMessage a, exists a' r,
      execute (Z.to_nat (cfg_maxToolRounds a)) userMessage a =
      Completed a' (Return r)) /\
   (forall fuel userMessage a a' e,
      execute fuel userMessage a <> Completed a' (Throw e))) /\
  ((forall n h o, failure (chatStream n h o) = None) ->
   forall fuel userMessage a a' e,
     executeStream fuel userMessage a <> Completed a' (Throw e)) /\
  (forall userMessage a,
     answersOrDecides a -> finishIntact a ->
     exists a' r,
       executeStream (Z.to_nat (cfg_maxToolRounds a)) userMessage a =
       Completed a' (Return r)).
Proof.
  intros Hlen report answersOrDecides finishIntact.
  assert (Hreport : forall userMessage context tcs i tc e,
             nth_error tcs i = Some tc ->
             nth_error (executeToolCalls tcs context) i = Some (ToolFailure e) ->
             nth_error (seedMessages getSystemPrompt userMessage
                          ++ roundMessages context tcs)
               (3 + i) = Some (report tc e)).
  { intros userMessage context tcs i tc e Htc Hr.
    change (3 + i)%nat with (S (S (S i))). cbn [seedMessages app nth_error].
    cbn [Agent.roundMessages nth_error].
    rewrite (nth_error_toolMessages _ _ _ _ _ _ Htc Hr). reflexivity. }
  split; [|split; [|split; [|split; [|split; [|split; [|split]]]]]].
  - intros streaming tcs a i tc e Htc Hr.
    rewrite (handleToolCalls_ok _ _ Hlen). eexists. split; [reflexivity|].
    cbn [messages extend]. rewrite nth_error_app2 by lia.
    replace (List.length (messages a) + 1 + i - List.length (messages a))%nat
      with (S i) by lia.
    cbn [Agent.roundMessages nth_error].
    rewrite (nth_error_toolMessages _ _ _ _ _ _ Htc Hr). reflexivity.
  - intros a text tcs H.
    rewrite (executeRound_dispatch chat getAllToolDefinitions executeToolCalls
               JSON_stringify Hlen a text tcs H).
    eexists. split; reflexivity.
  - intros a tcs D. destruct (streamRound_decides Hlen a tcs D) as (acts & -> & _).
    eexists. split; reflexivity.
  - intros userMessage a text tcs i tc e HM Hchat Hfirst Htc Hr.
    destruct (execute_goes_on Hlen userMessage a text tcs HM Hchat Hfirst)
      as (a' & r & Hrun & Hrounds & Hmsgs & h & o & Hin & Hh).
    pose proof (Hreport userMessage (context a) tcs i tc e Htc Hr) as Hnth.
    exists a', r. split; [exact Hrun|]. split; [exact Hrounds|].
    split; [exact (extends_nth_error _ _ _ _ Hmsgs Hnth)|].
    exists h, o. split; [exact Hin|]. exact (extends_nth_error _ _ _ _ Hh Hnth).
  - intros userMessage a tcs i tc e HM Hprog Hfinal Hfirst Htc Hr.
    destruct (executeStream_goes_on Hlen userMessage a tcs HM Hprog Hfinal Hfirst)
      as (a' & r & Hrun & Hrounds & Hmsgs & h & o & Hin & Hh).
    pose proof (Hreport userMessage (context a) tcs i tc e Htc Hr) as Hnth.
    exists a', r. split; [exact Hrun|]. split; [exact Hrounds|].
    split; [exact (extends_nth_error _ _ _ _ Hmsgs Hnth)|].
    exists h, o. split; [exact Hin|]. exact (extends_nth_error _ _ _ _ Hh Hnth).
  - intros Hchat. split.
    + intros userMessage a. unfold Agent.execute.
      destruct (executeLoop_returns chat getAllToolDefinitions executeToolCalls
                  JSON_stringify Hlen Hchat (start getSystemPrompt userMessage a))
        as (a' & r & H).
      cbn [cfg_maxToolRounds toolRounds start] in H. rewrite Z.sub_0_r in H.
      exists a', r. exact H.
    + intros fuel userMessage a a' e. unfold Agent.execute.
      apply (executeLoop_no_throw chat getAllToolDefinitions executeToolCalls
               JSON_stringify Hlen Hchat).
  - intros Hstream fuel userMessage a a' e. unfold Agent.executeStream.
    apply (streamLoop_no_throw chatStream getAllToolDefinitions executeToolCalls
             JSON_parse JSON_stringify Hlen Hstream).
  - intros userMessage a Hprog Hfinal. unfold Agent.executeStream.
    apply (streamLoop_returns Hlen); [exact Hprog | exact Hfinal |].
    cbn [cfg_maxToolRounds toolRounds start]. rewrite Z.sub_0_r. lia.
Qed.

End Run.

(** *** The properties at work *)

Lemma toolsTwiceThenText_returns n h o :
  exists response, toolsTwiceThenText n h o = Return response.
Proof. destruct n as [|[|n]]; eexists; reflexivity. Qed.

Lemma earlyDecisionStream_decides n h o :
  (n < 2)%nat -> streamDecides (earlyDecisionStream n h o) [searchCall].
Proof.
  intros Hn.
  assert (D : streamDecides (earlyDecisionStream 0 h o) [searchCall]).
  { split; [reflexivity|]. split; [|split; [reflexivity | discriminate]].
    intros pre c post Heq Hfin. cbn in Heq.
    destruct pre as [|c1 [|c2 pre]].
    - injection Heq as <- _. discriminate Hfin.
    - injection Heq as <- <- _. split; [reflexivity | cbn; discriminate].
    - apply (f_equal (@List.length _)) in Heq. cbn in Heq.
      rewrite length_app in Heq. cbn in Heq. lia. }
  destruct n as [|[|n]]; [exact D | exact D | lia].
Qed.

Lemma earlyDecisionStream_answers n h o :
  (2 <= n)%nat -> streamAnswers (earlyDecisionStream n h o).
Proof.
  intros Hn. destruct n as [|[|n]]; [lia | lia |].
  apply finalAnswer_answers.
  exists [textChunk "summary"], stopChunk, [].
  split; [reflexivity|]. split; [repeat constructor|].
  split; [reflexivity | discriminate].
Qed.

Lemma earlyDecisionStream_progress n h o :
  streamAnswers (earlyDecisionStream n h o) \/
  exists tcs, streamDecides (earlyDecisionStream n h o) tcs.
Proof.
  destruct (Nat.lt_ge_cases n 2) as [Hlt | Hge].
  - right. exists [searchCall]. apply earlyDecisionStream_decides, Hlt.
  - left. apply earlyDecisionStream_answers, Hge.
Qed.

Lemma earlyDecisionStream_intact n h o : failure (earlyDecisionStream n h o) = None.
Proof. destruct n as [|[|n]]; reflexivity. Qed.

(** C4, amended, with configured options that list a tool: after two
    rounds the last call passes these options, tools included.  The stream
    carries its tool calls ahead of its final chunk. *)
Lemma two_rounds_then_forced_finish_witness :
  let seed := seedMessages "system prompt" "question" in
  let round :=
    roundMessages failingDispatcher stringifyNull plainContext [searchCall] in
  let advertised := with_tools tooledOptions [] in
  let calls :=
    [ModelCall seed advertised; Dispatch [searchCall];
     ModelCall (seed ++ round) advertised; Dispatch [searchCall];
     ModelCall (seed ++ round ++ round ++ [forcedFinishMessage]) tooledOptions] in
  let result :=
    {| res_content := "summary";
       res_toolsUsed := ["search_messages"; "search_messages"];
       res_toolRounds := 2 |} in
  tools tooledOptions = Some [searchOnly] /\
  (exists a',
     execute toolsTwiceThenText [] failingDispatcher stringifyNull "system prompt"
       2 "question" (new_Agent plainContext twoRoundsTooled) =
       Completed a' (Return result) /\
     messages a' = seed ++ round ++ round ++ [forcedFinishMessage] /\
     log a' = calls) /\
  (exists a',
     executeStream earlyDecisionStream [] failingDispatcher parseObjects
       stringifyNull "system prompt" 2 "question"
       (new_Agent plainContext twoRoundsTooled) =
       Completed a' (Return result) /\
     messages a' = seed ++ round ++ round ++ [forcedFinishMessage] /\
     callsOf (log a') = calls).
Proof.
  intros seed round advertised calls result.
  pose proof (two_rounds_then_forced_finish toolsTwiceThenText earlyDecisionStream
                [] failingDispatcher parseObjects stringifyNull "system prompt"
                plainContext (Some tooledOptions) "question" 0 [searchCall]
                [searchCall] failingDispatcher_length) as H.
  cbv zeta in H. destruct H as (_ & Htools & _ & Hbuffered & Hstreamed).
  split; [exact Htools|]. split.
  - exact (Hbuffered "" ""
             {| resp_content := "summary"; resp_finishReason := "stop";
                resp_tool_calls := None |}
             eq_refl eq_refl eq_refl).
  - refine (Hstreamed _ _ _ eq_refl eq_refl).
    + apply earlyDecisionStream_decides. lia.
    + apply earlyDecisionStream_decides. lia.
Defined.

(** C7, amended, on a dispatcher whose every call fails, with the default
    configuration. *)
Lemma tool_failures_absorbed_witness :
  let a := new_Agent plainContext emptyConfig in
  let report :=
    {| role := tool; content := "错误: unknown tool search_messages";
       tool_calls := None; tool_call_id := Some "call_1" |} in
  (exists a' r,
     execute toolsTwiceThenText [] failingDispatcher stringifyNull "system prompt"
       5 "question" a = Completed a' (Return r) /\
     1 <= res_toolRounds r /\
     nth_error (messages a') 3 = Some report /\
     exists h o, In (ModelCall h o) (log a') /\ nth_error h 3 = Some report) /\
  (exists a' r,
     executeStream earlyDecisionStream [] failingDispatcher parseObjects
       stringifyNull "system prompt" 5 "question" a = Completed a' (Return r) /\
     1 <= res_toolRounds r /\
     nth_error (messages a') 3 = Some report /\
     exists h o, In (ModelCall h o) (log a') /\ nth_error h 3 = Some report).
Proof.
  intros a report.
  pose proof (tool_failures_absorbed toolsTwiceThenText earlyDecisionStream []
                failingDispatcher parseObjects stringifyNull "system prompt"
                failingDispatcher_length) as H.
  cbv zeta in H. destruct H as (_ & _ & _ & Hbuffered & Hstreamed & _).
  split.
  - exact (Hbuffered "question" a "" [searchCall] 0%nat searchCall
             "unknown tool search_messages" eq_refl toolsTwiceThenText_returns
             eq_refl eq_refl eq_refl).
  - refine (Hstreamed "question" a [searchCall] 0%nat searchCall
              "unknown tool search_messages" eq_refl _ _ _ eq_refl eq_refl).
    + intros n h. apply earlyDecisionStream_progress.
    + intros n h. apply earlyDecisionStream_intact.
    + apply earlyDecisionStream_decides. lia.
Defined.

(** After its first round the stream [emptyAfterToolStream] keeps a run in
    the loop. *)
Lemma emptyAfterTool_spins fuel : forall a,
  (1 <= modelCalls (log a))%nat ->
  toolRounds a < cfg_maxToolRounds a ->
  exists a',
    streamLoop emptyAfterToolStream [] failingDispatcher parseObjects
      stringifyNull fuel a = Running a' /\
    toolRounds a' = toolRounds a /\
    modelCalls (log a') = (modelCalls (log a) + fuel)%nat /\
    dispatched (log a') = dispatched (log a).
Proof.
  induction fuel as [|fuel IH]; intros a Hcalls Hlt; rewrite streamLoop_eq;
    destruct (Z.ltb_spec (toolRounds a) (cfg_maxToolRounds a)); try lia.
  - exists a. split; [reflexivity|]. split; [reflexivity|]. split; [lia | reflexivity].
  - assert (Hround : streamRound emptyAfterToolStream [] failingDispatcher
                       parseObjects stringifyNull a =
                     (extend [] []
                        [ModelCall (messages a) (with_tools (cfg_llmOptions a) [])]
                        0 a, Continue)).
    { unfold streamRound. cbn [messages record].
      destruct (modelCalls (log a)) as [|n]; [lia|].
      cbn. to_extend. reflexivity. }
    rewrite Hround.
    destruct (IH (extend [] []
                    [ModelCall (messages a) (with_tools (cfg_llmOptions a) [])]
                    0 a)) as (a' & -> & Hrounds & Hmore & Hdisp).
    { cbn [log extend]. rewrite modelCalls_app. cbn. lia. }
    { cbn [toolRounds cfg_maxToolRounds extend]. lia. }
    exists a'. split; [reflexivity|].
    cbn [log toolRounds extend] in Hrounds, Hmore, Hdisp.
    rewrite modelCalls_app in Hmore. rewrite dispatched_app in Hdisp.
    cbn in Hmore, Hdisp. rewrite app_nil_r in Hdisp.
    split; [lia|]. split; [lia | exact Hdisp].
Qed.

(** C7 as stated fails: a tool fails in the first round, its failure is
    reported to the model, and the run does not complete with an answer.
    The buffered run ends with the error of the transport, which fails in
    the second call; the streaming run, whose later streams end on a final
    chunk with an empty list of tool calls, is still in its loop after any
    number of passes. *)
Lemma failed_tool_without_answer :
  let a := new_Agent plainContext emptyConfig in
  failingDispatcher [searchCall] plainContext =
    [ToolFailure "unknown tool search_messages"] /\
  (exists a',
     execute failsAfterTool [] failingDispatcher stringifyNull "system prompt"
       5 "question" a =
       Completed a' (Throw (TransportError "network unreachable")) /\
     dispatched (log a') = [[searchCall]]) /\
  (forall fuel, exists a',
     executeStream emptyAfterToolStream [] failingDispatcher parseObjects
       stringifyNull "system prompt" (S fuel) "question" a = Running a' /\
     dispatched (log a') = [[searchCall]] /\
     toolRounds a' = 1 /\
     modelCalls (log a') = S fuel).
Proof.
  intros a. split; [reflexivity|]. split.
  - eexists. split; vm_compute; reflexivity.
  - intros fuel. unfold executeStream.
    set (a0 := start "system prompt" "question" a).
    rewrite streamLoop_eq. change (toolRounds a0 <? cfg_maxToolRounds a0) with true.
    cbv iota.
    destruct (streamRound emptyAfterToolStream [] failingDispatcher parseObjects
                stringifyNull a0) as [a1 x] eqn:Hround.
    vm_compute in Hround. injection Hround as <- <-.
    match goal with
    | |- context [streamLoop _ _ _ _ _ fuel ?s] =>
        destruct (emptyAfterTool_spins fuel s) as (a' & -> & Hr & Hm & Hd);
          [cbn; lia | cbn; lia |]
    end.
    exists a'. split; [reflexivity|].
    split; [rewrite Hd; reflexivity|]. split; [rewrite Hr; reflexivity|].
    rewrite Hm. reflexivity.
Qed.

End RunProofs.
